(** * The Swift domain of anarchy_sphinx: signature parsing, symbol table
      and module index

    A shallow embedding of [swift_domain/swift.py] (Python 3).

    - A [str] is a list of characters with code points below 256; the
      character classes of Python ([isspace], the word characters of
      [re]) are written out for this range.
    - Integers are [Z], so that the [-1] of [find] and negative slice
      bounds behave as in Python.
    - Code that can raise runs in a small exception monad, [result];
      unpacking and indexing are the operations that raise.
    - A [dict] whose iteration order can be observed is an association
      list in insertion order.
    - [signode] is the list of the nodes added to it.
    - What belongs to the host framework (the ids of a document tree,
      [doc2path], the reporter) is state or a parameter of the function
      that uses it. *)

From Stdlib Require Import List ZArith Ascii String Bool Lia Permutation Sorted.
Import ListNotations.

Set Warnings "-register-all".

Open Scope Z_scope.
Open Scope list_scope.

(** ** Python values *)

Definition str := list ascii.

(** String literals of the source are written [s "..."]. *)
Definition s (x : string) : str := list_ascii_of_string x.

Definition chr (x : string) : ascii :=
  match x with
  | String c _ => c
  | EmptyString => Ascii.zero
  end.

(** The double quote character. *)
Definition dquote : ascii := ascii_of_nat 34.

Definition code (c : ascii) : Z := Z.of_nat (nat_of_ascii c).

Definition len {A : Type} (l : list A) : Z := Z.of_nat (List.length l).

(** Truthiness of a [str]: the empty string is falsy. *)
Definition truthy (x : str) : bool :=
  match x with
  | [] => false
  | _ :: _ => true
  end.

(** Truthiness of a value that may be [None]. *)
Definition truthy_opt (x : option str) : bool :=
  match x with
  | None => false
  | Some v => truthy v
  end.

(** Exceptions the modelled code can raise. *)
Inductive exn : Type :=
| ValueError
| IndexError
| KeyError
| AttributeError
| TypeError.

Inductive result (A : Type) : Type :=
| Ok (a : A)
| Raise (e : exn).

Arguments Ok {A} a.
Arguments Raise {A} e.

Definition bind {A B : Type} (c : result A) (k : A -> result B) : result B :=
  match c with
  | Ok a => k a
  | Raise e => Raise e
  end.

Notation "x <- c ;; k" := (bind c (fun x => k))
  (at level 61, c at next level, right associativity).

Definition returns {A : Type} (c : result A) : bool :=
  match c with
  | Ok _ => true
  | Raise _ => false
  end.

(** [for x in l: ...] with a body that may raise, collecting results. *)
Fixpoint mapM {A B : Type} (f : A -> result B) (l : list A) : result (list B) :=
  match l with
  | [] => Ok []
  | x :: t => y <- f x ;; ys <- mapM f t ;; Ok (y :: ys)
  end.

(** ** String methods of Python used by the domain *)

Module Py.

(** [str.isspace] on one character, for code points below 256. *)
Definition isspace (c : ascii) : bool :=
  let n := code c in
  ((9 <=? n) && (n <=? 13)) || ((28 <=? n) && (n <=? 32))
  || (n =? 133) || (n =? 160).

(** Word characters of [re] ([\w] on [str] patterns), code points below
    256: alphanumerics of Unicode and the underscore. *)
Definition isword (c : ascii) : bool :=
  let n := code c in
  ((48 <=? n) && (n <=? 57)) || ((65 <=? n) && (n <=? 90))
  || (n =? 95) || ((97 <=? n) && (n <=? 122))
  || (n =? 170) || (n =? 178) || (n =? 179) || (n =? 181)
  || (n =? 185) || (n =? 186) || ((188 <=? n) && (n <=? 190))
  || ((192 <=? n) && (n <=? 214)) || ((216 <=? n) && (n <=? 246))
  || ((248 <=? n) && (n <=? 255)).

Definition shift_char (c : ascii) (d : Z) : ascii :=
  ascii_of_nat (Z.to_nat (code c + d)).

(** [c.upper()] for a one-character string.  The result is a string since
    sharp s maps to two letters; micro sign and y-diaeresis, whose
    upper-case forms lie above code point 255, are left as they are. *)
Definition upper_char (c : ascii) : str :=
  let n := code c in
  if (97 <=? n) && (n <=? 122) then [shift_char c (-32)]
  else if n =? 223 then s "SS"
  else if (224 <=? n) && (n <=? 254) && negb (n =? 247)
       then [shift_char c (-32)]
  else [c].

(** [c.lower()] for one character. *)
Definition lower_char (c : ascii) : ascii :=
  let n := code c in
  if (65 <=? n) && (n <=? 90) then shift_char c 32
  else if (192 <=? n) && (n <=? 222) && negb (n =? 215)
       then shift_char c 32
  else c.

Definition lower (x : str) : str := map lower_char x.

Fixpoint lstrip (x : str) : str :=
  match x with
  | [] => []
  | c :: t => if isspace c then lstrip t else x
  end.

Definition rstrip (x : str) : str := rev (lstrip (rev x)).

Definition strip (x : str) : str := rstrip (lstrip x).

Fixpoint startswith (x p : str) : bool :=
  match p, x with
  | [], _ => true
  | _ :: _, [] => false
  | a :: p', b :: x' => Ascii.eqb a b && startswith x' p'
  end.

Definition endswith (x p : str) : bool := startswith (rev x) (rev p).

(** [c in x] for a one-character [c]. *)
Definition contains (c : ascii) (x : str) : bool :=
  existsb (Ascii.eqb c) x.

(** [x.count(c)] for a one-character [c]. *)
Definition count (c : ascii) (x : str) : Z :=
  len (filter (Ascii.eqb c) x).

(** [x.find(sub)]: index of the first occurrence, [-1] when absent. *)
Fixpoint find_from (sub x : str) (k : Z) : Z :=
  match x with
  | [] => if startswith [] sub then k else -1
  | _ :: t => if startswith x sub then k else find_from sub t (k + 1)
  end.

Definition find (x sub : str) : Z := find_from sub x 0.

(** [x.rfind(sub)]: index of the last occurrence, [-1] when absent. *)
Fixpoint rfind_from (sub x : str) (k last : Z) : Z :=
  match x with
  | [] => if startswith [] sub then k else last
  | _ :: t => rfind_from sub t (k + 1) (if startswith x sub then k else last)
  end.

Definition rfind (x sub : str) : Z := rfind_from sub x 0 (-1).

(** Slice bounds: a negative bound counts from the end, and every bound is
    clamped to [0 .. len]. *)
Definition clamp (n i : Z) : Z :=
  if i <? 0 then Z.max 0 (n + i) else Z.min n i.

(** [x[i:j]] *)
Definition slice {A : Type} (x : list A) (i j : Z) : list A :=
  let lo := clamp (len x) i in
  let hi := clamp (len x) j in
  firstn (Z.to_nat (hi - lo)) (skipn (Z.to_nat lo) x).

(** [x[i:]] *)
Definition slice_from {A : Type} (x : list A) (i : Z) : list A :=
  skipn (Z.to_nat (clamp (len x) i)) x.

(** [x[:j]] *)
Definition slice_to {A : Type} (x : list A) (j : Z) : list A :=
  firstn (Z.to_nat (clamp (len x) j)) x.

(** [x[i]], raising [IndexError] out of range. *)
Definition index {A : Type} (x : list A) (i : Z) : result A :=
  let k := if i <? 0 then len x + i else i in
  if k <? 0 then Raise IndexError
  else match nth_error x (Z.to_nat k) with
       | Some a => Ok a
       | None => Raise IndexError
       end.

(** [x.split(sep)] for a one-character separator. *)
Fixpoint split (x : str) (sep : ascii) : list str :=
  match x with
  | [] => [[]]
  | c :: t =>
      if Ascii.eqb c sep then [] :: split t sep
      else match split t sep with
           | h :: r => (c :: h) :: r
           | [] => [[c]]
           end
  end.

(** [x.split(sep, 1)] for a one-character separator. *)
Fixpoint split1 (x : str) (sep : ascii) : list str :=
  match x with
  | [] => [[]]
  | c :: t =>
      if Ascii.eqb c sep then [[]; t]
      else match split1 t sep with
           | h :: r => (c :: h) :: r
           | [] => [[c]]
           end
  end.

(** [x.rsplit(sep, 1)] for a one-character separator. *)
Definition rsplit1 (x : str) (sep : ascii) : list str :=
  rev (map (@rev ascii) (split1 (rev x) sep)).

(** [sep.join(parts)] *)
Fixpoint join (sep : str) (parts : list str) : str :=
  match parts with
  | [] => []
  | [p] => p
  | p :: rest => p ++ sep ++ join sep rest
  end.

(** [enumerate(x)], counting from [k]. *)
Fixpoint enumerate_from {A : Type} (k : Z) (x : list A) : list (Z * A) :=
  match x with
  | [] => []
  | a :: t => (k, a) :: enumerate_from (k + 1) t
  end.

Definition enumerate {A : Type} (x : list A) : list (Z * A) :=
  enumerate_from 0 x.

(** Code-point order on strings, the order [sorted] uses on [str] keys. *)
Fixpoint leb (x y : str) : bool :=
  match x, y with
  | [], _ => true
  | _ :: _, [] => false
  | a :: x', b :: y' =>
      if code a <? code b then true
      else if code b <? code a then false
      else leb x' y'
  end.

Definition str_eqb (x y : str) : bool :=
  if list_eq_dec ascii_dec x y then true else false.

(** [sorted(l, key=key)]: a stable sort on string keys.  Stability fixes
    the result, so insertion from the right stands for Python's sort. *)
Fixpoint insert_by {A : Type} (key : A -> str) (a : A) (l : list A) : list A :=
  match l with
  | [] => [a]
  | b :: t => if leb (key a) (key b) then a :: l
              else b :: insert_by key a t
  end.

Fixpoint sorted {A : Type} (key : A -> str) (l : list A) : list A :=
  match l with
  | [] => []
  | a :: t => insert_by key a (sorted key t)
  end.

End Py.

(** ** Document tree nodes appended to a signature node

    [Elem tag rawsource text attributes children] stands for a docutils
    element built as [tag(rawsource, text, *children, **attributes)];
    [Text] is [nodes.Text]. *)

Inductive node : Type :=
| Elem (tag : string) (rawsource text : str)
       (attributes : list (string * str)) (children : list node)
| Text (data : str).

(** [parent += child] *)
Definition add_child (parent child : node) : node :=
  match parent with
  | Elem tag raw text attrs children => Elem tag raw text attrs (children ++ [child])
  | Text d => Text d
  end.

(** The directive names of the domain ([self.objtype]). *)
Definition objtype := str.

(** The value a [handle_signature] returns: full name, signature and the
    flag telling whether the declaration goes to the index. *)
Definition name_cls_add : Type := (str * str * bool)%type.

Definition desc_addname (rawsource text : str) : node :=
  Elem "desc_addname" rawsource text [] [].
Definition desc_name (rawsource text : str) : node :=
  Elem "desc_name" rawsource text [] [].
Definition desc_type (rawsource text : str) (children : list node) : node :=
  Elem "desc_type" rawsource text [] children.
Definition desc_annotation (rawsource text : str) : node :=
  Elem "desc_annotation" rawsource text [] [].
Definition desc_parameter (rawsource text : str) : node :=
  Elem "desc_parameter" rawsource text [] [].
Definition desc_parameterlist (rawsource text : str) (children : list node) : node :=
  Elem "desc_parameterlist" rawsource text [] children.
Definition desc_returns (rawsource text : str) : node :=
  Elem "desc_returns" rawsource text [] [].
Definition pending_xref (rawsource : str) (attributes : list (string * str)) : node :=
  Elem "pending_xref" rawsource [] attributes [].

(** [self.env.temp_data]: the two slots of the ambient container. *)
Record temp_data : Type := {
  swift_class : option str;
  swift_class_type : option str
}.

Definition no_container : temp_data :=
  {| swift_class := None; swift_class_type := None |}.

(** ** SwiftClassmember: functions, methods and initializers *)

Module SwiftClassmember.

(** The dict appended to [result] for one parameter. *)
Record Param : Type := {
  name : str;
  variable_name : str;
  type : str;
  default : option str
}.

(** [parens = {'[]': 0, '()': 0, '<>': 0}] *)
Record parens : Type := {
  square : Z;
  round : Z;
  angle : Z
}.

(** The body of [for key, value in list(parens.items())] for one key:
    [key[0]] adds one to the counter, [key[1]] takes one off. *)
Definition count_pair (key0 key1 c : ascii) (value : Z) : Z :=
  let value := if Ascii.eqb c key0 then value + 1 else value in
  if Ascii.eqb c key1 then value - 1 else value.

Definition count_char (p : parens) (c : ascii) : parens :=
  {| square := count_pair "[" "]" c (square p);
     round := count_pair "(" ")" c (round p);
     angle := count_pair "<" ">" c (angle p) |}.

(** [skip_comma]: some counter is not zero. *)
Definition skip_comma (p : parens) : bool :=
  negb (square p =? 0) || negb (round p =? 0) || negb (angle p =? 0).

(** State of the first loop of [_parse_parameter_list]. *)
Record scan : Type := {
  counters : parens;
  last_split : Z;
  parameters : list str
}.

Definition scan_start : scan :=
  {| counters := {| square := 0; round := 0; angle := 0 |};
     last_split := 0;
     parameters := [] |}.

(** One turn of [for i, c in enumerate(parameter_list)]. *)
Definition scan_step (parameter_list : str) (st : scan) (ic : Z * ascii) : scan :=
  let (i, c) := ic in
  let p := count_char (counters st) c in
  if Ascii.eqb c "," && negb (skip_comma p)
  then {| counters := p;
          last_split := i + 1;
          parameters := parameters st
                        ++ [Py.strip (Py.slice parameter_list (last_split st) i)] |}
  else {| counters := p;
          last_split := last_split st;
          parameters := parameters st |}.

(** The first half of [_parse_parameter_list]: the stripped chunks. *)
Definition split_parameters (parameter_list : str) : list str :=
  let st := fold_left (scan_step parameter_list)
                      (Py.enumerate parameter_list) scan_start in
  parameters st ++ [Py.strip (Py.slice_from parameter_list (last_split st))].

(** The body of [for parameter in parameters].  Unpacking the list of
    [split(':', 1)] into [name, rest] raises [ValueError] unless it has
    exactly two items. *)
Definition parse_parameter (parameter : str) : result Param :=
  match map Py.strip (Py.split1 parameter ":") with
  | [name0; rest] =>
      let name_parts := Py.split1 name0 " " in
      names <-
        (if 1 <? len name_parts
         then n <- Py.index name_parts 0 ;;
              v <- Py.index name_parts 1 ;;
              Ok (n, v)
         else n <- Py.index name_parts 0 ;;
              v <- Py.index name_parts 0 ;;
              Ok (n, v)) ;;
      let equals := Py.rfind rest (s "=") in
      let default_value :=
        if 0 <=? equals
        then Some (Py.strip (Py.slice_from rest (equals + 1)))
        else None in
      let param_type :=
        if 0 <=? equals
        then Py.strip (Py.slice_to rest equals)
        else rest in
      Ok {| name := fst names;
            variable_name := snd names;
            type := param_type;
            default := default_value |}
  | _ => Raise ValueError
  end.

Definition _parse_parameter_list (parameter_list : str) : result (list Param) :=
  mapM parse_parameter (split_parameters parameter_list).

(** [split_point] of [handle_signature]. *)
Definition split_point (sig : str) : Z :=
  let first_anglebracket := Py.find sig (s "<") in
  let first_paren := Py.find sig (s "(") in
  if (0 <=? first_anglebracket) && (first_anglebracket <? first_paren)
  then Py.find sig (s ">") + 1
  else first_paren.

(** [generics] of [handle_signature]. *)
Definition generics (sig : str) : option str :=
  let first_anglebracket := Py.find sig (s "<") in
  if 0 <=? first_anglebracket
  then
    let sp := Py.slice_from sig first_anglebracket in
    let np := Py.find sp (s ">") in
    Some (Py.slice_to sp (np + 1))
  else None.

(** [method_name] of [handle_signature], specialization cut off. *)
Definition method_name (sig : str) : str :=
  let method_name := Py.slice sig 0 (split_point sig) in
  let angle_bracket := Py.find method_name (s "<") in
  if 0 <=? angle_bracket
  then Py.slice_to method_name angle_bracket
  else method_name.

(** The loop that cuts the parameter list out of [rest]: the index at
    which [depth] is zero for the first time, if there is one. *)
Fixpoint closing_index (l : list (Z * ascii)) (depth : Z) : option Z :=
  match l with
  | [] => None
  | (i, c) :: t =>
      let depth :=
        if Ascii.eqb c "(" then depth + 1
        else if Ascii.eqb c ")" then depth - 1
        else depth in
      if depth =? 0 then Some i else closing_index t depth
  end.

(** [(parameter_list, rest)] after that loop. *)
Definition cut_parameter_list (rest : str) : option str * str :=
  match closing_index (Py.enumerate rest) 0 with
  | Some i => (Some (Py.slice rest 1 i), Py.slice_from rest (i + 1))
  | None => (None, rest)
  end.

(** What one parameter adds to [signature]. *)
Definition parameter_key (p : Param) : str :=
  if Py.str_eqb (name p) (variable_name p)
  then name p ++ s ":"
  else name p ++ s " " ++ variable_name p ++ s ":".

(** [signature] as lines 270-297 build it, one [+=] at a time. *)
Definition build_signature (objtype : objtype) (method_name : str)
           (parameters : list Param) : str :=
  if Py.str_eqb objtype (s "init")
  then
    let signature := [] ++ s "init(" in
    let signature :=
      fold_left (fun sg p => sg ++ parameter_key p) parameters signature in
    signature ++ s ")"
  else
    let signature := [] ++ method_name in
    let signature := signature ++ s "(" in
    let signature :=
      fold_left (fun sg p => sg ++ parameter_key p) parameters signature in
    signature ++ s ")".

(** The node of one parameter in the parameter list. *)
Definition parameter_node (p : Param) : node :=
  let param :=
    if Py.str_eqb (name p) (variable_name p)
    then name p ++ s ": "
    else name p ++ s " " ++ variable_name p ++ s ":" in
  let paramNode := desc_parameter param param in
  let paramXref :=
    pending_xref [] [("refdomain"%string, s "swift");
                     ("reftype"%string, s "type");
                     ("reftarget"%string, type p)] in
  let paramXref := add_child paramXref (Text (type p)) in
  let paramNode := add_child paramNode paramXref in
  if truthy_opt (default p)
  then add_child paramNode
         (Text (s " = " ++ match default p with Some d => d | None => [] end))
  else paramNode.

(** Everything [handle_signature] computes: its locals, the nodes added to
    [signode], and the returned triple. *)
Record handled : Type := {
  h_method_name : str;
  h_generics : option str;
  h_parameter_list : option str;
  h_parameters : list Param;
  h_rest : str;
  h_throws : bool;
  h_return_type : option str;
  h_signature : str;
  h_signode : list node;
  h_result : name_cls_add
}.

Definition handle_signature (temp : temp_data) (objtype : objtype) (sig : str)
  : result handled :=
  let container_class_name := swift_class temp in
  let generics0 := generics sig in
  let method_name0 := method_name sig in
  let rest := Py.slice_from sig (split_point sig) in
  let (parameter_list, rest) := cut_parameter_list rest in
  parameters0 <-
    match parameter_list with
    | Some pl => if 0 <? len pl then _parse_parameter_list pl else Ok []
    | None => Ok []
    end ;;
  let throws := 0 <=? Py.find rest (s "throws") in
  let arrow := Py.find rest (s "->") in
  let return_type :=
    if 0 <=? arrow then Some (Py.strip (Py.slice_from rest (arrow + 2)))
    else None in
  let signature := build_signature objtype method_name0 parameters0 in
  let signode :=
    (if Py.str_eqb objtype (s "static_method")
     then [desc_addname (s "static") (s "static func ")]
     else if Py.str_eqb objtype (s "class_method")
     then [desc_addname (s "class") (s "class func ")]
     else if negb (Py.str_eqb objtype (s "init"))
     then [desc_addname (s "func") (s "func ")]
     else [])
    ++ (if Py.str_eqb objtype (s "init")
        then [desc_name (s "init") (s "init")]
        else [desc_name method_name0 method_name0])
    ++ (match generics0 with
        | Some g => if truthy g then [desc_addname g g] else []
        | None => []
        end)
    ++ [desc_parameterlist
          (fold_left (fun sg p => sg ++ parameter_key p) parameters0 [])
          [] (map parameter_node parameters0)]
    ++ (if throws then [desc_annotation (s "throws") (s "throws")] else [])
    ++ (match return_type with
        | Some rt =>
            if truthy rt
            then [add_child (desc_returns [] [])
                    (add_child
                       (pending_xref [] [("refdomain"%string, s "swift");
                                         ("reftype"%string, s "type");
                                         ("reftarget"%string, rt)])
                       (Text rt))]
            else []
        | None => []
        end) in
  let title := signature in
  Ok {| h_method_name := method_name0;
        h_generics := generics0;
        h_parameter_list := parameter_list;
        h_parameters := parameters0;
        h_rest := rest;
        h_throws := throws;
        h_return_type := return_type;
        h_signature := signature;
        h_signode := signode;
        h_result :=
          match container_class_name with
          | Some c =>
              if truthy c
              then (c ++ s "." ++ title, c ++ s "." ++ signature, true)
              else (title, signature, true)
          | None => (title, signature, true)
          end |}.

End SwiftClassmember.

(** ** SwiftClass: classes, structs, enums, protocols and extensions *)

Module SwiftClass.

(** [parts.pop()] *)
Definition pop {A : Type} (l : list A) : result (A * list A) :=
  match rev l with
  | [] => Raise IndexError
  | a :: r => Ok (a, rev r)
  end.

(** Index of the first item equal to ['where'] in an enumerated list. *)
Fixpoint where_index (l : list (Z * str)) : option Z :=
  match l with
  | [] => None
  | (index, p) :: t =>
      if Py.str_eqb p (s "where") then Some index else where_index t
  end.

(** The reference node of one super type. *)
Definition super_node (first c : str) : node :=
  let prefix := if negb (Py.str_eqb c first) then s ", " else [] in
  add_child
    (pending_xref [] [("reftype"%string, s "type");
                      ("refdomain"%string, s "swift");
                      ("reftarget"%string, c);
                      ("refwarn"%string, s "True")])
    (Text (prefix ++ c)).

(** Everything [handle_signature] computes: its locals, the nodes added to
    [signode], and the returned triple. *)
Record handled : Type := {
  class_name : str;
  generic_type : option str;
  super_classes : option (list str);
  type_constraint : option str;
  add_to_index : bool;
  signode : list node;
  returned : name_cls_add
}.

(** Lines 73-79: the class name and the generic type attachment.
    Unpacking [parts[0].split('<')] into two names raises [ValueError]
    unless the list has exactly two items. *)
Definition split_generic (parts0 : str) : result (str * option str) :=
  if Py.contains "<" parts0
  then match Py.split parts0 "<" with
       | [class_name; generic_type] =>
           Ok (class_name, Some (Py.slice_to generic_type (-1)))
       | _ => Raise ValueError
       end
  else Ok (parts0, None).

(** Lines 81-94: a [where] among the words of the class name.  The result
    is [type_constraint], [class_name] and [parts], which [pop] shortens. *)
Definition name_where (class_name : str) (parts : list str)
  : result (option str * str * list str) :=
  let class_parts :=
    if Py.contains " " class_name then Some (Py.split class_name " ")
    else if Py.contains (ascii_of_nat 9) class_name
    then Some (Py.split class_name (ascii_of_nat 9))
    else None in
  match class_parts with
  | Some (p0 :: ps) =>
      let cp := p0 :: ps in
      match where_index (Py.enumerate cp) with
      | Some index =>
          popped <- pop parts ;;
          Ok (Some (Py.join (s " ") (Py.slice_from cp index)
                    ++ s ": " ++ fst popped),
              Py.join (s " ") (Py.slice_to cp index),
              snd popped)
      | None => Ok (None, class_name, parts)
      end
  | _ => Ok (None, class_name, parts)
  end.

(** Lines 96-97: only the last dotted segment of the name is kept. *)
Definition last_segment (class_name : str) : result str :=
  if negb (Py.count "." class_name =? 0)
  then Py.index (Py.split class_name ".") (-1)
  else Ok class_name.

(** Lines 99-109: [super_classes] and the [type_constraint] after them. *)
Definition split_supers (parts : list str) (type_constraint : option str)
  : result (option (list str) * option str) :=
  if 1 <? len parts
  then
    parts1 <- Py.index parts 1 ;;
    let super_classes := map Py.strip (Py.split parts1 ",") in
    match where_index (Py.enumerate super_classes) with
    | Some index =>
        Ok (Some (Py.slice_to super_classes index),
            Some (Py.join (s " ") (Py.slice_from super_classes index)))
    | None => Ok (Some super_classes, type_constraint)
    end
  else Ok (None, type_constraint).

Definition handle_signature (temp : temp_data) (objtype : objtype) (sig : str)
  : result handled :=
  let container_class_name := swift_class temp in
  let parts := map Py.strip (Py.split1 sig ":") in
  parts0 <- Py.index parts 0 ;;
  head <- split_generic parts0 ;;
  let generic_type0 := snd head in
  found <- name_where (fst head) parts ;;
  let type_constraint0 := fst (fst found) in
  let parts := snd found in
  class_name2 <- last_segment (snd (fst found)) ;;
  supers <- split_supers parts type_constraint0 ;;
  let super_classes0 := fst supers in
  let type_constraint1 := snd supers in
  let has_supers :=
    match super_classes0 with
    | Some (_ :: _) => true
    | _ => false
    end in
  let signode0 :=
    [desc_addname objtype (objtype ++ s " ");
     desc_name class_name2 class_name2]
    ++ (match super_classes0 with
        | Some (first :: others) =>
            [desc_type [] (s " : ")
               (map (super_node first) (first :: others))]
        | _ => []
        end)
    ++ (match type_constraint1 with
        | Some tc => if truthy tc then [desc_type tc (s " " ++ tc) []] else []
        | None => []
        end) in
  let add_to_index0 :=
    if Py.str_eqb objtype (s "extension") && negb has_supers
    then false else true in
  let class_name3 :=
    match container_class_name with
    | Some c => if truthy c then c ++ s "." ++ class_name2 else class_name2
    | None => class_name2
    end in
  Ok {| class_name := class_name2;
        generic_type := generic_type0;
        super_classes := super_classes0;
        type_constraint := type_constraint1;
        add_to_index := add_to_index0;
        signode := signode0;
        returned := (objtype ++ s " " ++ class_name3,
                     objtype ++ s " " ++ class_name3,
                     add_to_index0) |}.

(** What [before_content] and [after_content] can raise: [env] is not a
    name of the module, and [clsname_set] is an attribute that only
    [before_content] sets. *)
Inductive content_error : Type :=
| NameError_env
| AttributeError_clsname_set.

(** [before_content]: [names] is [self.names], the values returned for the
    signatures of the directive, and [clsname_set] the attribute of that
    name, [None] as long as nothing has set it.  The result is
    [temp_data] and the attribute afterwards. *)
Definition before_content (objtype : objtype) (names : list name_cls_add)
           (clsname_set : option bool) (temp : temp_data)
  : content_error + temp_data * option bool :=
  match names with
  | [] => inr (temp, clsname_set)
  | (_, signature, _) :: _ =>
      let parts := Py.split signature " " in
      if 1 <? len parts
      then inr ({| swift_class := Some (Py.join (s " ") (Py.slice_from parts 1));
                   swift_class_type := Some objtype |},
                Some true)
      else inl NameError_env
  end.

(** [after_content] *)
Definition after_content (clsname_set : option bool) (temp : temp_data)
  : content_error + temp_data :=
  match clsname_set with
  | None => inl AttributeError_clsname_set
  | Some true => inr {| swift_class := None; swift_class_type := None |}
  | Some false => inr temp
  end.

End SwiftClass.

(** ** SwiftEnumCase *)

Module SwiftEnumCase.

Record handled : Type := {
  enum_case : str;
  assoc_value : option str;
  raw_value : option str;
  signode : list node;
  returned : name_cls_add
}.

Definition handle_signature (temp : temp_data) (sig : str) : result handled :=
  let container_class_name := swift_class temp in
  let parts := map Py.strip (Py.split1 sig "(") in
  parts0 <- Py.index parts 0 ;;
  let enum_case0 := Py.strip parts0 in
  locals <-
    (if 1 <? len parts
     then
       parts1 <- Py.index parts 1 ;;
       let parts := Py.rsplit1 parts1 "=" in
       parts0 <- Py.index parts 0 ;;
       let assoc_value := Py.strip parts0 in
       raw_value <-
         (if 1 <? len parts
          then parts1 <- Py.index parts 1 ;; Ok (Some (Py.strip parts1))
          else Ok None) ;;
       Ok (enum_case0,
           (if Py.str_eqb assoc_value [] then None
            else Some (s "(" ++ assoc_value)),
           raw_value)
     else
       let parts := map Py.strip (Py.split1 sig "=") in
       parts0 <- Py.index parts 0 ;;
       raw_value <-
         (if 1 <? len parts
          then parts1 <- Py.index parts 1 ;; Ok (Some (Py.strip parts1))
          else Ok None) ;;
       Ok (Py.strip parts0, None, raw_value)) ;;
  let enum_case1 := fst (fst locals) in
  let assoc_value0 := snd (fst locals) in
  let raw_value0 := snd locals in
  let signode0 :=
    [desc_name enum_case1 enum_case1]
    ++ (match assoc_value0 with
        | Some a => if truthy a then [desc_type a a []] else []
        | None => []
        end)
    ++ (match raw_value0 with
        | Some r => if truthy r then [desc_addname r (s " = " ++ r)] else []
        | None => []
        end) in
  let enum_case2 :=
    match container_class_name with
    | Some c => if truthy c then c ++ s "." ++ enum_case1 else enum_case1
    | None => enum_case1
    end in
  Ok {| enum_case := enum_case1;
        assoc_value := assoc_value0;
        raw_value := raw_value0;
        signode := signode0;
        returned := (enum_case2, enum_case2, true) |}.

End SwiftEnumCase.

(** ** The fragment of [re] that [var_sig] uses

    A backtracking matcher in continuation style: every repetition is
    greedy and gives characters back one at a time when what follows
    fails, as the [re] module does.  Groups without a name are not
    reported by [groupdict] and are plain sequences here. *)

Module Re.

Inductive regex : Type :=
| Empty                                   (* the empty pattern *)
| Start                                   (* ^ *)
| Class (p : ascii -> bool)               (* one character of a class *)
| Star (p : ascii -> bool)                (* class*, greedy *)
| WordBoundary                            (* \b *)
| Seq (r1 r2 : regex)
| Opt (r : regex)                         (* (...)?, greedy *)
| Group (name : string) (r : regex).      (* (?P<name>...) *)

(** Captured groups, most recent first. *)
Definition captures := list (string * str).

(** The matcher's position: the character before it, if any, and the
    text that is left. *)
Definition cont := option ascii -> str -> captures -> option captures.

Fixpoint star (p : ascii -> bool) (prev : option ascii) (x : str)
         (c : captures) (k : cont) : option captures :=
  match x with
  | a :: t =>
      if p a
      then match star p (Some a) t c k with
           | Some r => Some r
           | None => k prev x c
           end
      else k prev x c
  | [] => k prev x c
  end.

Definition word_at (c : option ascii) : bool :=
  match c with
  | Some a => Py.isword a
  | None => false
  end.

Fixpoint run (r : regex) (prev : option ascii) (x : str)
         (c : captures) (k : cont) : option captures :=
  match r with
  | Empty => k prev x c
  | Start => match prev with None => k prev x c | Some _ => None end
  | Class p =>
      match x with
      | a :: t => if p a then k (Some a) t c else None
      | [] => None
      end
  | Star p => star p prev x c k
  | WordBoundary =>
      if xorb (word_at prev) (word_at (hd_error x)) then k prev x c else None
  | Seq r1 r2 => run r1 prev x c (fun prev' x' c' => run r2 prev' x' c' k)
  | Opt r1 =>
      match run r1 prev x c k with
      | Some res => Some res
      | None => k prev x c
      end
  | Group name r1 =>
      run r1 prev x c
          (fun prev' x' c' =>
             k prev' x'
               ((name, firstn (List.length x - List.length x')%nat x) :: c'))
  end.

(** [pattern.match(x)]: the captures of the first way to match a prefix
    of [x], [None] when there is none. *)
Definition match_ (r : regex) (x : str) : option captures :=
  run r None x [] (fun _ _ c => Some c).

(** [m.groupdict()[name]], [None] for a group that took no part. *)
Fixpoint group (c : captures) (name : string) : option str :=
  match c with
  | [] => None
  | (n, v) :: t => if String.eqb n name then Some v else group t name
  end.

(** Concatenation of the items of a pattern. *)
Definition seq (l : list regex) : regex := fold_right Seq Empty l.

End Re.

(** ** SwiftClassIvar: variables and constants *)

Module SwiftClassIvar.

Definition in_range (lo hi : string) (c : ascii) : bool :=
  (code (chr lo) <=? code c) && (code c <=? code (chr hi)).

Definition one_of (set : string) (c : ascii) : bool :=
  existsb (Ascii.eqb c) (s set).

(** [[a-zA-Z_]] *)
Definition name_start (c : ascii) : bool :=
  in_range "a" "z" c || in_range "A" "Z" c || one_of "_" c.

(** [[a-zA-Z0-9_]] *)
Definition name_char (c : ascii) : bool :=
  in_range "a" "z" c || in_range "A" "Z" c || in_range "0" "9" c
  || one_of "_" c.

(** [[a-zA-Z_[(]] *)
Definition type_start (c : ascii) : bool :=
  in_range "a" "z" c || in_range "A" "Z" c || one_of "_[(" c.

(** [[a-zA-Z0-9_<>[\]()?!:, \t-\.]]: the last item is the range from the
    tab character to the dot. *)
Definition type_char (c : ascii) : bool :=
  in_range "a" "z" c || in_range "A" "Z" c || in_range "0" "9" c
  || one_of "_<>[]()?!:, " c
  || ((9 <=? code c) && (code c <=? code (chr "."))).

(** [[^{]] *)
Definition value_char (c : ascii) : bool := negb (one_of "{" c).

Definition is_char (x : string) (c : ascii) : bool := Ascii.eqb c (chr x).

Definition var_sig : Re.regex :=
  Re.seq
    [Re.Start;
     Re.Star Py.isspace;
     Re.Group "name"
       (Re.seq [Re.Class name_start; Re.Star name_char; Re.WordBoundary]);
     Re.Opt
       (Re.seq [Re.Star Py.isspace; Re.Class (is_char ":");
                Re.Star Py.isspace;
                Re.Group "type"
                  (Re.seq [Re.Class type_start; Re.Star type_char])]);
     Re.Opt
       (Re.seq [Re.Star Py.isspace; Re.Class (is_char "=");
                Re.Star Py.isspace;
                Re.Group "value" (Re.Star value_char)])].

(** The outcome of [handle_signature]: the nodes and the triple, or the
    warning after which the method returns nothing. *)
Inductive outcome : Type :=
| Handled (signode : list node) (returned : name_cls_add)
| Warned (msg : str).

(** The nodes for the default value, lines 435-439. *)
Definition value_nodes (value : option str) : list node :=
  match value with
  | Some v =>
      if truthy v && (0 <? len v)
      then let value := Py.strip v in
           [desc_addname value (s " = " ++ value)]
      else if truthy v
      then [desc_addname (s "{ ... }") (s " = { ... }")]
      else []
  | None => []
  end.

Definition handle_signature (temp : temp_data) (objtype : objtype) (sig : str)
  : result outcome :=
  let container_class_name := swift_class temp in
  match Re.match_ var_sig sig with
  | None =>
      Ok (Warned (s "invalid variable/constant documentation string "
                  ++ [dquote] ++ sig ++ [dquote] ++ s ", "))
  | Some m =>
      let keyword :=
        if Py.str_eqb objtype (s "static_var")
        then [desc_addname (s "static var") (s "static var ")]
        else if Py.str_eqb objtype (s "static_let")
        then [desc_addname (s "static let") (s "static let ")]
        else if Py.str_eqb objtype (s "var")
        then [desc_addname (s "var") (s "var ")]
        else if Py.str_eqb objtype (s "let")
        then [desc_addname (s "let") (s "let ")]
        else [] in
      name <-
        match Re.group m "name" with
        | Some n => Ok (Py.strip n)
        | None => Raise AttributeError
        end ;;
      let signature := name in
      let type_nodes :=
        match Re.group m "type" with
        | Some t =>
            if truthy t
            then
              let typ := Py.strip t in
              [add_child (desc_type (s " : ") (s " : ") [])
                 (add_child
                    (pending_xref [] [("refdomain"%string, s "swift");
                                      ("reftype"%string, s "type");
                                      ("reftarget"%string, typ)])
                    (Text typ))]
            else []
        | None => []
        end in
      let signode :=
        keyword ++ [desc_name name name] ++ type_nodes
        ++ value_nodes (Re.group m "value") in
      match container_class_name with
      | Some c =>
          if truthy c
          then Ok (Handled signode
                     (c ++ s "." ++ name, c ++ s "." ++ signature, true))
          else Ok (Handled signode (name, signature, true))
      | None => Ok (Handled signode (name, signature, true))
      end
  end.

End SwiftClassIvar.

(** ** SwiftXRefRole *)

Module SwiftXRefRole.

(** [process_link] of the role made with [SwiftXRefRole(tipe)]: the title
    and the target that the reference node gets. *)
Definition process_link (tipe title target : str) : str * str :=
  if Py.contains "." target
  then (title, target)
  else (title, tipe ++ s " " ++ target).

End SwiftXRefRole.

(** ** Dictionaries with observable iteration order

    A Python [dict] iterates in insertion order; assigning to a key that is
    present keeps its place. *)

Module Dict.

Definition t (V : Type) : Type := list (str * V).

Fixpoint get {V : Type} (d : t V) (k : str) : option V :=
  match d with
  | [] => None
  | (k', v) :: r => if Py.str_eqb k' k then Some v else get r k
  end.

Definition mem {V : Type} (d : t V) (k : str) : bool :=
  match get d k with
  | Some _ => true
  | None => false
  end.

(** [d[k] = v] *)
Fixpoint set {V : Type} (d : t V) (k : str) (v : V) : t V :=
  match d with
  | [] => [(k, v)]
  | (k', v') :: r =>
      if Py.str_eqb k' k then (k', v) :: r else (k', v') :: set r k v
  end.

Definition keys {V : Type} (d : t V) : list str := map fst d.

End Dict.

(** An entry of [domaindata['swift']['objects']]:
    [(docname, objtype, signature)]. *)
Definition object_data : Type := (str * str * str)%type.

Definition objects_table : Type := Dict.t object_data.

(** ** SwiftObjectDescription.add_target_and_index *)

Module SwiftObjectDescription.

(** The part of the build a directive reads and writes: the [ids] of the
    document tree of every source document (a document tree belongs to
    one source document and starts without ids), the objects of the
    domain, and the warnings reported so far. *)
Record build : Type := {
  document_ids : Dict.t (list str);
  objects : objects_table;
  warnings : list str
}.

(** The directive being run.  [has_warn] tells whether it has a method
    [warn]: [SwiftClassIvar] defines one, the other classes of the source
    do not and have one only if the base class of the host does. *)
Record directive : Type := {
  docname : str;
  objtype_of : objtype;
  noindex : bool;
  has_warn : bool
}.

(** [self.state.document.ids] of the document being read. *)
Definition ids (st : build) (d : directive) : list str :=
  match Dict.get (document_ids st) (docname d) with
  | Some l => l
  | None => []
  end.

Definition mem_str (x : str) (l : list str) : bool :=
  existsb (Py.str_eqb x) l.

(** [signode['ids'].append(signature)] and
    [document.note_explicit_target(signode)]: the id is entered in the
    document's [ids] unless it is there. *)
Definition note_explicit_target (st : build) (d : directive) (id : str)
  : Dict.t (list str) :=
  let l := ids st d in
  Dict.set (document_ids st) (docname d)
           (if mem_str id l then l else l ++ [id]).

Section WithHost.

(** [self.env.doc2path], a function of the host framework. *)
Variable doc2path : str -> str.

Definition add_target_and_index (d : directive)
           (name_cls_add : option name_cls_add) (st : build)
  : result build :=
  match name_cls_add with
  | None => Raise TypeError
  | Some (fullname, signature, add_to_index) =>
      if noindex d || negb add_to_index then Ok st
      else if negb (mem_str fullname (ids st d))
      then Ok {| document_ids := note_explicit_target st d signature;
                 objects := Dict.set (objects st) fullname
                              (docname d, objtype_of d, signature);
                 warnings := warnings st |}
      else if negb (has_warn d) then Raise AttributeError
      else
        match Dict.get (objects st) fullname with
        | Some (other, _, _) =>
            Ok {| document_ids := document_ids st;
                  objects := objects st;
                  warnings :=
                    warnings st
                    ++ [s "duplicate object description of " ++ fullname
                        ++ s ", " ++ s "other instance in "
                        ++ doc2path other] |}
        | None => Raise KeyError
        end
  end.

End WithHost.

End SwiftObjectDescription.

(** [type_order] *)
Definition type_order : list str :=
  [s "class"; s "struct"; s "enum"; s "protocol"; s "extension"].

(** ** SwiftModuleIndex *)

Module SwiftModuleIndex.

(** The 7-tuple built for every object; [a[0]] is [entry_name] and
    [a[3]] is [entry_anchor]. *)
Record entry : Type := {
  entry_name : str;
  entry_subtype : Z;
  entry_docname : str;
  entry_anchor : str;
  entry_extra : str;
  entry_qualifier : str;
  entry_descr : str
}.

(** [typ.replace("_", " ")] *)
Definition replace_underscores (x : str) : str :=
  map (fun c => if Ascii.eqb c "_" then " "%char else c) x.

(** [start] after [for t in type_order: if x.startswith(t): ...; break]. *)
Fixpoint start_after (types : list str) (x : str) : Z :=
  match types with
  | [] => 0
  | t :: r => if Py.startswith x t then len t + 1 else start_after r x
  end.

(** [a[3][start]], a one-character string. *)
Definition sigsorter (a : entry) : result str :=
  c <- Py.index (entry_anchor a) (start_after type_order (entry_anchor a)) ;;
  Ok [c].

Definition digit (n : Z) : ascii := ascii_of_nat (Z.to_nat (48 + n mod 10)).

(** ['{:04d}'.format(i)] for [0 <= i < 10000]; [i] is an index in
    [type_order]. *)
Definition format_04d (i : Z) : str :=
  [digit (i / 1000); digit (i / 100); digit (i / 10); digit i].

Fixpoint indexsorter_loop (types : list (Z * str)) (x : str) : str :=
  match types with
  | [] => x
  | (i, t) :: r =>
      if Py.startswith x t then format_04d i ++ x
      else indexsorter_loop r x
  end.

Definition indexsorter (a : entry) : str :=
  indexsorter_loop (Py.enumerate type_order) (entry_name a).

Definition entries_of (objects : objects_table) : list entry :=
  map (fun o =>
         let '(refname, (docname, typ, signature)) := o in
         {| entry_name := refname;
            entry_subtype := 0;
            entry_docname := docname;
            entry_anchor := signature;
            entry_extra := replace_underscores typ;
            entry_qualifier := [];
            entry_descr := [] |})
      objects.

(** [sorted(entries, key=self.sigsorter)]: the keys are computed first,
    and a key that raises ends the sort. *)
Definition sort_by_sigsorter (entries : list entry) : result (list entry) :=
  keyed <- mapM (fun e => k <- sigsorter e ;; Ok (k, e)) entries ;;
  Ok (map snd (Py.sorted fst keyed)).

(** State of the grouping loop. *)
Record grouping : Type := {
  content : list (option str * list entry);
  current_key : option str;
  current_list : list entry
}.

Definition same_key (k : option str) (letter : str) : bool :=
  match k with
  | Some k' => Py.str_eqb letter k'
  | None => false
  end.

Definition group_step (g : grouping) (e : entry) : result grouping :=
  c <- Py.index (entry_anchor e) (start_after type_order (entry_anchor e)) ;;
  let letter := Py.upper_char c in
  Ok (if negb (same_key (current_key g) letter)
      then {| content :=
                if 0 <? len (current_list g)
                then content g ++ [(current_key g, current_list g)]
                else content g;
              current_key := Some letter;
              current_list := [e] |}
      else {| content := content g;
              current_key := current_key g;
              current_list := current_list g ++ [e] |}).

Fixpoint group_loop (g : grouping) (entries : list entry) : result grouping :=
  match entries with
  | [] => Ok g
  | e :: r => g' <- group_step g e ;; group_loop g' r
  end.

(** [generate]: the buckets and [collapse]. *)
Definition generate (objects : objects_table)
  : result (list (option str * list entry) * Z) :=
  let collapse := 0 in
  let entries := entries_of objects in
  entries <- sort_by_sigsorter entries ;;
  g <- group_loop {| content := []; current_key := None; current_list := [] |}
                  entries ;;
  let content := content g ++ [(current_key g, current_list g)] in
  Ok (map (fun ke => (fst ke, Py.sorted indexsorter (snd ke))) content,
      collapse).

End SwiftModuleIndex.

(** ** SwiftDomain: cross references and document removal *)

Module SwiftDomain.

(** [swift_reserved] *)
Definition swift_reserved : list str :=
  map s ["Int"; "Double"; "Float"; "String"; "Bool"; "Any"; "Equatable";
         "CGFloat";
         "UILabel"; "UIImageView"; "UIColor"; "UIImage"; "UIButton";
         "UITextField"; "UIControl"; "UISlider";
         "GLKView";
         "CLLocation";
         "Int16"; "Int32"; "Int64";
         "UInt16"; "UInt32"; "UInt64"]%string.

(** The node [resolve_xref] returns: [make_refnode(builder, fromdocname,
    docname, signature, contnode, test_target)] for an object of the
    domain, [nodes.reference] with [refuri] and [reftitle] for a reserved
    name. *)
Inductive xref : Type :=
| make_refnode (fromdocname todocname targetid title : str)
| reference (rawsource text refuri reftitle : str).

(** [test_target] after the first [if]: an optional-type mark or an array
    wrapper is taken off. *)
Definition strip_sigil (target : str) : str :=
  if Py.endswith target (s "?") || Py.endswith target (s "!")
  then Py.slice_to target (-1)
  else if Py.startswith target (s "[") && Py.endswith target (s "]")
  then Py.slice target 1 (-1)
  else target.

(** [test_target] before the loop over the objects. *)
Definition test_target (target : str) : str :=
  let test_target := strip_sigil target in
  let point_pos := Py.find test_target (s ".") in
  if negb (point_pos =? -1)
  then Py.slice_from test_target point_pos
  else test_target.

(** [for to in type_order: if refname == to + ' ' + test_target] *)
Fixpoint some_type_matches (types : list str) (refname test_target : str) : bool :=
  match types with
  | [] => false
  | to :: r =>
      if Py.str_eqb refname (to ++ s " " ++ test_target) then true
      else some_type_matches r refname test_target
  end.

(** The loop over the objects, in the order of the dictionary. *)
Fixpoint lookup (objects : objects_table) (fromdocname test_target : str)
  : option xref :=
  match objects with
  | [] => None
  | (refname, (docname, _, signature)) :: r =>
      if some_type_matches type_order refname test_target
      then Some (make_refnode fromdocname docname signature test_target)
      else lookup r fromdocname test_target
  end.

Definition reserved_uri (test_target : str) : str :=
  if Py.startswith test_target (s "CG")
  then s "https://developer.apple.com/documentation/coregraphics/"
       ++ Py.lower test_target
  else if Py.startswith test_target (s "CL")
  then s "https://developer.apple.com/documentation/corelocation/"
       ++ Py.lower test_target
  else if Py.startswith test_target (s "GL")
  then s "https://developer.apple.com/documentation/glkit/"
       ++ Py.lower test_target
  else if Py.startswith test_target (s "UI")
  then s "https://developer.apple.com/documentation/uikit/"
       ++ Py.lower test_target
  else s "https://developer.apple.com/documentation/swift/"
       ++ Py.lower test_target.

Definition resolve_xref (objects : objects_table) (fromdocname target : str)
  : option xref :=
  let test_target := test_target target in
  match lookup objects fromdocname test_target with
  | Some n => Some n
  | None =>
      if existsb (Py.str_eqb test_target) swift_reserved
      then Some (reference test_target test_target
                           (reserved_uri test_target) test_target)
      else None
  end.

(** [clear_doc] *)
Definition clear_doc (objects : objects_table) (docname : str) : objects_table :=
  filter (fun o => negb (Py.str_eqb (fst (fst (snd o))) docname)) objects.

(** [get_objects]: the tuples it yields, in the order of the dictionary. *)
Definition get_objects (objects : objects_table)
  : list (str * str * str * str * str * Z) :=
  map (fun o =>
         let '(refname, (docname, type, signature)) := o in
         (refname, refname, type, docname, refname, 1))
      objects.

End SwiftDomain.

(** * Definitions for the statements

    What the specification words differently from the code (depths
    counted over a text, chunks between positions, the first and the last
    occurrence of a separator, matching brackets, ranks), and the inputs
    of the examples. *)

(** ** Canonical signature *)

(** The qualification put in front of a name inside a container: the
    name of the container and a dot. *)
Definition container_prefix (temp : temp_data) : str :=
  match swift_class temp with
  | Some c => if truthy c then c ++ s "." else []
  | None => []
  end.

(** The name a canonical signature starts with: an initializer is rendered
    as [init] whatever the text in front of its parameter list. *)
Definition rendered_name (objtype method_name : str) : str :=
  if Py.str_eqb objtype (s "init") then s "init" else method_name.

(** The text of the round trip example:
    [foo(x: Int, y label: String = "a")]. *)
Definition round_trip_signature : str :=
  s "foo(x: Int, y label: String = " ++ [dquote] ++ s "a" ++ [dquote] ++ s ")".

(** ** Parameter list *)

(** A parameter list with a function type in front of a generic type. *)
Definition arrow_then_generic : str :=
  s "cb: (Int) -> Void, d: Dictionary<String, Int>".

(** Nesting depth of one bracket pair after the text [x]: openers met minus
    closers met. *)
Definition depth (opener closer : ascii) (x : str) : Z :=
  Py.count opener x - Py.count closer x.

(** Position [i] of [text] holds a comma, and each of the three counters
    reads zero there. *)
Definition top_level_comma (text : str) (i : nat) : bool :=
  match nth_error text i with
  | Some c =>
      Ascii.eqb c ","
      && (depth "[" "]" (firstn i text) =? 0)
      && (depth "(" ")" (firstn i text) =? 0)
      && (depth "<" ">" (firstn i text) =? 0)
  | None => false
  end.

Definition top_level_commas (text : str) : list nat :=
  filter (top_level_comma text) (seq 0 (List.length text)).

(** The trimmed pieces of [text] between the given positions, from
    position [from] on. *)
Fixpoint chunks_from (text : str) (from : Z) (positions : list nat) : list str :=
  match positions with
  | [] => [Py.strip (Py.slice_from text from)]
  | i :: r =>
      Py.strip (Py.slice text from (Z.of_nat i))
      :: chunks_from text (Z.of_nat i + 1) r
  end.

Definition top_level_chunks (text : str) : list str :=
  chunks_from text 0 (top_level_commas text).

(** The declared and the local name taken from the name part of a chunk:
    the text before and after its first space, or the whole part twice. *)
Definition names_of (part : str) (p : SwiftClassmember.Param) : Prop :=
  (~ In " "%char part ->
   SwiftClassmember.name p = part /\ SwiftClassmember.variable_name p = part)
  /\ (forall a b, part = a ++ " "%char :: b -> ~ In " "%char a ->
                  SwiftClassmember.name p = a
                  /\ SwiftClassmember.variable_name p = b).

(** The type and the default value taken from the rest of a chunk: split
    at its last equals sign, both sides trimmed, or the rest as the type. *)
Definition type_and_default_of (rest : str) (p : SwiftClassmember.Param) : Prop :=
  (~ In "="%char rest ->
   SwiftClassmember.type p = rest /\ SwiftClassmember.default p = None)
  /\ (forall t d, rest = t ++ "="%char :: d -> ~ In "="%char d ->
                  SwiftClassmember.type p = Py.strip t
                  /\ SwiftClassmember.default p = Some (Py.strip d)).

(** The counters of the scan after the text [pre]: its three depths. *)
Definition counters_of (pre : str) : SwiftClassmember.parens :=
  {| SwiftClassmember.square := depth "[" "]" pre;
     SwiftClassmember.round := depth "(" ")" pre;
     SwiftClassmember.angle := depth "<" ">" pre |}.

(** ** Generic clause *)

(** A signature whose generic clause has angle brackets inside. *)
Definition nested_generics_signature : str := s "foo<T: Array<Int>>(x: T)".

(** The index of the closing angle bracket that matches the first opening
    one: where the angle bracket depth comes back to zero. *)
Fixpoint matching_close (l : list (Z * ascii)) (depth : Z) : option Z :=
  match l with
  | [] => None
  | (i, c) :: t =>
      let depth :=
        if Ascii.eqb c "<" then depth + 1
        else if Ascii.eqb c ">" then depth - 1
        else depth in
      if Ascii.eqb c ">" && (depth =? 0) then Some i
      else matching_close t depth
  end.

Definition matching_angle (sig : str) : option Z :=
  let first_anglebracket := Py.find sig (s "<") in
  matching_close
    (Py.enumerate_from first_anglebracket (Py.slice_from sig first_anglebracket)) 0.

(** ** Class-like declarations *)

(** The class signature of the specification's example. *)
Definition where_signature : str := s "MyClass<T>: Base, Proto where T: Equatable".

(** [super_classes] is falsy: [None] or the empty list. *)
Definition no_super_types (h : SwiftClass.handled) : bool :=
  match SwiftClass.super_classes h with
  | Some (_ :: _) => false
  | _ => true
  end.

(** The head of a class signature: the trimmed text before its first
    colon. *)
Definition class_head (sig : str) : str :=
  Py.strip (hd [] (Py.split1 sig ":")).

(** ** Cross references and symbol table *)

(** [refname] is [test_target] with the name of one of the kinds of
    [type_order] and a space in front. *)
Definition kind_key (refname test_target : str) : Prop :=
  exists to, In to type_order /\ refname = to ++ s " " ++ test_target.

(** The target carries no mark and no wrapper: it does not end with [?]
    or [!] and is not a text between square brackets. *)
Definition unmarked (t : str) : Prop :=
  (forall u, t <> u ++ s "?")
  /\ (forall u, t <> u ++ s "!")
  /\ (forall u, t <> s "[" ++ u ++ s "]").

(** Looking [target] up matches on [text]: what is returned is a node for
    an object of the domain exactly when the table has an entry whose key
    is a kind, a space and [text], and then it is the node of the first
    such entry, in the order of the table, with [text] as its title. *)
Definition resolves_on (objects : objects_table) (fromdocname target text : str)
  : Prop :=
  forall f d sg title,
    SwiftDomain.resolve_xref objects fromdocname target
    = Some (SwiftDomain.make_refnode f d sg title)
    <-> exists before refname typ after,
          objects = before ++ (refname, (d, typ, sg)) :: after
          /\ (forall o, In o before -> ~ kind_key (fst o) text)
          /\ kind_key refname text
          /\ f = fromdocname
          /\ title = text.

(** A table that holds a struct and, after it, a class of the same name. *)
Definition struct_before_class : objects_table :=
  [(s "struct Bar", (s "a", s "struct", s "struct Bar"));
   (s "class Bar", (s "b", s "class", s "class Bar"))].

(** A build before any document is read. *)
Definition empty_build : SwiftObjectDescription.build :=
  {| SwiftObjectDescription.document_ids := [];
     SwiftObjectDescription.objects := [];
     SwiftObjectDescription.warnings := [] |}.

(** A [class] directive in the document [docname]. *)
Definition class_directive (docname : str) : SwiftObjectDescription.directive :=
  {| SwiftObjectDescription.docname := docname;
     SwiftObjectDescription.objtype_of := s "class";
     SwiftObjectDescription.noindex := false;
     SwiftObjectDescription.has_warn := false |}.

(** What [SwiftClass.handle_signature] returns for [class Foo]. *)
Definition class_Foo : name_cls_add := (s "class Foo", s "class Foo", true).

(** ** Variables *)

(** The variable signature of a computed property. *)
Definition computed_property : str := s "x = { return 1 }".

(** The nodes that stand for a default value that is not shown. *)
Definition placeholder : node := desc_addname (s "{ ... }") (s " = { ... }").

(** ** Parses that return *)

(** The parameter list that [handle_signature] passes to
    [_parse_parameter_list], if it passes one: the text cut out of the
    signature, when there is one and it is not empty. *)
Definition passed_parameter_list (sig : str) : option str :=
  match fst (SwiftClassmember.cut_parameter_list
               (Py.slice_from sig (SwiftClassmember.split_point sig))) with
  | Some pl => if 0 <? len pl then Some pl else None
  | None => None
  end.

(** Every top-level chunk of the text has a colon. *)
Definition every_chunk_has_colon (text : str) : bool :=
  forallb (Py.contains ":") (SwiftClassmember.split_parameters text).

(** The groups captured so far stay captured. *)
Definition keeps (c c' : Re.captures) : Prop :=
  forall name, Re.group c name <> None -> Re.group c' name <> None.

(** ** Module index *)

(** The uppercased character a bucket is named after: the character of
    the rendered signature that follows the kind word and a space when the
    signature starts with the name of a kind of [type_order], its first
    character otherwise. *)
Definition bucket_letter (e : SwiftModuleIndex.entry) : result str :=
  c <- Py.index (SwiftModuleIndex.entry_anchor e)
         (SwiftModuleIndex.start_after type_order (SwiftModuleIndex.entry_anchor e)) ;;
  Ok (Py.upper_char c).

(** The rank of a name: the position in [type_order] of the first kind
    whose name the text starts with. *)
Fixpoint rank_loop (types : list (Z * str)) (x : str) : option Z :=
  match types with
  | [] => None
  | (i, t) :: r => if Py.startswith x t then Some i else rank_loop r x
  end.

Definition rank_of (x : str) : option Z := rank_loop (Py.enumerate type_order) x.

(** A list is in the order of its keys. *)
Definition ordered_by {A : Type} (key : A -> str) (l : list A) : Prop :=
  StronglySorted (fun a b => Py.leb (key a) (key b) = true) l.

(** An index entry as [generate] builds it for an object whose key and
    signature are the same text. *)
Definition entry_for (name docname typ : string) : SwiftModuleIndex.entry :=
  {| SwiftModuleIndex.entry_name := s name;
     SwiftModuleIndex.entry_subtype := 0;
     SwiftModuleIndex.entry_docname := s docname;
     SwiftModuleIndex.entry_anchor := s name;
     SwiftModuleIndex.entry_extra := SwiftModuleIndex.replace_underscores (s typ);
     SwiftModuleIndex.entry_qualifier := [];
     SwiftModuleIndex.entry_descr := [] |}.

Definition object_for (name docname typ : string) : str * object_data :=
  (s name, (s docname, s typ, s name)).

(** The table of the specification's example. *)
Definition apples_and_banana : objects_table :=
  [object_for "class Apple" "fruit" "class";
   object_for "struct Apple" "fruit" "struct";
   object_for "class Banana" "fruit" "class"].

(** A struct and a function whose name starts with the word class. *)
Definition struct_and_function : objects_table :=
  [object_for "struct Foo" "api" "struct";
   object_for "classify()" "api" "function"].

(** A function in lower case next to two classes. *)
Definition mixed_case : objects_table :=
  [object_for "apple()" "api" "function";
   object_for "class Apple" "api" "class";
   object_for "class Banana" "api" "class"].

(** Every entry of a bucket has the letter the bucket is named after. *)
Definition bucket_named (b : option str * list SwiftModuleIndex.entry) : Prop :=
  forall e, In e (snd b) ->
            exists letter, bucket_letter e = Ok letter /\ fst b = Some letter.

(** The buckets of the grouping loop, the one being filled last. *)
Definition buckets_of (g : SwiftModuleIndex.grouping)
  : list (option str * list SwiftModuleIndex.entry) :=
  SwiftModuleIndex.content g
  ++ [(SwiftModuleIndex.current_key g, SwiftModuleIndex.current_list g)].


(** ** Module index, the shape of the result *)

(** No two neighbours of a list are equal. *)
Fixpoint no_repeat {A : Type} (l : list A) : Prop :=
  match l with
  | a :: t => match t with
              | b :: _ => a <> b /\ no_repeat t
              | [] => True
              end
  | [] => True
  end.

(** A lower-case letter of ASCII. *)
Definition lower_case_letter (c : ascii) : bool :=
  (code "a" <=? code c) && (code c <=? code "z").

(** The signature of an object has a character at the place where the
    letter of its bucket is read. *)
Definition has_bucket_letter (o : str * object_data) : bool :=
  let signature := snd (snd o) in
  SwiftModuleIndex.start_after type_order signature <? len signature.

(** ** Callables: the text around the parameter list *)

(** No prefix of the text closes more round brackets than it opens. *)
Definition never_closes (x : str) : bool :=
  forallb (fun n => 0 <=? depth "(" ")" (firstn n x)) (seq 0 (S (List.length x))).

(** [sub] occurs in [x] after the text [a]. *)
Definition occurs_at (sub x a : str) : Prop := exists b, x = a ++ sub ++ b.

(** ** Enum cases *)

(** The associated values of an enum case as they are kept: nothing for an
    empty text, the text behind its opening round bracket otherwise. *)
Definition payload_of (v : str) : option str :=
  match v with
  | [] => None
  | _ :: _ => Some (s "(" ++ v)
  end.

(** ** What a pattern reads *)

(** The character before the position reached by reading [v] from a
    position that has [prev] before it. *)
Definition prev_after (prev : option ascii) (v : str) : option ascii :=
  match rev v with
  | a :: _ => Some a
  | [] => prev
  end.

(** [spans r prev v x' caps]: from a position with [prev] before it, the
    pattern [r] can read the text [v] when [x'] is what follows [v], and
    then captures [caps], the most recent group first. *)
Fixpoint spans (r : Re.regex) (prev : option ascii) (v x' : str)
         (caps : Re.captures) : Prop :=
  match r with
  | Re.Empty => v = [] /\ caps = []
  | Re.Start => prev = None /\ v = [] /\ caps = []
  | Re.Class p => (exists a, v = [a] /\ p a = true) /\ caps = []
  | Re.Star p => forallb p v = true /\ caps = []
  | Re.WordBoundary =>
      v = [] /\ caps = []
      /\ xorb (Re.word_at prev) (Re.word_at (hd_error x')) = true
  | Re.Seq r1 r2 =>
      exists v1 v2 c1 c2,
        v = v1 ++ v2 /\ caps = c2 ++ c1
        /\ spans r1 prev v1 (v2 ++ x') c1
        /\ spans r2 (prev_after prev v1) v2 x' c2
  | Re.Opt r1 => (v = [] /\ caps = []) \/ spans r1 prev v x' caps
  | Re.Group name r1 =>
      exists c1, spans r1 prev v x' c1 /\ caps = (name, v) :: c1
  end.

(** An identifier: a letter or an underscore, then letters, digits and
    underscores. *)
Definition identifier (x : str) : Prop :=
  exists a rest, x = a :: rest
                 /\ SwiftClassIvar.name_start a = true
                 /\ forallb SwiftClassIvar.name_char rest = true.

(** The text starts, after white space, with the identifier [nm], and no
    word character follows it. *)
Definition declares (sig nm : str) : Prop :=
  exists ws after,
    sig = ws ++ nm ++ after
    /\ forallb Py.isspace ws = true
    /\ identifier nm
    /\ Re.word_at (hd_error after) = false.

(** ** The symbol table as a build fills it *)

(** The document of an entry of the table, and its anchor. *)
Definition docname_of (o : str * object_data) : str := fst (fst (snd o)).
Definition anchor_of (o : str * object_data) : str := snd (snd o).

(** Every entry is filed under its anchor. *)
Definition well_keyed (objects : objects_table) : Prop :=
  Forall (fun o => fst o = anchor_of o) objects.

(** The anchor of every entry is an id of the document of the entry. *)
Definition anchored (st : SwiftObjectDescription.build) : Prop :=
  Forall (fun o =>
            exists l,
              Dict.get (SwiftObjectDescription.document_ids st) (docname_of o) = Some l
              /\ SwiftObjectDescription.mem_str (anchor_of o) l = true)
         (SwiftObjectDescription.objects st).

(** The builds that can be reached: from the empty one, by directives
    that enter what a parse returned (a key and a signature that are the
    same text), and by the removal of a document. *)
Inductive reachable (doc2path : str -> str) : SwiftObjectDescription.build -> Prop :=
| reach_empty : reachable doc2path empty_build
| reach_add (d : SwiftObjectDescription.directive) (key : str) (add : bool)
            (st st' : SwiftObjectDescription.build) :
    reachable doc2path st ->
    SwiftObjectDescription.add_target_and_index doc2path d (Some (key, key, add)) st
    = Ok st' ->
    reachable doc2path st'
| reach_clear (docname : str) (st : SwiftObjectDescription.build) :
    reachable doc2path st ->
    reachable doc2path
      {| SwiftObjectDescription.document_ids := SwiftObjectDescription.document_ids st;
         SwiftObjectDescription.objects :=
           SwiftDomain.clear_doc (SwiftObjectDescription.objects st) docname;
         SwiftObjectDescription.warnings := SwiftObjectDescription.warnings st |}.

(** ** Class-like declarations and their content *)

(** The names of the roles of the domain, the [tipe] of a role. *)
Definition role_names : list str :=
  map s ["function"; "method"; "class"; "enum"; "enum_case"; "struct"; "init";
         "static_method"; "class_method"; "protocol"; "extension";
         "default_impl"; "let"; "var"; "static_let"; "static_var"]%string.

(** The text has no white space. *)
Definition no_space (x : str) : bool := forallb (fun c => negb (Py.isspace c)) x.

(** ** The text of a node *)

(** The text a node shows ([astext] of docutils): the text the element was
    built with, then the text of its children in their order. *)
Fixpoint astext (n : node) : str :=
  match n with
  | Text data => data
  | Elem _ _ text _ children =>
      text ++ (fix texts (l : list node) : str :=
                 match l with
                 | [] => []
                 | c :: r => astext c ++ texts r
                 end) children
  end.

(** What is shown for a super type behind the first one. *)
Definition shown_super (first c : str) : str :=
  (if Py.str_eqb c first then [] else s ", ") ++ c.

(** * Properties *)

(** ** Python strings *)

Lemma str_eqb_eq (x y : str) : Py.str_eqb x y = true <-> x = y.
Proof.
  unfold Py.str_eqb. destruct (list_eq_dec ascii_dec x y); split; congruence.
Qed.

Lemma str_eqb_neq (x y : str) : Py.str_eqb x y = false <-> x <> y.
Proof.
  unfold Py.str_eqb. destruct (list_eq_dec ascii_dec x y); split; congruence.
Qed.

Lemma str_eqb_refl (x : str) : Py.str_eqb x x = true.
Proof. now apply str_eqb_eq. Qed.

(** Lengths and slices. *)
Lemma len_app {A : Type} (a b : list A) : len (a ++ b) = len a + len b.
Proof. unfold len. rewrite length_app. lia. Qed.

Lemma len_cons {A : Type} (a : A) (l : list A) : len (a :: l) = len l + 1.
Proof. unfold len. simpl List.length. lia. Qed.

Lemma len_nonneg {A : Type} (l : list A) : 0 <= len l.
Proof. unfold len. lia. Qed.

Lemma clamp_in_range (n i : Z) : 0 <= i <= n -> Py.clamp n i = i.
Proof. unfold Py.clamp. intros H. destruct (i <? 0) eqn:E; lia. Qed.

Lemma slice_to_app (a b : str) : Py.slice_to (a ++ b) (len a) = a.
Proof.
  unfold Py.slice_to. rewrite clamp_in_range.
  - unfold len. rewrite Nat2Z.id. rewrite firstn_app, firstn_all, Nat.sub_diag.
    simpl. apply app_nil_r.
  - rewrite len_app. pose proof (len_nonneg a). pose proof (len_nonneg b). lia.
Qed.

Lemma slice_from_app (a b : str) : Py.slice_from (a ++ b) (len a) = b.
Proof.
  unfold Py.slice_from. rewrite clamp_in_range.
  - unfold len. rewrite Nat2Z.id. rewrite skipn_app, skipn_all, Nat.sub_diag.
    reflexivity.
  - rewrite len_app. pose proof (len_nonneg a). pose proof (len_nonneg b). lia.
Qed.

Lemma slice_from_after (a b : str) (c : ascii) :
  Py.slice_from (a ++ c :: b) (len a + 1) = b.
Proof.
  replace (a ++ c :: b) with ((a ++ [c]) ++ b) by now rewrite <- app_assoc.
  replace (len a + 1) with (len (a ++ [c])) by (rewrite len_app; reflexivity).
  apply slice_from_app.
Qed.

(** ** Rendering of the canonical signature *)

Lemma fold_keys (f : SwiftClassmember.Param -> str) (l : list SwiftClassmember.Param) (acc : str) :
  fold_left (fun sg p => sg ++ f p) l acc = acc ++ flat_map f l.
Proof.
  revert acc. induction l as [|p l IH]; intros acc; simpl.
  - now rewrite app_nil_r.
  - rewrite IH. now rewrite <- app_assoc.
Qed.

Lemma build_signature_eq (objtype method_name : str) (ps : list SwiftClassmember.Param) :
  SwiftClassmember.build_signature objtype method_name ps
  = rendered_name objtype method_name ++ s "("
    ++ flat_map SwiftClassmember.parameter_key ps ++ s ")".
Proof.
  unfold SwiftClassmember.build_signature, rendered_name.
  destruct (Py.str_eqb objtype (s "init")); rewrite fold_keys; simpl app;
    rewrite <- ?app_assoc; reflexivity.
Qed.

Lemma handle_signature_signature (temp : temp_data) (objtype sig : str)
      (h : SwiftClassmember.handled) :
  SwiftClassmember.handle_signature temp objtype sig = Ok h ->
  SwiftClassmember.h_signature h
  = SwiftClassmember.build_signature objtype (SwiftClassmember.h_method_name h)
                                     (SwiftClassmember.h_parameters h).
Proof.
  unfold SwiftClassmember.handle_signature.
  destruct (SwiftClassmember.cut_parameter_list _) as [pl rest].
  destruct (match pl with
            | Some pl0 => if 0 <? len pl0 then SwiftClassmember._parse_parameter_list pl0 else Ok []
            | None => Ok []
            end) as [ps|e]; simpl; [|discriminate].
  intros H. injection H as <-. reflexivity.
Qed.

Lemma handle_signature_result (temp : temp_data) (objtype sig : str)
      (h : SwiftClassmember.handled) :
  SwiftClassmember.handle_signature temp objtype sig = Ok h ->
  SwiftClassmember.h_result h
  = (container_prefix temp ++ SwiftClassmember.h_signature h,
     container_prefix temp ++ SwiftClassmember.h_signature h, true).
Proof.
  unfold SwiftClassmember.handle_signature, container_prefix.
  destruct (SwiftClassmember.cut_parameter_list _) as [pl rest].
  destruct (match pl with
            | Some pl0 => if 0 <? len pl0 then SwiftClassmember._parse_parameter_list pl0 else Ok []
            | None => Ok []
            end) as [ps|e]; simpl; [|discriminate].
  intros H. injection H as <-. simpl.
  destruct (swift_class temp) as [c|]; [|reflexivity].
  destruct (truthy c); [|reflexivity].
  now rewrite <- !app_assoc.
Qed.

(** C1. For a callable of any kind the canonical signature is the rendered
    name ([init] for an initializer, the method name otherwise), an opening
    parenthesis, then for each parameter in order [declared:] when the
    declared and the local name are equal and [declared local:] when they
    differ, then a closing parenthesis; types and default values have no
    part in it: parameter lists with the same names give the same string.
    The parse returns this string, qualified by the container if there is
    one, as the key. *)
Theorem C1_canonical_signature :
  forall (temp : temp_data) (objtype sig : str) (h : SwiftClassmember.handled),
    SwiftClassmember.handle_signature temp objtype sig = Ok h ->
    SwiftClassmember.h_signature h
    = rendered_name objtype (SwiftClassmember.h_method_name h) ++ s "("
      ++ flat_map SwiftClassmember.parameter_key (SwiftClassmember.h_parameters h)
      ++ s ")"
    /\ (forall p, In p (SwiftClassmember.h_parameters h) ->
                  SwiftClassmember.name p = SwiftClassmember.variable_name p ->
                  SwiftClassmember.parameter_key p = SwiftClassmember.name p ++ s ":")
    /\ (forall p, In p (SwiftClassmember.h_parameters h) ->
                  SwiftClassmember.name p <> SwiftClassmember.variable_name p ->
                  SwiftClassmember.parameter_key p
                  = SwiftClassmember.name p ++ s " "
                    ++ SwiftClassmember.variable_name p ++ s ":")
    /\ (forall ps,
           map SwiftClassmember.name ps
           = map SwiftClassmember.name (SwiftClassmember.h_parameters h) ->
           map SwiftClassmember.variable_name ps
           = map SwiftClassmember.variable_name (SwiftClassmember.h_parameters h) ->
           SwiftClassmember.build_signature objtype (SwiftClassmember.h_method_name h) ps
           = SwiftClassmember.h_signature h)
    /\ SwiftClassmember.h_result h
       = (container_prefix temp ++ SwiftClassmember.h_signature h,
          container_prefix temp ++ SwiftClassmember.h_signature h, true).
Proof.
  intros temp objtype sig h H.
  pose proof (handle_signature_signature _ _ _ _ H) as Hs.
  pose proof (handle_signature_result _ _ _ _ H) as Hr.
  split; [|split; [|split; [|split; [|exact Hr]]]].
  - rewrite Hs. apply build_signature_eq.
  - intros p _ E. unfold SwiftClassmember.parameter_key.
    now rewrite (proj2 (str_eqb_eq _ _) E).
  - intros p _ E. unfold SwiftClassmember.parameter_key.
    now rewrite (proj2 (str_eqb_neq _ _) E).
  - intros ps Hn Hv. rewrite Hs, !build_signature_eq. do 2 f_equal. f_equal.
    remember (SwiftClassmember.h_parameters h) as qs eqn:Eq. clear Eq Hs H.
    revert qs Hn Hv. induction ps as [|p ps IH]; intros [|q qs] Hn Hv;
      try discriminate; [reflexivity|].
    simpl in *. injection Hn as Hn1 Hn. injection Hv as Hv1 Hv.
    rewrite (IH qs Hn Hv). f_equal.
    unfold SwiftClassmember.parameter_key. now rewrite Hn1, Hv1.
Qed.

(** The round trip example renders as [foo(x:y label:)]. *)
Lemma C1_canonical_signature_witness :
  exists h,
    SwiftClassmember.handle_signature no_container (s "method") round_trip_signature
    = Ok h
    /\ SwiftClassmember.h_signature h = s "foo(x:y label:)".
Proof.
  destruct (SwiftClassmember.handle_signature no_container (s "method")
                                              round_trip_signature)
    as [h|e] eqn:E; [|vm_compute in E; discriminate E].
  exists h. split; [reflexivity|].
  destruct (C1_canonical_signature _ _ _ _ E) as [H _]. rewrite H.
  vm_compute in E. injection E as <-. reflexivity.
Defined.

(** ** The parameter list

    Counting one character more. *)
Lemma count_snoc (c x : ascii) (pre : str) :
  Py.count c (pre ++ [x]) = Py.count c pre + (if Ascii.eqb x c then 1 else 0).
Proof.
  unfold Py.count. rewrite filter_app, len_app. f_equal.
  simpl. rewrite (Ascii.eqb_sym c x). now destruct (Ascii.eqb x c).
Qed.

Lemma depth_snoc (opener closer x : ascii) (pre : str) :
  depth opener closer (pre ++ [x])
  = SwiftClassmember.count_pair opener closer x (depth opener closer pre).
Proof.
  unfold depth, SwiftClassmember.count_pair. rewrite !count_snoc.
  destruct (Ascii.eqb x opener), (Ascii.eqb x closer); lia.
Qed.

Lemma counters_snoc (pre : str) (x : ascii) :
  SwiftClassmember.count_char (counters_of pre) x = counters_of (pre ++ [x]).
Proof.
  unfold SwiftClassmember.count_char, counters_of. simpl.
  now rewrite !depth_snoc.
Qed.

Lemma comma_keeps_depth (opener closer : ascii) (pre : str) :
  Ascii.eqb "," opener = false -> Ascii.eqb "," closer = false ->
  depth opener closer (pre ++ [","%char]) = depth opener closer pre.
Proof.
  intros Ho Hc. rewrite depth_snoc. unfold SwiftClassmember.count_pair.
  now rewrite Ho, Hc.
Qed.

Lemma top_level_comma_at (pre suf : str) (c : ascii) :
  top_level_comma (pre ++ c :: suf) (List.length pre)
  = Ascii.eqb c "," && negb (SwiftClassmember.skip_comma (counters_of (pre ++ [c]))).
Proof.
  unfold top_level_comma.
  rewrite nth_error_app2, Nat.sub_diag by lia. simpl nth_error.
  rewrite firstn_app, firstn_all, Nat.sub_diag. simpl firstn. rewrite app_nil_r.
  destruct (Ascii.eqb c ",") eqn:E; [|reflexivity].
  apply Ascii.eqb_eq in E. subst c.
  unfold SwiftClassmember.skip_comma, counters_of. simpl.
  rewrite !comma_keeps_depth by reflexivity.
  destruct (depth "[" "]" pre =? 0), (depth "(" ")" pre =? 0),
    (depth "<" ">" pre =? 0); reflexivity.
Qed.

Lemma scan_refines (text : str) :
  forall (suf pre : str) (st : SwiftClassmember.scan),
    text = pre ++ suf ->
    SwiftClassmember.counters st = counters_of pre ->
    let st' := fold_left (SwiftClassmember.scan_step text)
                         (Py.enumerate_from (len pre) suf) st in
    SwiftClassmember.parameters st'
    ++ [Py.strip (Py.slice_from text (SwiftClassmember.last_split st'))]
    = SwiftClassmember.parameters st
      ++ chunks_from text (SwiftClassmember.last_split st)
           (filter (top_level_comma text) (seq (List.length pre) (List.length suf))).
Proof.
  induction suf as [|c suf IH]; intros pre st Ht Hc.
  - reflexivity.
  - assert (Ht' : text = (pre ++ [c]) ++ suf) by now rewrite <- app_assoc.
    assert (Hl : len pre + 1 = len (pre ++ [c])) by now rewrite len_app.
    assert (Hn : S (List.length pre) = List.length (pre ++ [c]))
      by (rewrite length_app; simpl; lia).
    pose proof (top_level_comma_at pre suf c) as Htop. rewrite <- Ht in Htop.
    cbn [Py.enumerate_from fold_left List.length seq filter].
    rewrite Htop, Hl, Hn.
    set (st1 := SwiftClassmember.scan_step text st (len pre, c)).
    assert (Hc1 : SwiftClassmember.counters st1 = counters_of (pre ++ [c])).
    { unfold st1, SwiftClassmember.scan_step. rewrite Hc, counters_snoc.
      now destruct (_ && _). }
    pose proof (IH (pre ++ [c]) st1 Ht' Hc1) as IH1. cbv zeta in IH1 |- *.
    rewrite IH1. unfold st1, SwiftClassmember.scan_step.
    rewrite Hc, counters_snoc.
    destruct (Ascii.eqb c "," && negb (SwiftClassmember.skip_comma (counters_of (pre ++ [c])))).
    + cbn [SwiftClassmember.parameters SwiftClassmember.last_split chunks_from].
      rewrite <- app_assoc. reflexivity.
    + reflexivity.
Qed.

Lemma split_parameters_refines (text : str) :
  SwiftClassmember.split_parameters text = top_level_chunks text.
Proof.
  unfold SwiftClassmember.split_parameters, top_level_chunks, top_level_commas.
  exact (scan_refines text text [] SwiftClassmember.scan_start eq_refl eq_refl).
Qed.

(** Splitting at the first separator. *)
Lemma split1_absent (sep : ascii) (x : str) :
  ~ In sep x -> Py.split1 x sep = [x].
Proof.
  induction x as [|c x IH]; intros H; simpl; [reflexivity|].
  destruct (Ascii.eqb c sep) eqn:E.
  - apply Ascii.eqb_eq in E. subst. exfalso. apply H. now left.
  - rewrite IH; [reflexivity|]. intros Hin. apply H. now right.
Qed.

Lemma split1_at (sep : ascii) (a b : str) :
  ~ In sep a -> Py.split1 (a ++ sep :: b) sep = [a; b].
Proof.
  induction a as [|c a IH]; intros H; simpl.
  - now rewrite Ascii.eqb_refl.
  - destruct (Ascii.eqb c sep) eqn:E.
    + apply Ascii.eqb_eq in E. subst. exfalso. apply H. now left.
    + rewrite IH; [reflexivity|]. intros Hin. apply H. now right.
Qed.

Lemma first_occurrence (c : ascii) (x : str) :
  In c x -> exists a b, x = a ++ c :: b /\ ~ In c a.
Proof.
  induction x as [|y x IH]; intros H; [contradiction|].
  destruct (ascii_dec y c) as [->|Hne].
  - exists [], x. split; [reflexivity|]. intros [].
  - destruct H as [H|H]; [contradiction|].
    destruct (IH H) as (a & b & -> & Ha).
    exists (y :: a), b. split; [reflexivity|].
    intros [E|E]; [contradiction|]. now apply Ha.
Qed.

Lemma last_occurrence (c : ascii) (x : str) :
  In c x -> exists t d, x = t ++ c :: d /\ ~ In c d.
Proof.
  induction x as [|y x IH]; intros H; [contradiction|].
  destruct (in_dec ascii_dec c x) as [Hin|Hout].
  - destruct (IH Hin) as (t & d & -> & Hd).
    exists (y :: t), d. now split.
  - destruct H as [->|H]; [|contradiction].
    exists [], x. now split.
Qed.

Lemma first_occurrence_unique (c : ascii) (a a' b b' : str) :
  a ++ c :: b = a' ++ c :: b' -> ~ In c a -> ~ In c a' -> a = a' /\ b = b'.
Proof.
  revert a'. induction a as [|y a IH]; intros [|y' a'] E Ha Ha'; simpl in *.
  - injection E as <-. now split.
  - injection E as <- _. exfalso. apply Ha'. now left.
  - injection E as -> _. exfalso. apply Ha. now left.
  - injection E as <- E. destruct (IH a' E) as [-> ->].
    + intros H. apply Ha. now right.
    + intros H. apply Ha'. now right.
    + now split.
Qed.

Lemma last_occurrence_unique (c : ascii) (t t' d d' : str) :
  t ++ c :: d = t' ++ c :: d' -> ~ In c d -> ~ In c d' -> t = t' /\ d = d'.
Proof.
  revert t'. induction t as [|y t IH]; intros [|y' t'] E Hd Hd'; simpl in *.
  - injection E as <-. now split.
  - injection E as <- ->. exfalso. apply Hd. apply in_or_app. right. now left.
  - injection E as -> <-. exfalso. apply Hd'. apply in_or_app. right. now left.
  - injection E as <- E. destruct (IH t' E Hd Hd') as [-> ->]. now split.
Qed.

(** [rfind] of one character. *)
Lemma startswith_nil (x : str) : Py.startswith x [] = true.
Proof. now destruct x. Qed.

Lemma startswith_char (c y : ascii) (x : str) :
  Py.startswith (y :: x) [c] = Ascii.eqb c y.
Proof. cbn [Py.startswith]. now rewrite startswith_nil, andb_true_r. Qed.

Lemma rfind_from_absent (c : ascii) (x : str) (k last : Z) :
  ~ In c x -> Py.rfind_from [c] x k last = last.
Proof.
  revert k last. induction x as [|y x IH]; intros k last H; [reflexivity|].
  cbn [Py.rfind_from]. rewrite startswith_char.
  destruct (Ascii.eqb c y) eqn:E.
  - apply Ascii.eqb_eq in E. subst. exfalso. apply H. now left.
  - apply IH. intros Hin. apply H. now right.
Qed.

Lemma rfind_from_last (c : ascii) (t d : str) (k last : Z) :
  ~ In c d -> Py.rfind_from [c] (t ++ c :: d) k last = k + len t.
Proof.
  revert k last. induction t as [|y t IH]; intros k last H.
  - cbn [app Py.rfind_from]. rewrite startswith_char, Ascii.eqb_refl.
    rewrite rfind_from_absent by assumption. unfold len. simpl. lia.
  - cbn [app Py.rfind_from]. rewrite IH by assumption. rewrite len_cons. lia.
Qed.

Lemma rfind_absent (c : ascii) (x : str) :
  ~ In c x -> Py.rfind x [c] = -1.
Proof. apply rfind_from_absent. Qed.

Lemma rfind_last (c : ascii) (t d : str) :
  ~ In c d -> Py.rfind (t ++ c :: d) [c] = len t.
Proof. intros H. unfold Py.rfind. now rewrite rfind_from_last. Qed.

(** A chunk without a colon cannot be unpacked into name and rest. *)
Lemma parse_parameter_raises (chunk : str) :
  ~ In ":"%char chunk -> SwiftClassmember.parse_parameter chunk = Raise ValueError.
Proof.
  intros H. unfold SwiftClassmember.parse_parameter.
  now rewrite split1_absent.
Qed.

(** A chunk with a colon is parsed, by the rules of the specification. *)
Lemma parse_parameter_ok (n r : str) :
  ~ In ":"%char n ->
  exists p, SwiftClassmember.parse_parameter (n ++ ":"%char :: r) = Ok p
            /\ names_of (Py.strip n) p
            /\ type_and_default_of (Py.strip r) p.
Proof.
  intros Hn. unfold SwiftClassmember.parse_parameter.
  rewrite split1_at by assumption. cbn [map].
  set (nm := Py.strip n). set (rest := Py.strip r).
  assert (Hnames : exists a b,
             (if 1 <? len (Py.split1 nm " ")
              then n0 <- Py.index (Py.split1 nm " ") 0 ;;
                   v <- Py.index (Py.split1 nm " ") 1 ;; Ok (n0, v)
              else n0 <- Py.index (Py.split1 nm " ") 0 ;;
                   v <- Py.index (Py.split1 nm " ") 0 ;; Ok (n0, v))
             = Ok (a, b)
             /\ (~ In " "%char nm -> a = nm /\ b = nm)
             /\ (forall a' b', nm = a' ++ " "%char :: b' -> ~ In " "%char a' ->
                               a = a' /\ b = b')).
  { destruct (in_dec ascii_dec " "%char nm) as [Hin|Hout].
    - destruct (first_occurrence _ _ Hin) as (a & b & E & Ha).
      exists a, b. rewrite E, split1_at by assumption.
      split; [reflexivity|]. split.
      + intros Hno. exfalso. apply Hno. rewrite <- E. exact Hin.
      + intros a' b' E' Ha'.
        destruct (first_occurrence_unique _ _ _ _ _ E' Ha Ha') as [-> ->].
        now split.
    - exists nm, nm. rewrite split1_absent by assumption.
      split; [reflexivity|]. split; [now split|].
      intros a' b' E' _. exfalso. apply Hout. rewrite E'.
      apply in_or_app. right. now left. }
  destruct Hnames as (a & b & -> & Hno & Hsp). cbn [bind fst snd].
  eexists. split; [reflexivity|]. split.
  - split; cbn [SwiftClassmember.name SwiftClassmember.variable_name]; assumption.
  - unfold type_and_default_of.
    cbn [SwiftClassmember.type SwiftClassmember.default]. split.
    + intros Hout. change (s "=") with ["="%char].
      rewrite rfind_absent by assumption. now split.
    + intros t d E Hd. change (s "=") with ["="%char].
      rewrite E, rfind_last by assumption.
      pose proof (len_nonneg t) as Hpos.
      destruct (0 <=? len t) eqn:Hle; [|apply Z.leb_gt in Hle; lia].
      rewrite slice_from_after.
      replace (t ++ "="%char :: d) with (t ++ ("="%char :: d)) by reflexivity.
      now rewrite slice_to_app.
Qed.

Lemma top_level_commas_spec (text : str) (i : nat) :
  In i (top_level_commas text) ->
  nth_error text i = Some ","%char
  /\ depth "[" "]" (firstn i text) = 0
  /\ depth "(" ")" (firstn i text) = 0
  /\ depth "<" ">" (firstn i text) = 0.
Proof.
  unfold top_level_commas. rewrite filter_In. intros [_ H].
  unfold top_level_comma in H.
  destruct (nth_error text i) as [c|]; [|discriminate].
  rewrite !andb_true_iff in H. destruct H as [[[Hc H1] H2] H3].
  apply Ascii.eqb_eq in Hc. subst c.
  rewrite Z.eqb_eq in H1, H2, H3. auto.
Qed.

(** C2, as the code has it.  [_parse_parameter_list] cuts its input
    exactly at the commas at which the counters of the three bracket pairs
    all read zero, a counter being the number of opening brackets met minus
    the number of closing ones, so a comma at which the angle bracket
    counter (or another one) is not zero never cuts; each chunk is split
    at its first colon into name part and rest, the name part at its first
    space into declared and local name (the whole part for both when it
    has no space), the rest at its last equals sign into trimmed type and
    trimmed default value; the round trip example yields the two
    parameters [x] and [y label] in this order, and the comma of
    [f(x: Dictionary<String, Int>, y: Bool)] inside the angle brackets
    does not cut. *)
Theorem C2_parse_parameter_list :
  (forall text : str,
      SwiftClassmember.split_parameters text = top_level_chunks text)
  /\ (forall text : str,
         SwiftClassmember._parse_parameter_list text
         = mapM SwiftClassmember.parse_parameter (top_level_chunks text))
  /\ (forall (text : str) (i : nat),
         In i (top_level_commas text) ->
         nth_error text i = Some ","%char
         /\ depth "[" "]" (firstn i text) = 0
         /\ depth "(" ")" (firstn i text) = 0
         /\ depth "<" ">" (firstn i text) = 0)
  /\ (forall n r : str,
         ~ In ":"%char n ->
         exists p, SwiftClassmember.parse_parameter (n ++ ":"%char :: r) = Ok p
                   /\ names_of (Py.strip n) p
                   /\ type_and_default_of (Py.strip r) p)
  /\ (exists h,
         SwiftClassmember.handle_signature no_container (s "function")
                                           round_trip_signature = Ok h
         /\ SwiftClassmember.h_parameters h
            = [ {| SwiftClassmember.name := s "x";
                   SwiftClassmember.variable_name := s "x";
                   SwiftClassmember.type := s "Int";
                   SwiftClassmember.default := None |};
                {| SwiftClassmember.name := s "y";
                   SwiftClassmember.variable_name := s "label";
                   SwiftClassmember.type := s "String";
                   SwiftClassmember.default := Some ([dquote] ++ s "a" ++ [dquote]) |} ])
  /\ (exists h,
         SwiftClassmember.handle_signature no_container (s "function")
           (s "f(x: Dictionary<String, Int>, y: Bool)") = Ok h
         /\ SwiftClassmember.h_parameters h
            = [ {| SwiftClassmember.name := s "x";
                   SwiftClassmember.variable_name := s "x";
                   SwiftClassmember.type := s "Dictionary<String, Int>";
                   SwiftClassmember.default := None |};
                {| SwiftClassmember.name := s "y";
                   SwiftClassmember.variable_name := s "y";
                   SwiftClassmember.type := s "Bool";
                   SwiftClassmember.default := None |} ]).
Proof.
  split; [exact split_parameters_refines|].
  split.
  { intros text. unfold SwiftClassmember._parse_parameter_list.
    now rewrite split_parameters_refines. }
  split; [exact top_level_commas_spec|].
  split; [exact parse_parameter_ok|].
  split; eexists; (split; [vm_compute; reflexivity|reflexivity]).
Qed.

(** The chunk [y label: String = "a"] of the round trip example. *)
Lemma C2_parse_parameter_list_witness :
  exists p,
    SwiftClassmember.parse_parameter
      (s "y label" ++ ":"%char :: s " String = " ++ [dquote] ++ s "a" ++ [dquote]) = Ok p
    /\ SwiftClassmember.name p = s "y"
    /\ SwiftClassmember.variable_name p = s "label"
    /\ SwiftClassmember.type p = s "String"
    /\ SwiftClassmember.default p = Some ([dquote] ++ s "a" ++ [dquote]).
Proof.
  destruct (proj1 (proj2 (proj2 (proj2 C2_parse_parameter_list)))
              (s "y label") (s " String = " ++ [dquote] ++ s "a" ++ [dquote]))
    as (p & Hp & [_ Hn] & [_ Ht]).
  - vm_compute. intros H. repeat (destruct H as [H|H]; [discriminate|]). exact H.
  - exists p. split; [exact Hp|].
    destruct (Hn (s "y") (s "label")) as [-> ->].
    + reflexivity.
    + vm_compute. intros H. repeat (destruct H as [H|H]; [discriminate|]). exact H.
    + destruct (Ht (s "String ") (s " " ++ [dquote] ++ s "a" ++ [dquote])) as [-> ->].
      * reflexivity.
      * vm_compute. intros H. repeat (destruct H as [H|H]; [discriminate|]). exact H.
      * repeat split; reflexivity.
Defined.

(** C2 as the specification states it fails on a list with a function
    type.  The counters count characters, not pairs: the [>] of the arrow
    lowers the angle bracket counter to [-1], so that the comma at index
    17, after the function type, does not cut, and the comma at index 39,
    nested in [Dictionary<String, Int>] between the bracket at index 32
    and its match at index 44, where the counter reads zero again, does. *)
Lemma C2_counterexample :
  nth_error arrow_then_generic 39 = Some ","%char
  /\ nth_error arrow_then_generic 32 = Some "<"%char
  /\ matching_close (Py.enumerate_from 32 (Py.slice_from arrow_then_generic 32)) 0
     = Some 44
  /\ top_level_commas arrow_then_generic = [39%nat]
  /\ SwiftClassmember.split_parameters arrow_then_generic
     = [s "cb: (Int) -> Void, d: Dictionary<String"; s "Int>"].
Proof. repeat split; vm_compute; reflexivity. Qed.

(** ** The span of the method name

    [find] of one character. *)
Lemma find_from_absent (c : ascii) (x : str) (k : Z) :
  ~ In c x -> Py.find_from [c] x k = -1.
Proof.
  revert k. induction x as [|y x IH]; intros k H; [reflexivity|].
  cbn [Py.find_from]. rewrite startswith_char.
  destruct (Ascii.eqb c y) eqn:E.
  - apply Ascii.eqb_eq in E. subst. exfalso. apply H. now left.
  - apply IH. intros Hin. apply H. now right.
Qed.

Lemma find_from_first (c : ascii) (a b : str) (k : Z) :
  ~ In c a -> Py.find_from [c] (a ++ c :: b) k = k + len a.
Proof.
  revert k. induction a as [|y a IH]; intros k H.
  - cbn [app Py.find_from]. rewrite startswith_char, Ascii.eqb_refl.
    unfold len. simpl. lia.
  - cbn [app Py.find_from]. rewrite startswith_char.
    destruct (Ascii.eqb c y) eqn:E.
    + apply Ascii.eqb_eq in E. subst. exfalso. apply H. now left.
    + rewrite IH, len_cons; [lia|]. intros Hin. apply H. now right.
Qed.

Lemma find_absent (c : ascii) (x : str) : ~ In c x -> Py.find x [c] = -1.
Proof. apply find_from_absent. Qed.

Lemma find_first (c : ascii) (a b : str) :
  ~ In c a -> Py.find (a ++ c :: b) [c] = len a.
Proof. intros H. unfold Py.find. now rewrite find_from_first. Qed.

(** What [find] says about its argument. *)
Lemma find_cases (c : ascii) (x : str) :
  (~ In c x /\ Py.find x [c] = -1)
  \/ (exists a b, x = a ++ c :: b /\ ~ In c a /\ Py.find x [c] = len a).
Proof.
  destruct (in_dec ascii_dec c x) as [Hin|Hout].
  - right. destruct (first_occurrence _ _ Hin) as (a & b & -> & Ha).
    exists a, b. split; [reflexivity|]. split; [assumption|].
    now apply find_first.
  - left. split; [assumption|]. now apply find_absent.
Qed.

Lemma slice_prefix (a b : str) : Py.slice (a ++ b) 0 (len a) = a.
Proof.
  unfold Py.slice.
  assert (H : 0 <= len a <= len (a ++ b)).
  { rewrite len_app. pose proof (len_nonneg a). pose proof (len_nonneg b). lia. }
  rewrite !clamp_in_range by lia. rewrite Z.sub_0_r. simpl skipn.
  unfold len. rewrite Nat2Z.id, firstn_app, firstn_all, Nat.sub_diag.
  simpl. apply app_nil_r.
Qed.

(** The method name never keeps an opening angle bracket. *)
Lemma method_name_no_angle (sig : str) :
  ~ In "<"%char (SwiftClassmember.method_name sig).
Proof.
  unfold SwiftClassmember.method_name.
  set (m := Py.slice sig 0 (SwiftClassmember.split_point sig)).
  change (s "<") with ["<"%char].
  destruct (find_cases "<" m) as [[Hout ->]|(a & b & E & Ha & ->)].
  - exact Hout.
  - pose proof (len_nonneg a).
    destruct (0 <=? len a) eqn:Hle; [|apply Z.leb_gt in Hle; lia].
    rewrite E.
    replace (a ++ "<"%char :: b) with (a ++ ("<"%char :: b)) by reflexivity.
    now rewrite slice_to_app.
Qed.

Section Span.

Variables pre g post : str.

Hypothesis pre_angle : ~ In "<"%char pre.
Hypothesis pre_close : ~ In ">"%char pre.
Hypothesis pre_paren : ~ In "("%char pre.
Hypothesis g_close : ~ In ">"%char g.
Hypothesis has_paren : In "("%char (g ++ ">"%char :: post).

Let sig : str := pre ++ "<"%char :: g ++ ">"%char :: post.

Lemma span_first_angle : Py.find sig (s "<") = len pre.
Proof. unfold sig. change (s "<") with ["<"%char]. now apply find_first. Qed.

Lemma span_first_close : Py.find sig (s ">") = len pre + 1 + len g.
Proof.
  unfold sig. change (s ">") with [">"%char].
  replace (pre ++ "<"%char :: g ++ ">"%char :: post)
    with ((pre ++ "<"%char :: g) ++ ">"%char :: post)
    by (rewrite <- app_assoc; reflexivity).
  rewrite find_first.
  - rewrite len_app, len_cons. lia.
  - intros H. apply in_app_or in H. destruct H as [H|[H|H]];
      [now apply pre_close|discriminate|now apply g_close].
Qed.

Lemma span_first_paren : len pre < Py.find sig (s "(").
Proof.
  unfold sig. change (s "(") with ["("%char].
  destruct (first_occurrence _ _ has_paren) as (a & b & E & Ha).
  replace (pre ++ "<"%char :: g ++ ">"%char :: post)
    with ((pre ++ "<"%char :: a) ++ "("%char :: b)
    by (rewrite <- app_assoc; simpl; now rewrite <- E).
  rewrite find_first.
  - rewrite len_app, len_cons. pose proof (len_nonneg a). lia.
  - intros H. apply in_app_or in H. destruct H as [H|[H|H]];
      [now apply pre_paren|discriminate|now apply Ha].
Qed.

Lemma span_split_point :
  SwiftClassmember.split_point sig = len pre + len g + 2.
Proof.
  unfold SwiftClassmember.split_point.
  rewrite span_first_angle, span_first_close.
  pose proof span_first_paren as Hp. pose proof (len_nonneg pre) as Hn.
  destruct (0 <=? len pre) eqn:E1; [|apply Z.leb_gt in E1; lia].
  destruct (len pre <? Py.find sig (s "(")) eqn:E2; [|apply Z.ltb_ge in E2; lia].
  simpl. lia.
Qed.

Lemma span_decompose :
  sig = (pre ++ "<"%char :: g ++ [">"%char]) ++ post.
Proof. unfold sig. rewrite <- app_assoc. simpl. now rewrite <- app_assoc. Qed.

Lemma span_len : len (pre ++ "<"%char :: g ++ [">"%char]) = len pre + len g + 2.
Proof. rewrite len_app, len_cons, len_app. unfold len at 3. simpl. lia. Qed.

Lemma span_method_name : SwiftClassmember.method_name sig = pre.
Proof.
  unfold SwiftClassmember.method_name. cbv zeta. rewrite span_split_point.
  rewrite span_decompose. rewrite <- span_len, slice_prefix.
  change (s "<") with ["<"%char]. rewrite find_first by exact pre_angle.
  pose proof (len_nonneg pre).
  destruct (0 <=? len pre) eqn:E; [|apply Z.leb_gt in E; lia].
  now rewrite slice_to_app.
Qed.

Lemma span_generics :
  SwiftClassmember.generics sig = Some ("<"%char :: g ++ [">"%char]).
Proof.
  unfold SwiftClassmember.generics. rewrite span_first_angle.
  pose proof (len_nonneg pre).
  destruct (0 <=? len pre) eqn:E; [|apply Z.leb_gt in E; lia].
  unfold sig. rewrite !slice_from_app.
  change (s ">") with [">"%char].
  replace ("<"%char :: g ++ ">"%char :: post)
    with (("<"%char :: g) ++ ">"%char :: post) by reflexivity.
  rewrite find_first.
  - replace (len ("<"%char :: g) + 1) with (len (("<"%char :: g) ++ [">"%char]))
      by (rewrite len_app; reflexivity).
    replace (("<"%char :: g) ++ ">"%char :: post)
      with ((("<"%char :: g) ++ [">"%char]) ++ post)
      by (rewrite <- app_assoc; reflexivity).
    now rewrite slice_to_app.
  - intros [Hin|Hin]; [discriminate|now apply g_close].
Qed.

Lemma span_rest :
  Py.slice_from sig (SwiftClassmember.split_point sig) = post.
Proof.
  rewrite span_split_point, span_decompose, <- span_len. apply slice_from_app.
Qed.

End Span.

(** C4, as the code has it.  When a signature reads [pre<g>post] with no
    angle bracket or parenthesis in [pre], no closing angle bracket in [g]
    and a parenthesis after the opening angle bracket, the span of the
    method name ends just after the first closing angle bracket: the
    generic clause is [<g>], the method name is [pre] and the parameter
    list is looked for in [post].  Angle brackets nested in the clause are
    not matched.  The method name never keeps an opening angle bracket. *)
Theorem C4_method_name_span :
  forall pre g post : str,
    ~ In "<"%char pre -> ~ In ">"%char pre -> ~ In "("%char pre ->
    ~ In ">"%char g ->
    In "("%char (g ++ ">"%char :: post) ->
    let sig := pre ++ "<"%char :: g ++ ">"%char :: post in
    Py.find sig (s "<") < Py.find sig (s "(")
    /\ SwiftClassmember.split_point sig = Py.find sig (s ">") + 1
    /\ SwiftClassmember.split_point sig = len pre + len g + 2
    /\ SwiftClassmember.generics sig = Some ("<"%char :: g ++ [">"%char])
    /\ SwiftClassmember.method_name sig = pre
    /\ Py.slice_from sig (SwiftClassmember.split_point sig) = post
    /\ (forall any : str, ~ In "<"%char (SwiftClassmember.method_name any)).
Proof.
  intros pre g post H1 H2 H3 H4 H5 sig. unfold sig.
  split.
  { rewrite span_first_angle by assumption. now apply span_first_paren. }
  split.
  { rewrite span_split_point, span_first_close by assumption. lia. }
  split; [now apply span_split_point|].
  split; [now apply span_generics|].
  split; [now apply span_method_name|].
  split; [now apply span_rest|].
  exact method_name_no_angle.
Qed.

(** [foo<T>(x: T)]: the span ends after [<T>]. *)
Lemma C4_method_name_span_witness :
  SwiftClassmember.generics (s "foo<T>(x: T)") = Some (s "<T>")
  /\ SwiftClassmember.method_name (s "foo<T>(x: T)") = s "foo"
  /\ Py.slice_from (s "foo<T>(x: T)")
       (SwiftClassmember.split_point (s "foo<T>(x: T)")) = s "(x: T)".
Proof.
  assert (Hno : forall (c : ascii) (x : str),
             forallb (fun y => negb (Ascii.eqb y c)) x = true -> ~ In c x).
  { intros c x H Hin. rewrite forallb_forall in H. specialize (H c Hin).
    now rewrite Ascii.eqb_refl in H. }
  destruct (C4_method_name_span (s "foo") (s "T") (s "(x: T)"))
    as (_ & _ & _ & Hg & Hm & Hr & _).
  - apply Hno. reflexivity.
  - apply Hno. reflexivity.
  - apply Hno. reflexivity.
  - apply Hno. reflexivity.
  - right. right. now left.
  - repeat split; assumption.
Defined.

(** C4 as the specification states it fails on a generic clause with
    nested angle brackets.  In [foo<T: Array<Int>>(x: T)] the opening angle
    bracket at index 3 comes before the parenthesis at index 18 and is
    matched by the closing one at index 17, but the span ends at 17, after
    the first closing angle bracket at index 16: the generic clause is
    [<T: Array<Int>], the rest starts with [>] and the parameter is lost. *)
Lemma C4_counterexample :
  Py.find nested_generics_signature (s "<") = 3
  /\ Py.find nested_generics_signature (s "(") = 18
  /\ matching_angle nested_generics_signature = Some 17
  /\ SwiftClassmember.split_point nested_generics_signature = 17
  /\ SwiftClassmember.split_point nested_generics_signature <> 17 + 1
  /\ SwiftClassmember.generics nested_generics_signature = Some (s "<T: Array<Int>")
  /\ SwiftClassmember.generics nested_generics_signature
     <> Some (Py.slice nested_generics_signature 3 (17 + 1))
  /\ exists h,
      SwiftClassmember.handle_signature no_container (s "function")
                                        nested_generics_signature = Ok h
      /\ SwiftClassmember.h_parameters h = []
      /\ SwiftClassmember.h_signature h = s "foo()".
Proof.
  repeat split; try (vm_compute; congruence).
  eexists. split; [vm_compute; reflexivity|]. split; reflexivity.
Qed.

(** ** Class-like declarations

    Indexing a list that is long enough does not raise. *)
Lemma index_0 {A : Type} (a : A) (l : list A) : Py.index (a :: l) 0 = Ok a.
Proof. reflexivity. Qed.

Lemma index_1 {A : Type} (a b : A) (l : list A) : Py.index (a :: b :: l) 1 = Ok b.
Proof. reflexivity. Qed.

Lemma index_last {A : Type} (l : list A) :
  l <> [] -> exists a, Py.index l (-1) = Ok a.
Proof.
  intros H. unfold Py.index. cbn [Z.ltb Z.compare].
  assert (Hl : 1 <= len l).
  { destruct l; [contradiction|]. rewrite len_cons. pose proof (len_nonneg l). lia. }
  destruct (len l + -1 <? 0) eqn:E; [apply Z.ltb_lt in E; lia|].
  destruct (nth_error l (Z.to_nat (len l + -1))) as [a|] eqn:En.
  - now exists a.
  - apply nth_error_None in En. unfold len in *. lia.
Qed.

Lemma split1_shape (sep : ascii) (x : str) :
  (exists a, Py.split1 x sep = [a]) \/ (exists a b, Py.split1 x sep = [a; b]).
Proof.
  destruct (in_dec ascii_dec sep x) as [Hin|Hout].
  - right. destruct (first_occurrence _ _ Hin) as (a & b & -> & Ha).
    exists a, b. now apply split1_at.
  - left. exists x. now apply split1_absent.
Qed.

Lemma split_cons_shape (sep : ascii) (x : str) :
  exists a r, Py.split x sep = a :: r.
Proof.
  induction x as [|c x (a & r & IH)]; simpl.
  - now exists [], [].
  - destruct (Ascii.eqb c sep); [now exists [], (Py.split x sep)|].
    rewrite IH. now exists (c :: a), r.
Qed.

Lemma split_length (sep : ascii) (x : str) :
  len (Py.split x sep) = Py.count sep x + 1.
Proof.
  unfold Py.count. induction x as [|c x IH]; [reflexivity|]. simpl.
  rewrite (Ascii.eqb_sym sep c).
  destruct (Ascii.eqb c sep).
  - rewrite !len_cons, IH. reflexivity.
  - destruct (split_cons_shape sep x) as (a & r & E). rewrite E in *.
    rewrite len_cons in *. exact IH.
Qed.

Lemma contains_count (c : ascii) (x : str) :
  Py.contains c x = (1 <=? Py.count c x).
Proof.
  unfold Py.contains, Py.count. induction x as [|y x IH]; [reflexivity|].
  simpl. destruct (Ascii.eqb c y).
  - rewrite len_cons. pose proof (len_nonneg (filter (Ascii.eqb c) x)).
    symmetry. apply Z.leb_le. lia.
  - exact IH.
Qed.

Lemma pop_cons {A : Type} (a : A) (l : list A) :
  exists b r, SwiftClass.pop (a :: l) = Ok (b, r) /\ len r = len l.
Proof.
  unfold SwiftClass.pop.
  destruct (rev (a :: l)) as [|b r] eqn:E.
  - apply (f_equal (@List.length A)) in E. rewrite length_rev in E. discriminate.
  - exists b, (rev r). split; [reflexivity|].
    apply (f_equal (@List.length A)) in E. rewrite length_rev in E.
    unfold len. rewrite length_rev. simpl in E. lia.
Qed.

Ltac bind_ok H :=
  match type of H with
  | bind ?c _ = Ok _ =>
      let E := fresh "E" in
      destruct c eqn:E; [cbn [bind] in H|discriminate H]
  end.

Lemma class_add_to_index (temp : temp_data) (objtype sig : str) (h : SwiftClass.handled) :
  SwiftClass.handle_signature temp objtype sig = Ok h ->
  SwiftClass.add_to_index h
  = negb (Py.str_eqb objtype (s "extension") && no_super_types h)
  /\ snd (SwiftClass.returned h) = SwiftClass.add_to_index h.
Proof.
  unfold SwiftClass.handle_signature.
  set (ext := Py.str_eqb objtype (s "extension")). intros H.
  repeat bind_ok H. injection H as <-.
  unfold no_super_types. cbn [SwiftClass.super_classes SwiftClass.add_to_index
                                SwiftClass.returned snd].
  split; [|reflexivity].
  destruct ext; [|reflexivity].
  match goal with
  | |- context [fst ?x] => destruct (fst x) as [[|c cs]|]; reflexivity
  end.
Qed.

(** [name_where] gives back [parts] or [parts] without its last item. *)
Lemma name_where_parts (class_name : str) (parts : list str)
      (found : option str * str * list str) :
  SwiftClass.name_where class_name parts = Ok found ->
  len (snd found) <= len parts.
Proof.
  unfold SwiftClass.name_where.
  destruct (if Py.contains " " class_name
            then Some (Py.split class_name " ")
            else if Py.contains (ascii_of_nat 9) class_name
                 then Some (Py.split class_name (ascii_of_nat 9))
                 else None) as [[|p0 ps]|];
    try (intros H; injection H as <-; cbn [snd]; lia).
  destruct (SwiftClass.where_index _) as [index|];
    [|intros H; injection H as <-; cbn [snd]; lia].
  intros H. bind_ok H. injection H as <-. cbn [snd].
  destruct parts as [|x l]; [discriminate|].
  destruct (pop_cons x l) as (b & r & Hp & Hr).
  match goal with
  | Hq : SwiftClass.pop _ = Ok _ |- _ => rewrite Hp in Hq; injection Hq as <-
  end.
  cbn [snd]. rewrite Hr, len_cons. lia.
Qed.

Lemma name_where_returns (class_name : str) (parts : list str) :
  parts <> [] -> returns (SwiftClass.name_where class_name parts) = true.
Proof.
  intros Hne. unfold SwiftClass.name_where.
  destruct (if Py.contains " " class_name
            then Some (Py.split class_name " ")
            else if Py.contains (ascii_of_nat 9) class_name
                 then Some (Py.split class_name (ascii_of_nat 9))
                 else None) as [[|p0 ps]|]; try reflexivity.
  destruct (SwiftClass.where_index _) as [index|]; [|reflexivity].
  destruct parts as [|a l]; [contradiction|].
  destruct (pop_cons a l) as (b & r & -> & _). reflexivity.
Qed.

Lemma last_segment_returns (class_name : str) :
  returns (SwiftClass.last_segment class_name) = true.
Proof.
  unfold SwiftClass.last_segment.
  destruct (negb (Py.count "." class_name =? 0)); [|reflexivity].
  destruct (split_cons_shape "." class_name) as (a & r & E).
  destruct (index_last (Py.split class_name ".")) as (x & ->); [|reflexivity].
  rewrite E. discriminate.
Qed.

Lemma split_supers_returns (parts : list str) (tc : option str) :
  returns (SwiftClass.split_supers parts tc) = true.
Proof.
  unfold SwiftClass.split_supers.
  destruct (1 <? len parts) eqn:E; [|reflexivity].
  destruct parts as [|a [|b l]]; [discriminate E|discriminate E|].
  rewrite index_1. cbn [bind].
  now destruct (SwiftClass.where_index _).
Qed.

Lemma split_supers_short (parts : list str) (tc : option str)
      (supers : option (list str) * option str) :
  len parts <= 1 ->
  SwiftClass.split_supers parts tc = Ok supers -> fst supers = None.
Proof.
  intros Hl. unfold SwiftClass.split_supers.
  destruct (1 <? len parts) eqn:E; [apply Z.ltb_lt in E; lia|].
  intros H. now injection H as <-.
Qed.

(** The generic type attachment is unpacked when the head has at most one
    opening angle bracket, and raises otherwise. *)
Lemma split_generic_returns (parts0 : str) :
  returns (SwiftClass.split_generic parts0) = (Py.count "<" parts0 <=? 1).
Proof.
  unfold SwiftClass.split_generic. rewrite contains_count.
  pose proof (split_length "<" parts0) as Hl.
  destruct (1 <=? Py.count "<" parts0) eqn:E.
  - apply Z.leb_le in E.
    destruct (Py.split parts0 "<") as [|x [|y [|z l]]];
      rewrite ?len_cons in Hl; unfold len in Hl; simpl in Hl.
    + lia.
    + lia.
    + simpl. symmetry. apply Z.leb_le. lia.
    + simpl. symmetry. apply Z.leb_gt. lia.
  - apply Z.leb_gt in E. simpl. symmetry. apply Z.leb_le. lia.
Qed.

Lemma class_no_colon (temp : temp_data) (objtype sig : str) (h : SwiftClass.handled) :
  ~ In ":"%char sig ->
  SwiftClass.handle_signature temp objtype sig = Ok h ->
  SwiftClass.super_classes h = None.
Proof.
  intros Hno. unfold SwiftClass.handle_signature.
  rewrite split1_absent by assumption. cbn [map].
  intros H. repeat bind_ok H. injection H as <-.
  cbn [SwiftClass.super_classes].
  match goal with
  | Hw : SwiftClass.name_where _ _ = Ok _,
    Hs : SwiftClass.split_supers _ _ = Ok _ |- _ =>
      apply name_where_parts in Hw;
      apply (split_supers_short _ _ _ Hw) in Hs; exact Hs
  end.
Qed.

(** The class-like parse returns exactly when the head has at most one
    opening angle bracket. *)
Lemma class_returns (temp : temp_data) (objtype sig : str) :
  returns (SwiftClass.handle_signature temp objtype sig)
  = (Py.count "<" (class_head sig) <=? 1).
Proof.
  unfold SwiftClass.handle_signature, class_head.
  assert (Hp : exists a l, Py.split1 sig ":" = a :: l).
  { destruct (split1_shape ":" sig) as [(a & ->)|(a & b & ->)]; eauto. }
  destruct Hp as (a & l & ->). cbn [map hd]. rewrite index_0. cbn [bind].
  rewrite <- split_generic_returns.
  destruct (SwiftClass.split_generic (Py.strip a)) as [head|e]; [|reflexivity].
  cbn [bind returns].
  pose proof (name_where_returns (fst head) (Py.strip a :: map Py.strip l)) as Hw.
  destruct (SwiftClass.name_where _ _) as [found|e]; [|now discriminate Hw].
  cbn [bind].
  pose proof (last_segment_returns (snd (fst found))) as Hs.
  destruct (SwiftClass.last_segment _) as [cn|e]; [|discriminate Hs].
  cbn [bind].
  pose proof (split_supers_returns (snd found) (fst (fst found))) as Hu.
  destruct (SwiftClass.split_supers _ _) as [supers|e]; [|discriminate Hu].
  reflexivity.
Qed.

(** C7. A class-like parse leaves an [extension] whose list of super types
    is empty out of the index, and indexes an extension with a super type
    and every declaration of another kind; a signature without a colon has
    no super types.  [extension Foo] is not indexed, [extension Foo: Bar]
    is. *)
Theorem C7_extension_indexing :
  (forall (temp : temp_data) (objtype sig : str) (h : SwiftClass.handled),
      SwiftClass.handle_signature temp objtype sig = Ok h ->
      (objtype = s "extension" -> no_super_types h = true ->
       SwiftClass.add_to_index h = false)
      /\ (no_super_types h = false -> SwiftClass.add_to_index h = true)
      /\ (objtype <> s "extension" -> SwiftClass.add_to_index h = true)
      /\ (~ In ":"%char sig -> SwiftClass.super_classes h = None)
      /\ snd (SwiftClass.returned h) = SwiftClass.add_to_index h)
  /\ (exists h,
         SwiftClass.handle_signature no_container (s "extension") (s "Foo") = Ok h
         /\ SwiftClass.super_classes h = None
         /\ SwiftClass.add_to_index h = false)
  /\ (exists h,
         SwiftClass.handle_signature no_container (s "extension") (s "Foo: Bar") = Ok h
         /\ SwiftClass.super_classes h = Some [s "Bar"]
         /\ SwiftClass.add_to_index h = true).
Proof.
  split.
  - intros temp objtype sig h H.
    destruct (class_add_to_index _ _ _ _ H) as [Ha Hr].
    repeat split.
    + intros -> Hs. rewrite Ha, Hs. reflexivity.
    + intros Hs. rewrite Ha, Hs, andb_false_r. reflexivity.
    + intros Hne. rewrite Ha. apply str_eqb_neq in Hne. now rewrite Hne.
    + intros Hno. exact (class_no_colon _ _ _ _ Hno H).
    + exact Hr.
  - split; eexists; (split; [vm_compute; reflexivity|split; reflexivity]).
Qed.

(** [protocol Foo] is indexed, whatever its super types. *)
Lemma C7_extension_indexing_witness :
  exists h,
    SwiftClass.handle_signature no_container (s "protocol") (s "Foo") = Ok h
    /\ SwiftClass.add_to_index h = true
    /\ SwiftClass.super_classes h = None.
Proof.
  destruct (SwiftClass.handle_signature no_container (s "protocol") (s "Foo"))
    as [h|e] eqn:E; [|vm_compute in E; discriminate E].
  exists h. split; [reflexivity|].
  destruct (proj1 C7_extension_indexing _ _ _ _ E) as (_ & _ & Hk & Hc & _).
  split.
  - apply Hk. vm_compute. discriminate.
  - apply Hc. vm_compute. intros H.
    repeat (destruct H as [H|H]; [discriminate H|]). exact H.
Defined.

(** C3, what the code does on the example of the specification.  The list
    of super types is cut at commas only and an item is compared with the
    word [where] as a whole, so the [where] clause of
    [MyClass<T>: Base, Proto where T: Equatable] stays inside the second
    super type and no type constraint is recorded. *)
Theorem C3_where_in_super_types :
  exists h,
    SwiftClass.handle_signature no_container (s "class") where_signature = Ok h
    /\ SwiftClass.class_name h = s "MyClass"
    /\ SwiftClass.generic_type h = Some (s "T")
    /\ SwiftClass.super_classes h = Some [s "Base"; s "Proto where T: Equatable"]
    /\ SwiftClass.type_constraint h = None.
Proof.
  eexists. split; [vm_compute; reflexivity|]. repeat split.
Qed.

(** ** Cross references

    One mark or wrapper is taken off the target. *)
Lemma endswith_snoc (t : str) (c : ascii) : Py.endswith (t ++ [c]) [c] = true.
Proof.
  unfold Py.endswith. rewrite rev_app_distr. cbn [rev app].
  now rewrite startswith_char, Ascii.eqb_refl.
Qed.

Lemma endswith_snoc_other (t : str) (c d : ascii) :
  Ascii.eqb d c = false -> Py.endswith (t ++ [c]) [d] = false.
Proof.
  intros H. unfold Py.endswith. rewrite rev_app_distr. cbn [rev app].
  now rewrite startswith_char.
Qed.

Lemma slice_to_drop_last (t : str) (c : ascii) : Py.slice_to (t ++ [c]) (-1) = t.
Proof.
  unfold Py.slice_to, Py.clamp. cbn [Z.ltb Z.compare].
  rewrite len_app. unfold len at 2. cbn [List.length Z.of_nat Pos.of_succ_nat].
  pose proof (len_nonneg t).
  replace (Z.max 0 (len t + 1 + -1)) with (len t) by lia.
  unfold len. rewrite Nat2Z.id, firstn_app, firstn_all, Nat.sub_diag.
  simpl. apply app_nil_r.
Qed.

Lemma slice_inside (t : str) (a c : ascii) :
  Py.slice (a :: t ++ [c]) 1 (-1) = t.
Proof.
  unfold Py.slice.
  assert (Hn : len (a :: t ++ [c]) = len t + 2).
  { rewrite len_cons, len_app. unfold len at 2. simpl. lia. }
  pose proof (len_nonneg t) as Ht.
  assert (Hlo : Py.clamp (len (a :: t ++ [c])) 1 = 1).
  { rewrite Hn. unfold Py.clamp. cbn [Z.ltb Z.compare]. lia. }
  assert (Hhi : Py.clamp (len (a :: t ++ [c])) (-1) = len t + 1).
  { rewrite Hn. unfold Py.clamp. cbn [Z.ltb Z.compare]. lia. }
  rewrite Hlo, Hhi. replace (len t + 1 - 1) with (len t) by lia.
  change (Z.to_nat 1) with 1%nat. cbn [skipn].
  unfold len. rewrite Nat2Z.id, firstn_app, firstn_all, Nat.sub_diag.
  simpl. apply app_nil_r.
Qed.

Lemma strip_sigil_optional (t : str) :
  SwiftDomain.strip_sigil (t ++ s "?") = t.
Proof.
  unfold SwiftDomain.strip_sigil. change (s "?") with ["?"%char].
  rewrite endswith_snoc. cbn [orb]. apply slice_to_drop_last.
Qed.

Lemma strip_sigil_unwrapped (t : str) :
  SwiftDomain.strip_sigil (t ++ s "!") = t.
Proof.
  unfold SwiftDomain.strip_sigil. change (s "!") with ["!"%char].
  rewrite endswith_snoc, orb_true_r. apply slice_to_drop_last.
Qed.

Lemma strip_sigil_array (t : str) :
  SwiftDomain.strip_sigil (s "[" ++ t ++ s "]") = t.
Proof.
  unfold SwiftDomain.strip_sigil.
  change (s "[" ++ t ++ s "]") with ("["%char :: t ++ ["]"%char]).
  change (s "?") with ["?"%char]. change (s "!") with ["!"%char].
  change (s "]") with ["]"%char]. change (s "[") with ["["%char].
  assert (H1 : Py.endswith ("["%char :: t ++ ["]"%char]) ["?"%char] = false)
    by now apply (endswith_snoc_other ("["%char :: t)).
  assert (H2 : Py.endswith ("["%char :: t ++ ["]"%char]) ["!"%char] = false)
    by now apply (endswith_snoc_other ("["%char :: t)).
  assert (H3 : Py.endswith ("["%char :: t ++ ["]"%char]) ["]"%char] = true)
    by apply (endswith_snoc ("["%char :: t)).
  rewrite H1, H2, H3, startswith_char. cbn [orb andb Ascii.eqb Bool.eqb].
  apply slice_inside.
Qed.

Lemma resolve_array (objects : objects_table) (fromdocname t : str) :
  SwiftDomain.strip_sigil t = t ->
  SwiftDomain.resolve_xref objects fromdocname (s "[" ++ t ++ s "]")
  = SwiftDomain.resolve_xref objects fromdocname t.
Proof.
  intros H. unfold SwiftDomain.resolve_xref, SwiftDomain.test_target.
  now rewrite strip_sigil_array, H.
Qed.

(** The loop over the objects stops at the first key made of a kind and
    the target. *)
Lemma some_type_matches_spec (types : list str) (refname tt : str) :
  SwiftDomain.some_type_matches types refname tt = true
  <-> exists to, In to types /\ refname = to ++ s " " ++ tt.
Proof.
  induction types as [|t types IH]; cbn [SwiftDomain.some_type_matches In].
  - split; [discriminate|]. now intros (to & [] & _).
  - destruct (Py.str_eqb refname (t ++ s " " ++ tt)) eqn:E.
    + apply str_eqb_eq in E. split; [|reflexivity]. intros _.
      exists t. split; [now left|assumption].
    + apply str_eqb_neq in E. rewrite IH. split.
      * intros (to & Hin & Hk). exists to. split; [now right|assumption].
      * intros (to & [->|Hin] & Hk); [contradiction|]. now exists to.
Qed.

Lemma kind_key_dec (refname tt : str) :
  SwiftDomain.some_type_matches type_order refname tt = true <-> kind_key refname tt.
Proof. apply some_type_matches_spec. Qed.

Lemma lookup_none (objects : objects_table) (fromdocname tt : str) :
  SwiftDomain.lookup objects fromdocname tt = None
  <-> forall o, In o objects -> ~ kind_key (fst o) tt.
Proof.
  induction objects as [|[refname [[docname typ] signature]] objects IH];
    cbn [SwiftDomain.lookup In].
  - split; [intros _ o []|reflexivity].
  - destruct (SwiftDomain.some_type_matches type_order refname tt) eqn:E.
    + split; [discriminate|]. intros H. exfalso.
      apply (H (refname, (docname, typ, signature))); [now left|].
      now apply kind_key_dec.
    + rewrite IH. split.
      * intros H o [<-|Hin]; [|now apply H].
        cbn [fst]. rewrite <- kind_key_dec, E. discriminate.
      * intros H o Hin. apply H. now right.
Qed.

Lemma lookup_some (objects : objects_table) (fromdocname tt : str) (n : SwiftDomain.xref) :
  SwiftDomain.lookup objects fromdocname tt = Some n
  <-> exists before refname docname typ signature after,
        objects = before ++ (refname, (docname, typ, signature)) :: after
        /\ (forall o, In o before -> ~ kind_key (fst o) tt)
        /\ kind_key refname tt
        /\ n = SwiftDomain.make_refnode fromdocname docname signature tt.
Proof.
  induction objects as [|[refname [[docname typ] signature]] objects IH];
    cbn [SwiftDomain.lookup].
  - split; [discriminate|]. intros (b & r & d & ty & sg & a & E & _).
    now destruct b.
  - destruct (SwiftDomain.some_type_matches type_order refname tt) eqn:E.
    + apply kind_key_dec in E. split.
      * intros H. injection H as <-.
        exists [], refname, docname, typ, signature, objects.
        repeat split; [intros o []|assumption].
      * intros (b & r & d & ty & sg & a & Eo & Hb & Hk & ->).
        destruct b as [|o b].
        -- now injection Eo as -> -> -> ->.
        -- injection Eo as <- _. exfalso.
           apply (Hb (refname, (docname, typ, signature))); [now left|assumption].
    + rewrite IH. split.
      * intros (b & r & d & ty & sg & a & -> & Hb & Hk & ->).
        exists ((refname, (docname, typ, signature)) :: b), r, d, ty, sg, a.
        repeat split; [|assumption].
        intros o [<-|Hin]; [|now apply Hb].
        cbn [fst]. rewrite <- kind_key_dec, E. discriminate.
      * intros (b & r & d & ty & sg & a & Eo & Hb & Hk & ->).
        destruct b as [|o b].
        -- injection Eo as -> -> -> ->. apply kind_key_dec in Hk. congruence.
        -- injection Eo as <- ->. exists b, r, d, ty, sg, a.
           repeat split; [|assumption]. intros o Hin. apply Hb. now right.
Qed.

(** A key that spells the dotted target out is never the one found. *)
Lemma literal_key_no_match (refname : str) :
  kind_key refname (s "Foo.Bar") ->
  ~ kind_key refname (SwiftDomain.test_target (s "Foo.Bar")).
Proof.
  intros (to & Hin & ->) Hk. apply kind_key_dec in Hk.
  unfold type_order in Hin.
  repeat (destruct Hin as [<-|Hin]; [vm_compute in Hk; discriminate Hk|]).
  contradiction.
Qed.

Lemma literal_never_found (objects : objects_table) (fromdocname : str) :
  (forall o, In o objects -> kind_key (fst o) (s "Foo.Bar")) ->
  SwiftDomain.resolve_xref objects fromdocname (s "Foo.Bar") = None.
Proof.
  intros H. unfold SwiftDomain.resolve_xref.
  assert (E : SwiftDomain.lookup objects fromdocname
                (SwiftDomain.test_target (s "Foo.Bar")) = None).
  { apply lookup_none. intros o Hin. apply literal_key_no_match. now apply H. }
  rewrite E. reflexivity.
Qed.

Lemma resolve_refnode (objects : objects_table) (fromdocname target : str)
      (f d sg title : str) :
  SwiftDomain.resolve_xref objects fromdocname target
  = Some (SwiftDomain.make_refnode f d sg title)
  <-> exists before refname typ after,
        objects = before ++ (refname, (d, typ, sg)) :: after
        /\ (forall o, In o before ->
                      ~ kind_key (fst o) (SwiftDomain.test_target target))
        /\ kind_key refname (SwiftDomain.test_target target)
        /\ f = fromdocname
        /\ title = SwiftDomain.test_target target.
Proof.
  unfold SwiftDomain.resolve_xref.
  destruct (SwiftDomain.lookup objects fromdocname (SwiftDomain.test_target target))
    as [n|] eqn:E.
  - split.
    + intros H. injection H as ->. apply lookup_some in E.
      destruct E as (b & r & d' & ty & sg' & a & -> & Hb & Hk & Hn).
      injection Hn as -> -> -> ->. exists b, r, ty, a. repeat split; assumption.
    + intros (b & r & ty & a & Ho & Hb & Hk & -> & ->). f_equal.
      assert (E' : SwiftDomain.lookup objects fromdocname (SwiftDomain.test_target target)
                   = Some (SwiftDomain.make_refnode fromdocname d sg
                             (SwiftDomain.test_target target))).
      { apply lookup_some. exists b, r, d, ty, sg, a. repeat split; assumption. }
      congruence.
  - split.
    + destruct (existsb _ _); discriminate.
    + intros (b & r & ty & a & -> & Hb & Hk & _). exfalso.
      rewrite lookup_none in E.
      apply (E (r, (d, ty, sg))); [|exact Hk].
      apply in_or_app. right. now left.
Qed.

(** The last character of a text, and a text between square brackets. *)
Lemma endswith_char (t : str) (c : ascii) :
  Py.endswith t [c] = true -> exists u, t = u ++ [c].
Proof.
  unfold Py.endswith. cbn [rev app]. intros H.
  destruct (rev t) as [|x r] eqn:E; [discriminate H|].
  rewrite startswith_char in H. apply Ascii.eqb_eq in H. subst x.
  exists (rev r). rewrite <- (rev_involutive t), E. reflexivity.
Qed.

Lemma wrapped (t : str) :
  Py.startswith t (s "[") && Py.endswith t (s "]") = true ->
  exists u, t = s "[" ++ u ++ s "]".
Proof.
  intros H. apply andb_true_iff in H. destruct H as [Hs He].
  apply endswith_char in He. destruct He as (v & ->).
  destruct v as [|x v]; [discriminate Hs|].
  cbn [app] in Hs. change (s "[") with ["["%char] in Hs.
  rewrite startswith_char in Hs. apply Ascii.eqb_eq in Hs. subst x.
  now exists v.
Qed.

(** A target without mark and wrapper is looked up as it is. *)
Lemma strip_sigil_unmarked (t : str) :
  unmarked t -> SwiftDomain.strip_sigil t = t.
Proof.
  intros (Hq & He & Hw). unfold SwiftDomain.strip_sigil.
  destruct (Py.endswith t (s "?")) eqn:Eq.
  { apply endswith_char in Eq. destruct Eq as (u & E). now apply Hq in E. }
  destruct (Py.endswith t (s "!")) eqn:Ee.
  { apply endswith_char in Ee. destruct Ee as (u & E). now apply He in E. }
  cbn [orb].
  destruct (Py.startswith t (s "[") && Py.endswith t (s "]")) eqn:Ew;
    [|reflexivity].
  apply wrapped in Ew. destruct Ew as (u & E). now apply Hw in E.
Qed.

(** The text a target without a dot is matched on. *)
Lemma test_target_plain (t : str) :
  ~ In "."%char t -> unmarked t -> SwiftDomain.test_target t = t.
Proof.
  intros Hd Hu. unfold SwiftDomain.test_target.
  rewrite (strip_sigil_unmarked _ Hu).
  change (s ".") with ["."%char]. now rewrite find_absent.
Qed.

Lemma test_target_optional (u : str) :
  ~ In "."%char u -> SwiftDomain.test_target (u ++ s "?") = u.
Proof.
  intros Hd. unfold SwiftDomain.test_target. rewrite strip_sigil_optional.
  change (s ".") with ["."%char]. now rewrite find_absent.
Qed.

Lemma test_target_unwrapped (u : str) :
  ~ In "."%char u -> SwiftDomain.test_target (u ++ s "!") = u.
Proof.
  intros Hd. unfold SwiftDomain.test_target. rewrite strip_sigil_unwrapped.
  change (s ".") with ["."%char]. now rewrite find_absent.
Qed.

Lemma test_target_array (u : str) :
  ~ In "."%char u -> SwiftDomain.test_target (s "[" ++ u ++ s "]") = u.
Proof.
  intros Hd. unfold SwiftDomain.test_target. rewrite strip_sigil_array.
  change (s ".") with ["."%char]. now rewrite find_absent.
Qed.

Lemma resolves_on_test_target (objects : objects_table) (fromdocname target : str) :
  resolves_on objects fromdocname target (SwiftDomain.test_target target).
Proof. intros f d sg title. apply resolve_refnode. Qed.

(** A mark at the end of a target that carries no other one changes
    nothing of what is found. *)
Lemma resolve_marked (objects : objects_table) (fromdocname t : str) :
  unmarked t ->
  SwiftDomain.resolve_xref objects fromdocname (t ++ s "?")
  = SwiftDomain.resolve_xref objects fromdocname t
  /\ SwiftDomain.resolve_xref objects fromdocname (t ++ s "!")
     = SwiftDomain.resolve_xref objects fromdocname t
  /\ SwiftDomain.resolve_xref objects fromdocname (s "[" ++ t ++ s "]")
     = SwiftDomain.resolve_xref objects fromdocname t.
Proof.
  intros Hu. pose proof (strip_sigil_unmarked _ Hu) as H.
  unfold SwiftDomain.resolve_xref, SwiftDomain.test_target.
  now rewrite strip_sigil_optional, strip_sigil_unwrapped, strip_sigil_array, H.
Qed.

(** C5, as the code has it.  The lookup takes one mark [?] or [!] off the
    end of the target, or else one array wrapper, before it matches: a
    target with a mark or in a wrapper resolves as the target without it
    does, so [[Int]] resolves as [Int] does, and only one is taken off.
    For a target that is left without a dot, it returns the first entry,
    in the order of the table, whose key is the name of one of the kinds
    class, struct, enum, protocol, extension, a space and the text that is
    left; and a key that spells out [Foo.Bar] after the kind is never what
    [Foo.Bar] finds. *)
Theorem C5_lookup_by_reference_target :
  (forall t : str,
      SwiftDomain.strip_sigil (t ++ s "?") = t
      /\ SwiftDomain.strip_sigil (t ++ s "!") = t
      /\ SwiftDomain.strip_sigil (s "[" ++ t ++ s "]") = t)
  /\ (forall (objects : objects_table) (fromdocname : str),
         SwiftDomain.resolve_xref objects fromdocname (s "[Int]")
         = SwiftDomain.resolve_xref objects fromdocname (s "Int"))
  /\ (forall (objects : objects_table) (fromdocname t : str),
         SwiftDomain.strip_sigil t = t ->
         SwiftDomain.resolve_xref objects fromdocname (s "[" ++ t ++ s "]")
         = SwiftDomain.resolve_xref objects fromdocname t)
  /\ (forall (objects : objects_table) (fromdocname t : str),
         unmarked t ->
         SwiftDomain.resolve_xref objects fromdocname (t ++ s "?")
         = SwiftDomain.resolve_xref objects fromdocname t
         /\ SwiftDomain.resolve_xref objects fromdocname (t ++ s "!")
            = SwiftDomain.resolve_xref objects fromdocname t
         /\ SwiftDomain.resolve_xref objects fromdocname (s "[" ++ t ++ s "]")
            = SwiftDomain.resolve_xref objects fromdocname t)
  /\ (forall (objects : objects_table) (fromdocname t : str),
         ~ In "."%char t -> unmarked t ->
         resolves_on objects fromdocname t t)
  /\ (forall (objects : objects_table) (fromdocname u : str),
         ~ In "."%char u ->
         resolves_on objects fromdocname (u ++ s "?") u
         /\ resolves_on objects fromdocname (u ++ s "!") u
         /\ resolves_on objects fromdocname (s "[" ++ u ++ s "]") u)
  /\ (forall (objects : objects_table) (fromdocname target f d sg title : str),
         SwiftDomain.resolve_xref objects fromdocname target
         = Some (SwiftDomain.make_refnode f d sg title)
         <-> exists before refname typ after,
               objects = before ++ (refname, (d, typ, sg)) :: after
               /\ (forall o, In o before ->
                             ~ kind_key (fst o) (SwiftDomain.test_target target))
               /\ kind_key refname (SwiftDomain.test_target target)
               /\ f = fromdocname
               /\ title = SwiftDomain.test_target target)
  /\ (forall (objects : objects_table) (fromdocname : str),
         (forall o, In o objects -> kind_key (fst o) (s "Foo.Bar")) ->
         SwiftDomain.resolve_xref objects fromdocname (s "Foo.Bar") = None).
Proof.
  split.
  { intros t. split; [apply strip_sigil_optional|].
    split; [apply strip_sigil_unwrapped|apply strip_sigil_array]. }
  split.
  { intros objects fromdocname. now apply (resolve_array objects fromdocname (s "Int")). }
  split; [exact resolve_array|].
  split; [exact resolve_marked|].
  split.
  { intros objects fromdocname t Hd Hu.
    pose proof (resolves_on_test_target objects fromdocname t) as H.
    now rewrite test_target_plain in H. }
  split.
  { intros objects fromdocname u Hd.
    pose proof (resolves_on_test_target objects fromdocname (u ++ s "?")) as H1.
    pose proof (resolves_on_test_target objects fromdocname (u ++ s "!")) as H2.
    pose proof (resolves_on_test_target objects fromdocname (s "[" ++ u ++ s "]")) as H3.
    rewrite test_target_optional in H1 by assumption.
    rewrite test_target_unwrapped in H2 by assumption.
    rewrite test_target_array in H3 by assumption.
    split; [exact H1|]. split; [exact H2|exact H3]. }
  split; [exact resolve_refnode|exact literal_never_found].
Qed.

(** A table that only holds [class Foo.Bar] does not resolve [Foo.Bar];
    and [Bar?], [Bar!] and [[Bar]] resolve as [Bar] does, to the first
    entry of the table that is keyed by a kind and [Bar]. *)
Lemma C5_lookup_by_reference_target_witness :
  SwiftDomain.resolve_xref [(s "class Foo.Bar", (s "a", s "class", s "class Foo.Bar"))]
                           (s "index") (s "Foo.Bar") = None
  /\ (SwiftDomain.resolve_xref struct_before_class (s "index") (s "Bar?")
      = SwiftDomain.resolve_xref struct_before_class (s "index") (s "Bar")
      /\ SwiftDomain.resolve_xref struct_before_class (s "index") (s "Bar!")
         = SwiftDomain.resolve_xref struct_before_class (s "index") (s "Bar")
      /\ SwiftDomain.resolve_xref struct_before_class (s "index") (s "[Bar]")
         = SwiftDomain.resolve_xref struct_before_class (s "index") (s "Bar")).
Proof.
  split.
  - apply (proj2 (proj2 (proj2 (proj2 (proj2 (proj2 (proj2
                   C5_lookup_by_reference_target))))))).
    intros o [<-|[]]. exists (s "class"). split; [now left|reflexivity].
  - apply (proj1 (proj2 (proj2 (proj2 C5_lookup_by_reference_target)))
             struct_before_class (s "index") (s "Bar")).
    repeat split; intros u E; apply (f_equal (@rev ascii)) in E;
      rewrite ?rev_app_distr in E; cbn in E; discriminate E.
Defined.

(** C5 as the specification states it fails.  In a table that holds
    [struct Bar] before [class Bar], the target [Bar] finds the struct,
    the first entry of the table, although class comes first in the order
    of the kinds; and the target [Foo.Bar] finds neither, where the
    specification has it match a key made of a kind and [Bar]. *)
Lemma C5_counterexample :
  SwiftDomain.resolve_xref struct_before_class (s "index") (s "Bar")
  = Some (SwiftDomain.make_refnode (s "index") (s "a") (s "struct Bar") (s "Bar"))
  /\ Dict.get struct_before_class (s "class Bar")
     = Some (s "b", s "class", s "class Bar")
  /\ SwiftDomain.resolve_xref struct_before_class (s "index") (s "Foo.Bar") = None.
Proof. repeat split. Qed.

(** ** The symbol table *)

Lemma dict_get_set {V : Type} (d : Dict.t V) (k : str) (v : V) :
  Dict.get (Dict.set d k v) k = Some v.
Proof.
  induction d as [|[k' v'] d IH]; simpl.
  - now rewrite str_eqb_refl.
  - destruct (Py.str_eqb k' k) eqn:E; simpl; rewrite E; [reflexivity|exact IH].
Qed.

(** A key that the document being read has not noted is entered under this
    document, whatever the table held for it, and nothing is reported. *)
Lemma other_document_overwrites (doc2path : str -> str)
      (d : SwiftObjectDescription.directive) (fullname signature : str)
      (st : SwiftObjectDescription.build) :
  SwiftObjectDescription.noindex d = false ->
  SwiftObjectDescription.mem_str fullname (SwiftObjectDescription.ids st d) = false ->
  exists st',
    SwiftObjectDescription.add_target_and_index doc2path d
      (Some (fullname, signature, true)) st = Ok st'
    /\ Dict.get (SwiftObjectDescription.objects st') fullname
       = Some (SwiftObjectDescription.docname d,
               SwiftObjectDescription.objtype_of d, signature)
    /\ SwiftObjectDescription.warnings st' = SwiftObjectDescription.warnings st.
Proof.
  intros Hn Hm. unfold SwiftObjectDescription.add_target_and_index.
  rewrite Hn, Hm. cbn [negb orb]. eexists. split; [reflexivity|].
  cbn [SwiftObjectDescription.objects SwiftObjectDescription.warnings].
  split; [apply dict_get_set|reflexivity].
Qed.

(** C6, what the code does.  The duplicate test reads the [ids] of the
    document being read, not the table.  When document [a] has declared
    [class Foo] and document [b], whose tree has no such id, declares it
    too, the entry of [a] is replaced by the one of [b] and no warning is
    reported; the first definition does not win. *)
Theorem C6_duplicate_from_other_document :
  forall doc2path : str -> str,
    (exists st1 st2,
        SwiftObjectDescription.add_target_and_index doc2path (class_directive (s "a"))
          (Some class_Foo) empty_build = Ok st1
        /\ SwiftObjectDescription.objects st1
           = [(s "class Foo", (s "a", s "class", s "class Foo"))]
        /\ SwiftObjectDescription.add_target_and_index doc2path (class_directive (s "b"))
             (Some class_Foo) st1 = Ok st2
        /\ SwiftObjectDescription.objects st2
           = [(s "class Foo", (s "b", s "class", s "class Foo"))]
        /\ SwiftObjectDescription.warnings st2 = [])
    /\ (forall (d : SwiftObjectDescription.directive) (fullname signature : str)
                (st : SwiftObjectDescription.build),
           SwiftObjectDescription.noindex d = false ->
           SwiftObjectDescription.mem_str fullname (SwiftObjectDescription.ids st d)
           = false ->
           exists st',
             SwiftObjectDescription.add_target_and_index doc2path d
               (Some (fullname, signature, true)) st = Ok st'
             /\ Dict.get (SwiftObjectDescription.objects st') fullname
                = Some (SwiftObjectDescription.docname d,
                        SwiftObjectDescription.objtype_of d, signature)
             /\ SwiftObjectDescription.warnings st'
                = SwiftObjectDescription.warnings st).
Proof.
  intros doc2path. split.
  - eexists. eexists.
    split; [vm_compute; reflexivity|].
    split; [reflexivity|].
    split; [vm_compute; reflexivity|].
    split; reflexivity.
  - apply other_document_overwrites.
Qed.

(** ** Variables and constants *)

(** The branch that shows the placeholder is never taken: a captured value
    that is truthy is not empty. *)
Lemma value_nodes_cases (value : option str) :
  SwiftClassIvar.value_nodes value
  = match value with
    | Some (c :: v) =>
        [desc_addname (Py.strip (c :: v)) (s " = " ++ Py.strip (c :: v))]
    | _ => []
    end.
Proof.
  destruct value as [[|c v]|]; reflexivity.
Qed.

(** C8, what the code does.  In [x = { return 1 }] the pattern finds the
    equals sign and captures an empty value in front of the brace, but the
    parse shows no default at all: the placeholder is only built for a
    value that is truthy and empty at once, which no value is. *)
Theorem C8_opaque_default :
  (exists m,
      Re.match_ SwiftClassIvar.var_sig computed_property = Some m
      /\ Re.group m "name" = Some (s "x")
      /\ Re.group m "type" = None
      /\ Re.group m "value" = Some [])
  /\ SwiftClassIvar.handle_signature no_container (s "var") computed_property
     = Ok (SwiftClassIvar.Handled
             [desc_addname (s "var") (s "var "); desc_name (s "x") (s "x")]
             (s "x", s "x", true))
  /\ (forall value : option str,
         SwiftClassIvar.value_nodes value
         = match value with
           | Some (c :: v) =>
               [desc_addname (Py.strip (c :: v)) (s " = " ++ Py.strip (c :: v))]
           | _ => []
           end)
  /\ SwiftClassIvar.value_nodes (Some []) <> [placeholder].
Proof.
  split.
  { eexists. split; [vm_compute; reflexivity|]. repeat split. }
  split; [vm_compute; reflexivity|].
  split; [exact value_nodes_cases|].
  vm_compute. discriminate.
Qed.

(** ** Which parses return *)

Lemma contains_In (c : ascii) (x : str) : Py.contains c x = true <-> In c x.
Proof.
  unfold Py.contains. rewrite existsb_exists. split.
  - intros (y & Hin & E). apply Ascii.eqb_eq in E. now subst.
  - intros Hin. exists c. split; [assumption|apply Ascii.eqb_refl].
Qed.

Lemma mapM_returns {A B : Type} (f : A -> result B) (l : list A) :
  returns (mapM f l) = forallb (fun x => returns (f x)) l.
Proof.
  induction l as [|x l IH]; [reflexivity|]. simpl.
  destruct (f x) as [y|e]; [|reflexivity]. simpl.
  rewrite <- IH. now destruct (mapM f l).
Qed.

Lemma mapM_raises {A B : Type} (f : A -> result B) (l : list A) (e : exn) :
  (forall x e', f x = Raise e' -> e' = ValueError) ->
  mapM f l = Raise e -> e = ValueError.
Proof.
  intros Hf. induction l as [|x l IH]; [discriminate|]. simpl.
  destruct (f x) as [y|e'] eqn:E; simpl.
  - destruct (mapM f l) as [ys|e'']; simpl; [discriminate|].
    intros H. injection H as <-. now apply IH.
  - intros H. injection H as <-. now apply (Hf x).
Qed.

Lemma parse_parameter_returns (chunk : str) :
  returns (SwiftClassmember.parse_parameter chunk) = Py.contains ":" chunk.
Proof.
  destruct (in_dec ascii_dec ":"%char chunk) as [Hin|Hout].
  - rewrite (proj2 (contains_In _ _) Hin).
    destruct (first_occurrence _ _ Hin) as (n & r & -> & Hn).
    destruct (parse_parameter_ok n r Hn) as (p & -> & _). reflexivity.
  - rewrite parse_parameter_raises by assumption.
    destruct (Py.contains ":" chunk) eqn:E; [|reflexivity].
    apply contains_In in E. contradiction.
Qed.

Lemma parse_parameter_value_error (chunk : str) (e : exn) :
  SwiftClassmember.parse_parameter chunk = Raise e -> e = ValueError.
Proof.
  destruct (in_dec ascii_dec ":"%char chunk) as [Hin|Hout].
  - destruct (first_occurrence _ _ Hin) as (n & r & -> & Hn).
    destruct (parse_parameter_ok n r Hn) as (p & -> & _). discriminate.
  - rewrite parse_parameter_raises by assumption. congruence.
Qed.

Lemma parse_parameter_list_returns (text : str) :
  returns (SwiftClassmember._parse_parameter_list text) = every_chunk_has_colon text.
Proof.
  unfold SwiftClassmember._parse_parameter_list, every_chunk_has_colon.
  rewrite mapM_returns.
  induction (SwiftClassmember.split_parameters text) as [|c l IH];
    [reflexivity|].
  cbn [forallb]. now rewrite parse_parameter_returns, IH.
Qed.

Lemma callable_returns (temp : temp_data) (objtype sig : str) :
  returns (SwiftClassmember.handle_signature temp objtype sig)
  = match passed_parameter_list sig with
    | Some pl => every_chunk_has_colon pl
    | None => true
    end.
Proof.
  unfold SwiftClassmember.handle_signature, passed_parameter_list.
  destruct (SwiftClassmember.cut_parameter_list _) as [[pl|] rest]; cbn [fst].
  - destruct (0 <? len pl).
    + rewrite <- parse_parameter_list_returns.
      now destruct (SwiftClassmember._parse_parameter_list pl).
    + reflexivity.
  - reflexivity.
Qed.

Lemma callable_value_error (temp : temp_data) (objtype sig : str) (e : exn) :
  SwiftClassmember.handle_signature temp objtype sig = Raise e -> e = ValueError.
Proof.
  unfold SwiftClassmember.handle_signature.
  destruct (SwiftClassmember.cut_parameter_list _) as [[pl|] rest];
    [|discriminate].
  destruct (0 <? len pl); [|discriminate].
  destruct (SwiftClassmember._parse_parameter_list pl) as [ps|e'] eqn:E;
    [discriminate|].
  cbn [bind]. intros H. injection H as <-.
  exact (mapM_raises _ _ _ parse_parameter_value_error E).
Qed.

(** The enum case parse indexes no list beyond its List.length. *)
Lemma rsplit1_shape (sep : ascii) (x : str) :
  (exists a, Py.rsplit1 x sep = [a]) \/ (exists a b, Py.rsplit1 x sep = [a; b]).
Proof.
  unfold Py.rsplit1.
  destruct (split1_shape sep (rev x)) as [(a & ->)|(a & b & ->)]; simpl; eauto.
Qed.

Lemma enum_case_returns (temp : temp_data) (sig : str) :
  returns (SwiftEnumCase.handle_signature temp sig) = true.
Proof.
  unfold SwiftEnumCase.handle_signature.
  destruct (split1_shape "(" sig) as [(a & ->)|(a & b & ->)]; cbn [map].
  - rewrite index_0. cbn [bind]. unfold len at 1. cbn [List.length Z.of_nat Z.ltb Z.compare Pos.compare Pos.compare_cont Pos.of_succ_nat].
    destruct (split1_shape "=" sig) as [(x & ->)|(x & y & ->)]; reflexivity.
  - rewrite index_0. cbn [bind]. unfold len at 1. cbn [List.length Z.of_nat Z.ltb Z.compare Pos.compare Pos.compare_cont Pos.of_succ_nat Pos.succ].
    rewrite index_1. cbn [bind].
    destruct (rsplit1_shape "=" (Py.strip b)) as [(x & ->)|(x & y & ->)]; reflexivity.
Qed.

(** A match that succeeds has passed through its continuation, with
    captures that keep the ones it started from. *)
Lemma keeps_refl (c : Re.captures) : keeps c c.
Proof. intros name H. exact H. Qed.

Lemma keeps_trans (c1 c2 c3 : Re.captures) :
  keeps c1 c2 -> keeps c2 c3 -> keeps c1 c3.
Proof. intros H1 H2 name H. apply H2. now apply H1. Qed.

Lemma keeps_cons (c : Re.captures) (name : string) (v : str) :
  keeps c ((name, v) :: c).
Proof.
  intros n H. cbn [Re.group]. now destruct (String.eqb name n).
Qed.

Lemma star_passes (p : ascii -> bool) (x : str) :
  forall (prev : option ascii) (c : Re.captures) (k : Re.cont) (res : Re.captures),
    Re.star p prev x c k = Some res ->
    exists prev' x', k prev' x' c = Some res.
Proof.
  induction x as [|a x IH]; intros prev c k res H; cbn [Re.star] in H.
  - eauto.
  - destruct (p a); [|eauto].
    destruct (Re.star p (Some a) x c k) as [r|] eqn:E; [|eauto].
    injection H as <-. exact (IH _ _ _ _ E).
Qed.

Lemma run_passes (r : Re.regex) :
  forall (prev : option ascii) (x : str) (c : Re.captures) (k : Re.cont)
         (res : Re.captures),
    Re.run r prev x c k = Some res ->
    exists prev' x' c', k prev' x' c' = Some res /\ keeps c c'.
Proof.
  induction r as [| |p|p| |r1 IH1 r2 IH2|r1 IH1|name r1 IH1];
    intros prev x c k res H; cbn [Re.run] in H.
  - exists prev, x, c. split; [assumption|apply keeps_refl].
  - destruct prev; [discriminate|].
    exists None, x, c. split; [assumption|apply keeps_refl].
  - destruct x as [|a t]; [discriminate|]. destruct (p a); [|discriminate].
    exists (Some a), t, c. split; [assumption|apply keeps_refl].
  - destruct (star_passes _ _ _ _ _ _ H) as (prev' & x' & H').
    exists prev', x', c. split; [assumption|apply keeps_refl].
  - destruct (xorb _ _); [|discriminate].
    exists prev, x, c. split; [assumption|apply keeps_refl].
  - destruct (IH1 _ _ _ _ _ H) as (p1 & x1 & c1 & H1 & K1).
    destruct (IH2 _ _ _ _ _ H1) as (p2 & x2 & c2 & H2 & K2).
    exists p2, x2, c2. split; [assumption|now apply (keeps_trans c c1 c2)].
  - destruct (Re.run r1 prev x c k) as [r|] eqn:E.
    + injection H as <-. exact (IH1 _ _ _ _ _ E).
    + exists prev, x, c. split; [assumption|apply keeps_refl].
  - destruct (IH1 _ _ _ _ _ H) as (p1 & x1 & c1 & H1 & K1).
    eexists p1, x1, _. split; [exact H1|].
    apply (keeps_trans c c1); [assumption|apply keeps_cons].
Qed.

Lemma group_passes (name : string) (r : Re.regex) (prev : option ascii) (x : str)
      (c : Re.captures) (k : Re.cont) (res : Re.captures) :
  Re.run (Re.Group name r) prev x c k = Some res ->
  exists prev' x' c', k prev' x' c' = Some res /\ Re.group c' name <> None.
Proof.
  cbn [Re.run]. intros H.
  destruct (run_passes _ _ _ _ _ _ H) as (p1 & x1 & c1 & H1 & _).
  eexists p1, x1, _. split; [exact H1|].
  cbn [Re.group]. now rewrite String.eqb_refl.
Qed.

Lemma run_seq (r1 r2 : Re.regex) (prev : option ascii) (x : str)
      (c : Re.captures) (k : Re.cont) :
  Re.run (Re.Seq r1 r2) prev x c k
  = Re.run r1 prev x c (fun prev' x' c' => Re.run r2 prev' x' c' k).
Proof. reflexivity. Qed.

(** Every match of [var_sig] has captured a name. *)
Lemma var_sig_name (sig : str) (m : Re.captures) :
  Re.match_ SwiftClassIvar.var_sig sig = Some m -> Re.group m "name" <> None.
Proof.
  unfold Re.match_, SwiftClassIvar.var_sig, Re.seq. cbn [fold_right].
  intros H. rewrite run_seq in H.
  destruct (run_passes _ _ _ _ _ _ H) as (p0 & x0 & c0 & H0 & _).
  rewrite run_seq in H0.
  destruct (run_passes _ _ _ _ _ _ H0) as (p1 & x1 & c1 & H1 & _).
  rewrite run_seq in H1.
  destruct (group_passes _ _ _ _ _ _ _ H1) as (p2 & x2 & c2 & H2 & Hn).
  destruct (run_passes _ _ _ _ _ _ H2) as (p3 & x3 & c3 & H3 & K3).
  injection H3 as <-. now apply K3.
Qed.

Lemma ivar_returns (temp : temp_data) (objtype sig : str) :
  returns (SwiftClassIvar.handle_signature temp objtype sig) = true.
Proof.
  unfold SwiftClassIvar.handle_signature.
  destruct (Re.match_ SwiftClassIvar.var_sig sig) as [m|] eqn:E; [|reflexivity].
  pose proof (var_sig_name _ _ E) as Hn.
  destruct (Re.group m "name") as [n|]; [|contradiction].
  cbn [bind]. destruct (swift_class temp) as [c|]; [|reflexivity].
  now destruct (truthy c).
Qed.

(** C10, as the code has it.  The enum case parse and the variable parse
    return for every input (the variable parse with a warning when the
    pattern does not match).  The parameter list parse returns exactly
    when every top-level chunk has a colon; the callable parse returns
    exactly when it passes no parameter list on or that condition holds,
    and raises [ValueError] otherwise, as it does on [f(x)].  The
    class-like parse returns exactly when the text before the first colon
    has at most one opening angle bracket. *)
Theorem C10_which_parses_return :
  (forall (temp : temp_data) (sig : str),
      returns (SwiftEnumCase.handle_signature temp sig) = true)
  /\ (forall (temp : temp_data) (objtype sig : str),
         returns (SwiftClassIvar.handle_signature temp objtype sig) = true)
  /\ (forall text : str,
         returns (SwiftClassmember._parse_parameter_list text)
         = every_chunk_has_colon text)
  /\ (forall (temp : temp_data) (objtype sig : str),
         returns (SwiftClassmember.handle_signature temp objtype sig)
         = match passed_parameter_list sig with
           | Some pl => every_chunk_has_colon pl
           | None => true
           end)
  /\ (forall (temp : temp_data) (objtype sig : str) (e : exn),
         SwiftClassmember.handle_signature temp objtype sig = Raise e ->
         e = ValueError)
  /\ (forall (temp : temp_data) (objtype sig : str),
         returns (SwiftClass.handle_signature temp objtype sig)
         = (Py.count "<" (class_head sig) <=? 1))
  /\ (forall (temp : temp_data) (objtype : str),
         passed_parameter_list (s "f(x)") = Some (s "x")
         /\ every_chunk_has_colon (s "x") = false
         /\ SwiftClassmember.handle_signature temp objtype (s "f(x)")
            = Raise ValueError).
Proof.
  split; [exact enum_case_returns|].
  split; [exact ivar_returns|].
  split; [exact parse_parameter_list_returns|].
  split; [exact callable_returns|].
  split; [exact callable_value_error|].
  split; [exact class_returns|].
  intros temp objtype. split; [reflexivity|]. split; [reflexivity|].
  pose proof (callable_returns temp objtype (s "f(x)")) as Hr.
  destruct (SwiftClassmember.handle_signature temp objtype (s "f(x)")) as [h|e] eqn:E.
  - discriminate Hr.
  - now rewrite (callable_value_error _ _ _ _ E).
Qed.

(** [f(x: Int)] returns: its only chunk has a colon. *)
Lemma C10_which_parses_return_witness :
  returns (SwiftClassmember.handle_signature no_container (s "function") (s "f(x: Int)"))
  = true.
Proof.
  rewrite (proj1 (proj2 (proj2 (proj2 C10_which_parses_return)))).
  reflexivity.
Defined.

(** C10 as the specification states it fails: the parse of the callable
    [f(x)], whose only chunk has no colon, raises [ValueError] when the
    chunk is unpacked into name and rest; and the class-like parse of
    [Foo<A<B>>] raises it when the head is unpacked into name and generic
    type. *)
Lemma C10_counterexample :
  SwiftClassmember.handle_signature no_container (s "function") (s "f(x)")
  = Raise ValueError
  /\ SwiftClass.handle_signature no_container (s "class") (s "Foo<A<B>>")
     = Raise ValueError.
Proof. split; reflexivity. Qed.

(** ** The module index

    The order of the keys is total and transitive. *)
Lemma leb_refl (x : str) : Py.leb x x = true.
Proof.
  induction x as [|a x IH]; [reflexivity|]. cbn [Py.leb].
  now rewrite Z.ltb_irrefl.
Qed.

Lemma leb_total (x y : str) : Py.leb x y = false -> Py.leb y x = true.
Proof.
  revert y. induction x as [|a x IH]; intros [|b y]; cbn [Py.leb];
    try easy.
  destruct (Z.ltb_spec (code a) (code b)); [discriminate|].
  destruct (Z.ltb_spec (code b) (code a)); [reflexivity|].
  apply IH.
Qed.

Lemma leb_trans (x y z : str) :
  Py.leb x y = true -> Py.leb y z = true -> Py.leb x z = true.
Proof.
  revert y z. induction x as [|a x IH]; intros [|b y] [|c z]; cbn [Py.leb];
    try easy.
  destruct (Z.ltb_spec (code a) (code b)), (Z.ltb_spec (code b) (code a)),
    (Z.ltb_spec (code b) (code c)), (Z.ltb_spec (code c) (code b)),
    (Z.ltb_spec (code a) (code c)), (Z.ltb_spec (code c) (code a));
    try easy; try lia.
  apply IH.
Qed.

(** [sorted] rearranges its list into the order of the keys. *)
Lemma insert_by_perm {A : Type} (key : A -> str) (a : A) (l : list A) :
  Permutation (Py.insert_by key a l) (a :: l).
Proof.
  induction l as [|b l IH]; cbn [Py.insert_by]; [reflexivity|].
  destruct (Py.leb (key a) (key b)); [reflexivity|].
  rewrite IH. apply perm_swap.
Qed.

Lemma sorted_perm {A : Type} (key : A -> str) (l : list A) :
  Permutation (Py.sorted key l) l.
Proof.
  induction l as [|a l IH]; cbn [Py.sorted]; [reflexivity|].
  rewrite insert_by_perm. now constructor.
Qed.

Lemma insert_by_ordered {A : Type} (key : A -> str) (a : A) (l : list A) :
  ordered_by key l -> ordered_by key (Py.insert_by key a l).
Proof.
  unfold ordered_by. induction l as [|b l IH]; intros H; cbn [Py.insert_by].
  - repeat constructor.
  - inversion H as [|b' l' Hl Hb]; subst.
    destruct (Py.leb (key a) (key b)) eqn:E.
    + constructor; [assumption|]. constructor; [assumption|].
      rewrite Forall_forall in *. intros c Hc.
      apply (leb_trans _ (key b)); [assumption|now apply Hb].
    + constructor; [now apply IH|].
      rewrite Forall_forall in *. intros c Hc.
      apply (Permutation_in _ (insert_by_perm key a l)) in Hc.
      destruct Hc as [<-|Hc]; [now apply leb_total|now apply Hb].
Qed.

Lemma sorted_ordered {A : Type} (key : A -> str) (l : list A) :
  ordered_by key (Py.sorted key l).
Proof.
  induction l as [|a l IH]; cbn [Py.sorted].
  - constructor.
  - now apply insert_by_ordered.
Qed.

(** The keys of the first sort are found for every entry, or the sort
    raises. *)
Lemma keyed_entries (entries : list SwiftModuleIndex.entry)
      (keyed : list (str * SwiftModuleIndex.entry)) :
  mapM (fun e => k <- SwiftModuleIndex.sigsorter e ;; Ok (k, e)) entries = Ok keyed ->
  map snd keyed = entries.
Proof.
  revert keyed. induction entries as [|e entries IH]; intros keyed H.
  - now injection H as <-.
  - cbn [mapM] in H.
    destruct (SwiftModuleIndex.sigsorter e) as [k|]; [|discriminate H].
    cbn [bind] in H.
    destruct (mapM _ entries) as [ks|]; [|discriminate H].
    cbn [bind] in H. injection H as <-. cbn [map snd]. f_equal. now apply IH.
Qed.

Lemma sort_by_sigsorter_perm (entries sorted : list SwiftModuleIndex.entry) :
  SwiftModuleIndex.sort_by_sigsorter entries = Ok sorted ->
  Permutation sorted entries.
Proof.
  unfold SwiftModuleIndex.sort_by_sigsorter. intros H.
  destruct (mapM _ entries) as [keyed|] eqn:E; [|discriminate H].
  cbn [bind] in H. injection H as <-.
  rewrite <- (keyed_entries _ _ E).
  apply Permutation_map. apply sorted_perm.
Qed.

(** The grouping loop cuts the sorted entries into runs, in their order,
    and every run is named after the letter of its entries. *)
Lemma flat_map_snoc {A B : Type} (f : A -> list B) (l : list A) (a : A) :
  flat_map f (l ++ [a]) = flat_map f l ++ f a.
Proof. rewrite flat_map_app. simpl. now rewrite app_nil_r. Qed.

Lemma group_step_spec (g g' : SwiftModuleIndex.grouping) (e : SwiftModuleIndex.entry) :
  SwiftModuleIndex.group_step g e = Ok g' ->
  flat_map snd (buckets_of g') = flat_map snd (buckets_of g) ++ [e]
  /\ (Forall bucket_named (buckets_of g) -> Forall bucket_named (buckets_of g')).
Proof.
  unfold SwiftModuleIndex.group_step, buckets_of. intros H.
  destruct (Py.index _ _) as [c|] eqn:Ec; [|discriminate H].
  cbn [bind] in H. injection H as <-.
  assert (Hl : bucket_letter e = Ok (Py.upper_char c)).
  { unfold bucket_letter. now rewrite Ec. }
  destruct (SwiftModuleIndex.same_key (SwiftModuleIndex.current_key g) (Py.upper_char c))
    eqn:Ek; cbn [negb SwiftModuleIndex.content SwiftModuleIndex.current_key
                   SwiftModuleIndex.current_list].
  - split.
    + rewrite !flat_map_snoc. cbn [snd]. now rewrite app_assoc.
    + intros Hb. apply Forall_app in Hb. destruct Hb as [Hc Hlast].
      apply Forall_app. split; [assumption|]. constructor; [|constructor].
      inversion Hlast as [|b l Hcur _]; subst.
      intros x Hx. cbn [snd fst] in *. apply in_app_or in Hx.
      destruct Hx as [Hx|[<-|[]]]; [now apply Hcur|].
      exists (Py.upper_char c). split; [assumption|].
      unfold SwiftModuleIndex.same_key in Ek.
      destruct (SwiftModuleIndex.current_key g) as [k|]; [|discriminate Ek].
      apply str_eqb_eq in Ek. now subst.
  - split.
    + destruct (SwiftModuleIndex.current_list g) as [|x l] eqn:El.
      * cbn [len List.length Z.of_nat Z.ltb Z.compare].
        rewrite !flat_map_snoc. cbn [snd]. now rewrite app_nil_r.
      * rewrite len_cons.
        pose proof (len_nonneg l) as Hn.
        destruct (0 <? len l + 1) eqn:E; [|apply Z.ltb_ge in E; lia].
        rewrite !flat_map_snoc. reflexivity.
    + intros Hb. apply Forall_app. split.
      * destruct (0 <? len (SwiftModuleIndex.current_list g)); [assumption|].
        apply Forall_app in Hb. now destruct Hb.
      * constructor; [|constructor]. intros x [<-|[]].
        exists (Py.upper_char c). now split.
Qed.

Lemma group_loop_spec (entries : list SwiftModuleIndex.entry) :
  forall g g' : SwiftModuleIndex.grouping,
    SwiftModuleIndex.group_loop g entries = Ok g' ->
    flat_map snd (buckets_of g') = flat_map snd (buckets_of g) ++ entries
    /\ (Forall bucket_named (buckets_of g) -> Forall bucket_named (buckets_of g')).
Proof.
  induction entries as [|e entries IH]; intros g g' H; cbn [SwiftModuleIndex.group_loop] in H.
  - injection H as <-. rewrite app_nil_r. now split.
  - destruct (SwiftModuleIndex.group_step g e) as [g1|] eqn:E; [|discriminate H].
    cbn [bind] in H.
    destruct (group_step_spec _ _ _ E) as [Hf Hb].
    destruct (IH _ _ H) as [Hf' Hb'].
    split.
    + rewrite Hf', Hf, <- app_assoc. reflexivity.
    + intros Hg. apply Hb'. now apply Hb.
Qed.

Lemma sorted_buckets_perm (bs : list (option str * list SwiftModuleIndex.entry)) :
  Permutation
    (flat_map snd
       (map (fun ke => (fst ke, Py.sorted SwiftModuleIndex.indexsorter (snd ke))) bs))
    (flat_map snd bs).
Proof.
  induction bs as [|b bs IH]; [reflexivity|]. cbn [map flat_map snd].
  apply Permutation_app; [apply sorted_perm|exact IH].
Qed.

(** What [generate] returns, for every table on which it returns. *)
Lemma generate_spec (objects : objects_table)
      (groups : list (option str * list SwiftModuleIndex.entry)) (collapse : Z) :
  SwiftModuleIndex.generate objects = Ok (groups, collapse) ->
  Permutation (flat_map snd groups) (SwiftModuleIndex.entries_of objects)
  /\ Forall bucket_named groups
  /\ Forall (fun b => ordered_by SwiftModuleIndex.indexsorter (snd b)) groups.
Proof.
  unfold SwiftModuleIndex.generate. intros H.
  destruct (SwiftModuleIndex.sort_by_sigsorter _) as [sorted|] eqn:Es;
    [|discriminate H].
  cbn [bind] in H.
  destruct (SwiftModuleIndex.group_loop _ sorted) as [g|] eqn:Eg;
    [|discriminate H].
  cbn [bind] in H. injection H as <- <-.
  destruct (group_loop_spec _ _ _ Eg) as [Hf Hb].
  change (SwiftModuleIndex.content g
          ++ [(SwiftModuleIndex.current_key g, SwiftModuleIndex.current_list g)])
    with (buckets_of g).
  split; [|split].
  - rewrite sorted_buckets_perm, Hf. cbn [buckets_of flat_map app snd].
    now apply sort_by_sigsorter_perm.
  - assert (Hn : Forall bucket_named (buckets_of g)).
    { apply Hb. constructor; [|constructor]. intros e []. }
    rewrite Forall_forall in *. intros b Hin.
    apply in_map_iff in Hin. destruct Hin as (b0 & <- & Hin0).
    intros e He. cbn [snd fst] in *.
    apply (Permutation_in _ (sorted_perm _ _)) in He.
    now apply (Hn b0 Hin0).
  - rewrite Forall_forall. intros b Hin.
    apply in_map_iff in Hin. destruct Hin as (b0 & <- & _).
    cbn [snd]. apply sorted_ordered.
Qed.

(** The key of the second sort puts the rank in front of the name. *)
Lemma indexsorter_loop_rank (types : list (Z * str)) (x : str) :
  SwiftModuleIndex.indexsorter_loop types x
  = match rank_loop types x with
    | Some i => SwiftModuleIndex.format_04d i ++ x
    | None => x
    end.
Proof.
  induction types as [|[i t] types IH]; cbn [SwiftModuleIndex.indexsorter_loop rank_loop].
  - reflexivity.
  - now destruct (Py.startswith x t).
Qed.

Lemma indexsorter_rank (e : SwiftModuleIndex.entry) :
  SwiftModuleIndex.indexsorter e
  = match rank_of (SwiftModuleIndex.entry_name e) with
    | Some i => SwiftModuleIndex.format_04d i ++ SwiftModuleIndex.entry_name e
    | None => SwiftModuleIndex.entry_name e
    end.
Proof. apply indexsorter_loop_rank. Qed.

Lemma rank_range (x : str) (i : Z) : rank_of x = Some i -> 0 <= i < 5.
Proof.
  unfold rank_of, type_order. cbn [Py.enumerate Py.enumerate_from rank_loop].
  repeat (destruct (Py.startswith x _);
          [intros H; injection H as <-; lia|]).
  discriminate.
Qed.

Lemma small_rank (i : Z) :
  0 <= i < 5 -> i = 0 \/ i = 1 \/ i = 2 \/ i = 3 \/ i = 4.
Proof. lia. Qed.

Lemma leb_ranked (i j : Z) (a b : str) :
  0 <= i < 5 -> 0 <= j < 5 ->
  Py.leb (SwiftModuleIndex.format_04d i ++ a) (SwiftModuleIndex.format_04d j ++ b)
  = if i <? j then true else if j <? i then false else Py.leb a b.
Proof.
  intros Hi Hj.
  destruct (small_rank i Hi) as [->|[->|[->|[->| ->]]]];
    destruct (small_rank j Hj) as [->|[->|[->|[->| ->]]]];
    reflexivity.
Qed.

Lemma leb_unranked (i : Z) (a r : str) (c : ascii) :
  0 <= i < 5 -> 48 < code c ->
  Py.leb (SwiftModuleIndex.format_04d i ++ a) (c :: r) = true
  /\ Py.leb (c :: r) (SwiftModuleIndex.format_04d i ++ a) = false.
Proof.
  intros Hi Hc.
  assert (E : exists t, SwiftModuleIndex.format_04d i ++ a = "0"%char :: t).
  { destruct (small_rank i Hi) as [->|[->|[->|[->| ->]]]]; eexists; reflexivity. }
  destruct E as (t & ->). cbn [Py.leb]. change (code "0"%char) with 48.
  destruct (Z.ltb_spec 48 (code c)); [|lia].
  destruct (Z.ltb_spec (code c) 48); [lia|]. now split.
Qed.

(** What the order of the keys says about two entries of a bucket. *)
Lemma key_order_meaning (a b : SwiftModuleIndex.entry) :
  Py.leb (SwiftModuleIndex.indexsorter a) (SwiftModuleIndex.indexsorter b) = true ->
  (forall i j,
      rank_of (SwiftModuleIndex.entry_name a) = Some i ->
      rank_of (SwiftModuleIndex.entry_name b) = Some j ->
      i <= j
      /\ (i = j -> Py.leb (SwiftModuleIndex.entry_name a)
                          (SwiftModuleIndex.entry_name b) = true))
  /\ (forall c r,
         rank_of (SwiftModuleIndex.entry_name a) = None ->
         SwiftModuleIndex.entry_name a = c :: r -> 48 < code c ->
         rank_of (SwiftModuleIndex.entry_name b) = None).
Proof.
  rewrite !indexsorter_rank. intros H. split.
  - intros i j Hi Hj. rewrite Hi, Hj in H.
    rewrite leb_ranked in H by (eapply rank_range; eassumption).
    destruct (Z.ltb_spec i j); [lia|].
    destruct (Z.ltb_spec j i); [discriminate H|]. split; [lia|now intros _].
  - intros c r Ha En Hc. rewrite Ha, En in H.
    destruct (rank_of (SwiftModuleIndex.entry_name b)) as [j|] eqn:Hj;
      [|reflexivity].
    destruct (leb_unranked j (SwiftModuleIndex.entry_name b) r c) as [_ Hf];
      [now apply (rank_range _ _ Hj)|assumption|].
    congruence.
Qed.

(** The three entries of the specification's example make the buckets
    [A], with the class before the struct, and [B], in whatever order the
    table holds them. *)
Lemma generate_example :
  SwiftModuleIndex.generate apples_and_banana
  = Ok ([(Some (s "A"), [entry_for "class Apple" "fruit" "class";
                         entry_for "struct Apple" "fruit" "struct"]);
         (Some (s "B"), [entry_for "class Banana" "fruit" "class"])], 0)
  /\ SwiftModuleIndex.generate (rev apples_and_banana)
     = SwiftModuleIndex.generate apples_and_banana.
Proof. split; vm_compute; reflexivity. Qed.

(** C9, what the code does when a name starts with the letters of a kind.
    The function [classify()] is not of a kind of the fixed order and its
    signature has no kind word in front, so that its bucket would be [C]
    and its place the last; the code takes it for a class, skips six
    characters, files it under [F] and lists it before [struct Foo].  And
    [apple()] gets a bucket [A] of its own after bucket [B], the first
    sort being on the character as it is, not uppercased. *)
Theorem C9_kind_word_in_name :
  SwiftModuleIndex.generate struct_and_function
  = Ok ([(Some (s "F"), [entry_for "classify()" "api" "function";
                         entry_for "struct Foo" "api" "struct"])], 0)
  /\ rank_of (s "classify()") = Some 0
  /\ bucket_letter (entry_for "classify()" "api" "function") = Ok (s "F")
  /\ SwiftModuleIndex.generate mixed_case
     = Ok ([(Some (s "A"), [entry_for "class Apple" "api" "class"]);
            (Some (s "B"), [entry_for "class Banana" "api" "class"]);
            (Some (s "A"), [entry_for "apple()" "api" "function"])], 0).
Proof. repeat split; vm_compute; reflexivity. Qed.

(** ** Module index: the result for any table *)

Lemma index_returns {A : Type} (x : list A) (i : Z) :
  0 <= i -> returns (Py.index x i) = (i <? len x).
Proof.
  intros Hi. unfold Py.index.
  destruct (Z.ltb_spec i 0); [lia|].
  destruct (Z.ltb_spec i 0); [lia|].
  destruct (nth_error x (Z.to_nat i)) eqn:E; cbn [returns].
  - symmetry. apply Z.ltb_lt. unfold len.
    assert (Z.to_nat i < List.length x)%nat by (apply nth_error_Some; congruence).
    lia.
  - symmetry. apply Z.ltb_ge. unfold len.
    apply nth_error_None in E. lia.
Qed.

Lemma index_raises_index_error {A : Type} (x : list A) (i : Z) (e : exn) :
  Py.index x i = Raise e -> e = IndexError.
Proof.
  unfold Py.index.
  destruct (_ <? 0); [congruence|].
  destruct (nth_error _ _); congruence.
Qed.

Lemma start_after_nonneg (types : list str) (x : str) :
  0 <= SwiftModuleIndex.start_after types x.
Proof.
  induction types as [|t types IH]; cbn [SwiftModuleIndex.start_after]; [lia|].
  destruct (Py.startswith x t); [|exact IH].
  pose proof (len_nonneg t). lia.
Qed.

Lemma sigsorter_returns (e : SwiftModuleIndex.entry) :
  returns (SwiftModuleIndex.sigsorter e)
  = (SwiftModuleIndex.start_after type_order (SwiftModuleIndex.entry_anchor e)
     <? len (SwiftModuleIndex.entry_anchor e)).
Proof.
  unfold SwiftModuleIndex.sigsorter.
  rewrite <- index_returns by apply start_after_nonneg.
  now destruct (Py.index _ _).
Qed.

Lemma group_step_returns (g : SwiftModuleIndex.grouping) (e : SwiftModuleIndex.entry) :
  returns (SwiftModuleIndex.group_step g e) = returns (SwiftModuleIndex.sigsorter e).
Proof.
  unfold SwiftModuleIndex.group_step, SwiftModuleIndex.sigsorter.
  now destruct (Py.index _ _).
Qed.

Lemma group_loop_returns (entries : list SwiftModuleIndex.entry) :
  forall g,
    Forall (fun e => returns (SwiftModuleIndex.sigsorter e) = true) entries ->
    returns (SwiftModuleIndex.group_loop g entries) = true.
Proof.
  induction entries as [|e entries IH]; intros g H; cbn [SwiftModuleIndex.group_loop].
  - reflexivity.
  - inversion H as [|? ? He Hr]; subst.
    rewrite <- (group_step_returns g) in He.
    destruct (SwiftModuleIndex.group_step g e) as [g1|]; [|discriminate He].
    cbn [bind]. now apply IH.
Qed.

Lemma sort_by_sigsorter_returns (entries : list SwiftModuleIndex.entry) :
  returns (SwiftModuleIndex.sort_by_sigsorter entries)
  = forallb (fun e => returns (SwiftModuleIndex.sigsorter e)) entries.
Proof.
  unfold SwiftModuleIndex.sort_by_sigsorter.
  rewrite <- (mapM_returns SwiftModuleIndex.sigsorter).
  induction entries as [|e entries IH]; [reflexivity|].
  cbn [mapM]. destruct (SwiftModuleIndex.sigsorter e) as [k|]; [|reflexivity].
  cbn [bind].
  destruct (mapM (fun e0 => k0 <- SwiftModuleIndex.sigsorter e0 ;; Ok (k0, e0)) entries);
    destruct (mapM SwiftModuleIndex.sigsorter entries); cbn [bind returns] in *;
    congruence.
Qed.

Lemma sort_by_sigsorter_raises (entries : list SwiftModuleIndex.entry) (e : exn) :
  SwiftModuleIndex.sort_by_sigsorter entries = Raise e -> e = IndexError.
Proof.
  unfold SwiftModuleIndex.sort_by_sigsorter.
  induction entries as [|a entries IH]; [discriminate|].
  cbn [mapM]. unfold SwiftModuleIndex.sigsorter at 1.
  destruct (Py.index _ _) as [c|e'] eqn:E.
  - cbn [bind].
    destruct (mapM _ entries) as [ks|e'']; cbn [bind] in *; [discriminate|].
    intros H. injection H as <-. now apply IH.
  - cbn [bind]. intros H. injection H as <-.
    now apply index_raises_index_error in E.
Qed.

Lemma entries_letters (objects : objects_table) :
  forallb (fun e => returns (SwiftModuleIndex.sigsorter e))
          (SwiftModuleIndex.entries_of objects)
  = forallb has_bucket_letter objects.
Proof.
  induction objects as [|[refname [[docname typ] signature]] objects IH];
    [reflexivity|].
  cbn [SwiftModuleIndex.entries_of map forallb].
  fold (SwiftModuleIndex.entries_of objects). rewrite IH. f_equal.
  apply sigsorter_returns.
Qed.

(** The grouping loop closes a bucket only when it holds an entry and the
    letter changes. *)
Lemma no_repeat_snoc {A : Type} (l : list A) (a b : A) :
  no_repeat (l ++ [a]) -> a <> b -> no_repeat ((l ++ [a]) ++ [b]).
Proof.
  induction l as [|x l IH]; intros H Hab.
  - cbn. now split.
  - destruct l as [|y l].
    + cbn in *. destruct H as [Hx _]. repeat split; assumption.
    + cbn [app no_repeat] in *. destruct H as [Hx Hr]. split; [assumption|].
      now apply IH.
Qed.

Lemma group_step_shape (g g' : SwiftModuleIndex.grouping) (e : SwiftModuleIndex.entry) :
  SwiftModuleIndex.group_step g e = Ok g' ->
  (SwiftModuleIndex.current_list g = [] -> SwiftModuleIndex.content g = []) ->
  Forall (fun b => snd b <> [] /\ fst b <> None) (SwiftModuleIndex.content g) ->
  (SwiftModuleIndex.current_list g <> [] -> SwiftModuleIndex.current_key g <> None) ->
  no_repeat (map fst (buckets_of g)) ->
  SwiftModuleIndex.current_list g' <> []
  /\ SwiftModuleIndex.current_key g' <> None
  /\ Forall (fun b => snd b <> [] /\ fst b <> None) (SwiftModuleIndex.content g')
  /\ no_repeat (map fst (buckets_of g')).
Proof.
  unfold SwiftModuleIndex.group_step, buckets_of. intros H Hstart Hc Hk Hn.
  destruct (Py.index _ _) as [c|]; [|discriminate H].
  cbn [bind] in H. injection H as <-.
  destruct (SwiftModuleIndex.same_key (SwiftModuleIndex.current_key g) (Py.upper_char c))
    eqn:Ek; cbn [negb SwiftModuleIndex.content SwiftModuleIndex.current_key
                   SwiftModuleIndex.current_list].
  - assert (Hkey : SwiftModuleIndex.current_key g <> None).
    { unfold SwiftModuleIndex.same_key in Ek.
      now destruct (SwiftModuleIndex.current_key g). }
    split; [now destruct (SwiftModuleIndex.current_list g)|].
    split; [assumption|]. split; [assumption|].
    rewrite !map_app in *. exact Hn.
  - assert (Hdiff : SwiftModuleIndex.current_key g <> Some (Py.upper_char c)).
    { intros E. rewrite E in Ek. cbn [SwiftModuleIndex.same_key] in Ek.
      now rewrite str_eqb_refl in Ek. }
    destruct (SwiftModuleIndex.current_list g) as [|x l] eqn:El.
    + cbn [len List.length Z.of_nat Z.ltb Z.compare].
      rewrite (Hstart eq_refl). cbn.
      split; [discriminate|]. split; [discriminate|]. split; [constructor|exact I].
    + rewrite len_cons. pose proof (len_nonneg l) as Hl.
      destruct (Z.ltb_spec 0 (len l + 1)); [|lia].
      split; [discriminate|]. split; [discriminate|]. split.
      * apply Forall_app. split; [assumption|].
        constructor; [|constructor]. cbn [fst snd]. split; [discriminate|].
        apply Hk. discriminate.
      * rewrite !map_app in *. cbn [map fst] in *.
        now apply no_repeat_snoc.
Qed.

Lemma group_loop_shape (entries : list SwiftModuleIndex.entry) :
  forall g g' : SwiftModuleIndex.grouping,
    SwiftModuleIndex.group_loop g entries = Ok g' ->
    (SwiftModuleIndex.current_list g = [] -> SwiftModuleIndex.content g = []) ->
    Forall (fun b => snd b <> [] /\ fst b <> None) (SwiftModuleIndex.content g) ->
    (SwiftModuleIndex.current_list g <> [] -> SwiftModuleIndex.current_key g <> None) ->
    no_repeat (map fst (buckets_of g)) ->
    (entries <> [] \/ SwiftModuleIndex.current_list g <> []) ->
    Forall (fun b => snd b <> [] /\ fst b <> None) (buckets_of g')
    /\ no_repeat (map fst (buckets_of g')).
Proof.
  induction entries as [|e entries IH]; intros g g' H Hstart Hc Hk Hn Hne;
    cbn [SwiftModuleIndex.group_loop] in H.
  - injection H as <-. destruct Hne as [Hne|Hne]; [contradiction|].
    split; [|assumption]. unfold buckets_of. apply Forall_app. split; [assumption|].
    constructor; [|constructor]. cbn [fst snd]. split; [assumption|now apply Hk].
  - destruct (SwiftModuleIndex.group_step g e) as [g1|] eqn:E; [|discriminate H].
    cbn [bind] in H.
    destruct (group_step_shape _ _ _ E Hstart Hc Hk Hn) as (H1 & H2 & H3 & H4).
    apply (IH g1 g' H); try assumption; try contradiction.
    + intros _. assumption.
    + now right.
Qed.

(** X1.  What the module index holds, for every table on which [generate]
    returns: the entries of the buckets are the entries of the table, each
    one once; every entry of a bucket has the letter the bucket is named
    after; every bucket is in the order of its [indexsorter] keys; and
    [collapse] is 0. *)
Theorem X1_index_partition :
  forall (objects : objects_table)
         (groups : list (option str * list SwiftModuleIndex.entry)) (collapse : Z),
    SwiftModuleIndex.generate objects = Ok (groups, collapse) ->
    Permutation (flat_map snd groups) (SwiftModuleIndex.entries_of objects)
    /\ Forall bucket_named groups
    /\ Forall (fun b => ordered_by SwiftModuleIndex.indexsorter (snd b)) groups
    /\ collapse = 0.
Proof.
  intros objects groups collapse H.
  destruct (generate_spec _ _ _ H) as (Hp & Hb & Ho).
  repeat split; try assumption.
  unfold SwiftModuleIndex.generate in H.
  destruct (SwiftModuleIndex.sort_by_sigsorter _); [|discriminate H].
  cbn [bind] in H.
  destruct (SwiftModuleIndex.group_loop _ _); [|discriminate H].
  cbn [bind] in H. now injection H as _ <-.
Qed.

Lemma X1_index_partition_witness :
  Permutation
    [entry_for "class Apple" "fruit" "class";
     entry_for "struct Apple" "fruit" "struct";
     entry_for "class Banana" "fruit" "class"]
    (SwiftModuleIndex.entries_of apples_and_banana).
Proof.
  exact (proj1 (X1_index_partition apples_and_banana
           [(Some (s "A"), [entry_for "class Apple" "fruit" "class";
                            entry_for "struct Apple" "fruit" "struct"]);
            (Some (s "B"), [entry_for "class Banana" "fruit" "class"])] 0
           eq_refl)).
Defined.

Lemma upper_char_upper (c ch : ascii) :
  In ch (Py.upper_char c) -> lower_case_letter ch = false.
Proof.
  intros H.
  destruct c as [[] [] [] [] [] [] [] []]; vm_compute in H;
    repeat (destruct H as [<-|H]; [reflexivity|]); destruct H.
Qed.

(** X2.  The shape of the module index of a table that is not empty: no
    bucket is empty, every bucket has a letter, which holds no lower-case
    letter of ASCII, and two buckets that follow one another have
    different letters.  (A letter can come back further on.)  For the
    empty table the result is the one bucket [(None, [])]. *)
Theorem X2_index_shape :
  forall (objects : objects_table)
         (groups : list (option str * list SwiftModuleIndex.entry)) (collapse : Z),
    SwiftModuleIndex.generate objects = Ok (groups, collapse) ->
    (objects = [] -> groups = [(None, [])])
    /\ (objects <> [] ->
        Forall (fun b => snd b <> [] /\ fst b <> None) groups
        /\ Forall (fun b => forall letter ch,
                              fst b = Some letter -> In ch letter ->
                              lower_case_letter ch = false) groups
        /\ no_repeat (map fst groups)).
Proof.
  intros objects groups collapse H.
  destruct (generate_spec _ _ _ H) as (_ & Hnamed & _). split.
  - intros ->. cbn in H. now injection H as <- _.
  - intros Hne.
    assert (Hupper : Forall (fun b => snd b <> [] ->
                                      forall letter ch,
                                        fst b = Some letter -> In ch letter ->
                                        lower_case_letter ch = false) groups).
    { rewrite Forall_forall in *. intros b Hb Hnil letter ch Hl Hch.
      destruct (snd b) as [|e es] eqn:Eb; [contradiction|].
      destruct (Hnamed b Hb e) as (letter' & He & Hl').
      { destruct b as [k es0]. cbn [snd] in *. subst es0. now left. }
      pose proof (eq_trans (eq_sym Hl) Hl') as El. injection El as <-.
      unfold bucket_letter in He.
      destruct (Py.index _ _) as [c|]; [|discriminate He].
      cbn [bind] in He. injection He as <-. now apply (upper_char_upper c). }
    clear Hnamed. unfold SwiftModuleIndex.generate in H.
    destruct (SwiftModuleIndex.sort_by_sigsorter _) as [sorted|] eqn:Es;
      [|discriminate H].
    cbn [bind] in H.
    destruct (SwiftModuleIndex.group_loop _ sorted) as [g|] eqn:Eg;
      [|discriminate H].
    cbn [bind] in H. injection H as <- _.
    change (SwiftModuleIndex.content g
            ++ [(SwiftModuleIndex.current_key g, SwiftModuleIndex.current_list g)])
      with (buckets_of g).
    assert (Hs : sorted <> []).
    { intros ->. apply sort_by_sigsorter_perm in Es.
      apply Permutation_nil in Es. destruct objects; [now apply Hne|discriminate Es]. }
    destruct (group_loop_shape _ _ _ Eg) as [Hf Hn];
      cbn [SwiftModuleIndex.content SwiftModuleIndex.current_list
           SwiftModuleIndex.current_key buckets_of map app fst no_repeat];
      try (now constructor); try tauto; try (now left).
    assert (Hfull : Forall (fun b => snd b <> [] /\ fst b <> None)
                      (map (fun ke => (fst ke,
                                       Py.sorted SwiftModuleIndex.indexsorter (snd ke)))
                           (buckets_of g))).
    { rewrite Forall_forall in *. intros b Hin.
      apply in_map_iff in Hin. destruct Hin as (b0 & <- & Hin0).
      cbn [fst snd]. destruct (Hf _ Hin0) as [Hl Hk]. split; [|assumption].
      intros E. apply Hl.
      pose proof (sorted_perm SwiftModuleIndex.indexsorter (snd b0)) as Hp.
      rewrite E in Hp. now apply Permutation_nil in Hp. }
    split; [exact Hfull|]. split.
    + rewrite Forall_forall in *. intros b Hin. apply (Hupper b Hin).
      now apply (Hfull b Hin).
    + now rewrite map_map.
Qed.

Lemma X2_index_shape_witness :
  no_repeat [Some (s "A"); Some (s "B"); Some (s "A")].
Proof.
  refine (proj2 (proj2 (proj2 (X2_index_shape mixed_case
           [(Some (s "A"), [entry_for "class Apple" "api" "class"]);
            (Some (s "B"), [entry_for "class Banana" "api" "class"]);
            (Some (s "A"), [entry_for "apple()" "api" "function"])] 0
           eq_refl) _))).
  discriminate.
Defined.

(** X3.  When [generate] raises.  It returns exactly when every signature
    of the table has a character at the place where the letter of its
    bucket is read, that is after the kind word and one more character
    when it starts with the name of a kind, at its start otherwise; an
    empty signature, or one that is a bare kind word, makes it raise, and
    what it raises is [IndexError]. *)
Theorem X3_index_raises :
  forall objects : objects_table,
    returns (SwiftModuleIndex.generate objects) = forallb has_bucket_letter objects
    /\ (forall e, SwiftModuleIndex.generate objects = Raise e -> e = IndexError).
Proof.
  intros objects. rewrite <- entries_letters.
  unfold SwiftModuleIndex.generate.
  pose proof (sort_by_sigsorter_returns (SwiftModuleIndex.entries_of objects)) as Hr.
  destruct (SwiftModuleIndex.sort_by_sigsorter _) as [sorted|e0] eqn:Es; cbn [bind].
  - assert (Hs : Forall (fun e => returns (SwiftModuleIndex.sigsorter e) = true) sorted).
    { cbn [returns] in Hr. symmetry in Hr. rewrite forallb_forall in Hr.
      apply Forall_forall. intros e He. apply Hr.
      now apply (Permutation_in _ (sort_by_sigsorter_perm _ _ Es)). }
    pose proof (group_loop_returns sorted
                  {| SwiftModuleIndex.content := [];
                     SwiftModuleIndex.current_key := None;
                     SwiftModuleIndex.current_list := [] |} Hs) as Hg.
    destruct (SwiftModuleIndex.group_loop _ sorted); [|discriminate Hg].
    cbn [bind returns]. split; [exact Hr|discriminate].
  - split; [exact Hr|]. intros e H. injection H as <-.
    now apply sort_by_sigsorter_raises in Es.
Qed.

(** X4.  The order inside a bucket.  Of two entries of one bucket, the one
    listed first has the lower rank when both names start with the name
    of a kind of [type_order], and the name that is not greater in code
    point order when the ranks are equal; an entry without a rank whose
    name starts with a character above the digit zero is followed by
    entries without a rank only. *)
Theorem X4_index_bucket_order :
  forall (objects : objects_table)
         (groups : list (option str * list SwiftModuleIndex.entry)) (collapse : Z)
         (key : option str) (pre mid post : list SwiftModuleIndex.entry)
         (a b : SwiftModuleIndex.entry),
    SwiftModuleIndex.generate objects = Ok (groups, collapse) ->
    In (key, pre ++ a :: mid ++ b :: post) groups ->
    (forall i j,
        rank_of (SwiftModuleIndex.entry_name a) = Some i ->
        rank_of (SwiftModuleIndex.entry_name b) = Some j ->
        i <= j
        /\ (i = j -> Py.leb (SwiftModuleIndex.entry_name a)
                            (SwiftModuleIndex.entry_name b) = true))
    /\ (forall c r,
           rank_of (SwiftModuleIndex.entry_name a) = None ->
           SwiftModuleIndex.entry_name a = c :: r -> 48 < code c ->
           rank_of (SwiftModuleIndex.entry_name b) = None).
Proof.
  intros objects groups collapse key pre mid post a b H Hin.
  destruct (generate_spec _ _ _ H) as (_ & _ & Ho).
  rewrite Forall_forall in Ho. specialize (Ho _ Hin). cbn [snd] in Ho.
  apply key_order_meaning.
  unfold ordered_by in Ho.
  assert (Hs : StronglySorted
                 (fun a b => Py.leb (SwiftModuleIndex.indexsorter a)
                                    (SwiftModuleIndex.indexsorter b) = true)
                 (a :: mid ++ b :: post)).
  { clear - Ho. induction pre as [|x pre IH]; [exact Ho|].
    apply IH. now inversion Ho. }
  inversion Hs as [|? ? _ Hall]; subst.
  rewrite Forall_forall in Hall. apply Hall.
  apply in_or_app. right. now left.
Qed.

Lemma X4_index_bucket_order_witness :
  0 <= 1
  /\ (0 = 1 -> Py.leb (s "class Apple") (s "struct Apple") = true).
Proof.
  exact (proj1 (X4_index_bucket_order apples_and_banana
           [(Some (s "A"), [entry_for "class Apple" "fruit" "class";
                            entry_for "struct Apple" "fruit" "struct"]);
            (Some (s "B"), [entry_for "class Banana" "fruit" "class"])] 0
           (Some (s "A")) [] [] []
           (entry_for "class Apple" "fruit" "class")
           (entry_for "struct Apple" "fruit" "struct")
           eq_refl (or_introl eq_refl)) 0 1 eq_refl eq_refl).
Defined.

(** ** Callables: name, parameter list and tail *)

Lemma count_cons (c a : ascii) (x : str) :
  Py.count c (a :: x) = (if Ascii.eqb c a then 1 else 0) + Py.count c x.
Proof.
  unfold Py.count. cbn [filter].
  destruct (Ascii.eqb c a); [rewrite len_cons|]; lia.
Qed.

Lemma depth_cons (opener closer a : ascii) (x : str) :
  depth opener closer (a :: x) = depth opener closer [a] + depth opener closer x.
Proof.
  unfold depth. rewrite !(count_cons _ a x), !(count_cons _ a []).
  unfold Py.count. cbn [filter len List.length Z.of_nat]. lia.
Qed.

Lemma closing_index_balanced (params tail : str) :
  forall (k d : Z),
    (forall n, (n <= List.length params)%nat ->
               1 <= d + depth "(" ")" (firstn n params)) ->
    d + depth "(" ")" params = 1 ->
    SwiftClassmember.closing_index (Py.enumerate_from k (params ++ ")"%char :: tail)) d
    = Some (k + len params).
Proof.
  induction params as [|c params IH]; intros k d Hpre Htot.
  - cbn [app Py.enumerate_from SwiftClassmember.closing_index].
    change (Ascii.eqb ")" "(") with false. change (Ascii.eqb ")" ")") with true.
    cbv iota. unfold depth, Py.count in Htot. cbn in Htot.
    replace (d - 1 =? 0) with true by (symmetry; apply Z.eqb_eq; lia).
    f_equal. unfold len. cbn. lia.
  - cbn [app Py.enumerate_from SwiftClassmember.closing_index].
    set (d' := if Ascii.eqb c "(" then d + 1
               else if Ascii.eqb c ")" then d - 1 else d).
    assert (Ed : d' = d + depth "(" ")" [c]).
    { unfold d', depth, Py.count. cbn [filter].
      rewrite (Ascii.eqb_sym "("%char c), (Ascii.eqb_sym ")"%char c).
      destruct (Ascii.eqb_spec c "("%char) as [->|H1]; [reflexivity|].
      destruct (Ascii.eqb c ")"); cbn; lia. }
    assert (H1 : 1 <= d').
    { rewrite Ed. apply (Hpre 1%nat). cbn. lia. }
    destruct (Z.eqb_spec d' 0); [lia|].
    rewrite IH.
    + f_equal. rewrite len_cons. lia.
    + intros m Hm. specialize (Hpre (S m)). cbn [firstn] in Hpre.
      rewrite depth_cons in Hpre. rewrite Ed. cbn [List.length] in Hpre. lia.
    + rewrite depth_cons in Htot. lia.
Qed.

Lemma never_closes_spec (x : str) (n : nat) :
  never_closes x = true -> (n <= List.length x)%nat ->
  0 <= depth "(" ")" (firstn n x).
Proof.
  unfold never_closes. intros H Hn. rewrite forallb_forall in H.
  apply Z.leb_le. apply H. apply in_seq. lia.
Qed.

Lemma before_first (c : ascii) (a b pre rest : str) :
  a ++ c :: b = pre ++ rest -> ~ In c pre -> len pre <= len a.
Proof.
  revert pre. induction a as [|x a IH]; intros pre E Hc.
  - destruct pre as [|y pre]; [cbn; lia|].
    cbn in E. injection E as <- _. exfalso. apply Hc. now left.
  - destruct pre as [|y pre]; [pose proof (len_nonneg (x :: a)); cbn in *; lia|].
    cbn in E. injection E as <- E. rewrite !len_cons.
    specialize (IH pre E). cbn in Hc. intuition lia.
Qed.

Lemma slice_from_cons {A : Type} (a : A) (x : list A) (i : Z) :
  0 <= i <= len x -> Py.slice_from (a :: x) (i + 1) = Py.slice_from x i.
Proof.
  intros Hi. unfold Py.slice_from.
  rewrite !clamp_in_range by (rewrite ?len_cons; lia).
  replace (Z.to_nat (i + 1)) with (S (Z.to_nat i)) by lia. reflexivity.
Qed.

Lemma slice_after_first (a : ascii) (x y : str) :
  Py.slice (a :: x ++ y) 1 (1 + len x) = x.
Proof.
  unfold Py.slice.
  pose proof (len_nonneg x). pose proof (len_nonneg y).
  rewrite !clamp_in_range by (rewrite len_cons, len_app; lia).
  replace (1 + len x - 1) with (len x) by lia.
  change (Z.to_nat 1) with 1%nat. cbn [skipn].
  unfold len. rewrite Nat2Z.id, firstn_app, firstn_all, Nat.sub_diag.
  cbn. apply app_nil_r.
Qed.

Section Callable.

Variables name params tail : str.

Hypothesis name_paren : ~ In "("%char name.
Hypothesis name_angle : ~ In "<"%char name.
Hypothesis params_open : never_closes params = true.
Hypothesis params_closed : depth "(" ")" params = 0.

Let sig : str := name ++ "("%char :: params ++ ")"%char :: tail.

Lemma callable_split_point : SwiftClassmember.split_point sig = len name.
Proof.
  unfold SwiftClassmember.split_point. change (s "(") with ["("%char].
  change (s "<") with ["<"%char].
  assert (Hp : Py.find sig ["("%char] = len name) by now apply find_first.
  rewrite Hp.
  destruct (find_cases "<" sig) as [[_ ->]|(a & b & E & Ha & ->)]; [reflexivity|].
  assert (Hl : len name <= len a).
  { unfold sig in E. symmetry in E. now apply (before_first _ _ _ _ _ E). }
  destruct (Z.ltb_spec (len a) (len name)); [lia|].
  now rewrite andb_false_r.
Qed.

Lemma callable_method_name : SwiftClassmember.method_name sig = name.
Proof.
  unfold SwiftClassmember.method_name. rewrite callable_split_point.
  unfold sig. rewrite slice_prefix.
  change (s "<") with ["<"%char]. now rewrite find_absent.
Qed.

Lemma callable_rest :
  Py.slice_from sig (SwiftClassmember.split_point sig)
  = "("%char :: params ++ ")"%char :: tail.
Proof. rewrite callable_split_point. unfold sig. apply slice_from_app. Qed.

Lemma callable_cut :
  SwiftClassmember.cut_parameter_list ("("%char :: params ++ ")"%char :: tail)
  = (Some params, tail).
Proof.
  unfold SwiftClassmember.cut_parameter_list, Py.enumerate.
  cbn [Py.enumerate_from SwiftClassmember.closing_index].
  change (Ascii.eqb "(" "(") with true. cbv iota.
  change (0 + 1 =? 0) with false. cbv iota.
  rewrite closing_index_balanced.
  - change (0 + 1) with 1. rewrite slice_after_first.
    replace (1 + len params + 1) with ((len params + 1) + 1) by lia.
    rewrite slice_from_cons.
    + now rewrite slice_from_after.
    + pose proof (len_nonneg params). pose proof (len_nonneg tail).
      rewrite len_app, len_cons. lia.
  - intros n Hn. pose proof (never_closes_spec _ _ params_open Hn). lia.
  - lia.
Qed.

End Callable.

(** X5.  A callable signature is cut at its first opening round bracket
    and at the round bracket that closes it.  For a signature
    [name(params)tail] whose name has no round and no angle bracket and
    whose [params] are balanced in round brackets, the method name is
    [name], the parameter list is [params] and what is left is [tail],
    whatever [tail] is; the parameters are those of [params], and none are
    parsed when [params] is empty. *)
Theorem X5_callable_decomposition :
  forall (temp : temp_data) (objtype name params tail : str)
         (h : SwiftClassmember.handled),
    ~ In "("%char name -> ~ In "<"%char name ->
    never_closes params = true -> depth "(" ")" params = 0 ->
    SwiftClassmember.handle_signature temp objtype
      (name ++ "("%char :: params ++ ")"%char :: tail) = Ok h ->
    SwiftClassmember.h_method_name h = name
    /\ SwiftClassmember.h_parameter_list h = Some params
    /\ SwiftClassmember.h_rest h = tail
    /\ (params = [] -> SwiftClassmember.h_parameters h = [])
    /\ (params <> [] ->
        SwiftClassmember._parse_parameter_list params
        = Ok (SwiftClassmember.h_parameters h)).
Proof.
  intros temp objtype name params tail h Hp Ha Ho Hc H.
  unfold SwiftClassmember.handle_signature in H.
  rewrite callable_rest, callable_cut, callable_method_name in H by assumption.
  destruct params as [|c params].
  - cbn [len List.length Z.of_nat Z.ltb Z.compare bind] in H.
    injection H as <-. cbn. repeat split; congruence.
  - rewrite len_cons in H. pose proof (len_nonneg params) as Hl.
    destruct (Z.ltb_spec 0 (len params + 1)); [|lia].
    destruct (SwiftClassmember._parse_parameter_list (c :: params)) as [ps|];
      [|discriminate H].
    cbn [bind] in H. injection H as <-. cbn. repeat split; congruence.
Qed.

Lemma X5_callable_decomposition_witness :
  match SwiftClassmember.handle_signature no_container (s "method")
          (s "run(cb: (Int) -> Void) throws -> Bool") with
  | Ok h =>
      SwiftClassmember.h_method_name h = s "run"
      /\ SwiftClassmember.h_parameter_list h = Some (s "cb: (Int) -> Void")
      /\ SwiftClassmember.h_rest h = s " throws -> Bool"
  | Raise _ => False
  end.
Proof.
  destruct (SwiftClassmember.handle_signature no_container (s "method")
              (s "run(cb: (Int) -> Void) throws -> Bool")) as [h|e] eqn:E.
  - destruct (X5_callable_decomposition no_container (s "method") (s "run")
                (s "cb: (Int) -> Void") (s " throws -> Bool") h)
      as (H1 & H2 & H3 & _).
    + cbn. intuition discriminate.
    + cbn. intuition discriminate.
    + reflexivity.
    + reflexivity.
    + exact E.
    + now repeat split.
  - vm_compute in E. discriminate E.
Defined.

(** ** Callables: what follows the parameter list *)

Lemma startswith_spec (p x : str) :
  Py.startswith x p = true <-> exists b, x = p ++ b.
Proof.
  revert x. induction p as [|a p IH]; intros x.
  - rewrite startswith_nil. split; [intros _; now exists x|reflexivity].
  - destruct x as [|c x]; cbn [Py.startswith].
    + split; [discriminate|]. intros (b & E). discriminate E.
    + rewrite andb_true_iff, IH. split.
      * intros [E (b & ->)]. apply Ascii.eqb_eq in E. subst. now exists b.
      * intros (b & E). injection E as -> ->. split; [apply Ascii.eqb_refl|now exists b].
Qed.

Lemma find_from_none (sub x : str) :
  forall k, 0 <= k -> Py.find_from sub x k = -1 ->
            forall a, ~ occurs_at sub x a.
Proof.
  induction x as [|c t IH]; intros k Hk H a (b & E).
  - cbn [Py.find_from] in H.
    destruct (Py.startswith [] sub) eqn:Es; [lia|].
    destruct a; [|discriminate E]. destruct sub; [|discriminate E].
    discriminate Es.
  - cbn [Py.find_from] in H.
    destruct (Py.startswith (c :: t) sub) eqn:Es; [lia|].
    destruct a as [|c' a].
    + assert (Ht : Py.startswith (c :: t) sub = true)
        by (apply startswith_spec; now exists b).
      congruence.
    + injection E as <- E.
      apply (IH (k + 1) ltac:(lia) H a). now exists b.
Qed.

Lemma find_from_found (sub x : str) :
  forall k r, 0 <= k -> Py.find_from sub x k = r -> r <> -1 ->
    exists a, occurs_at sub x a /\ r = k + len a
              /\ forall a', occurs_at sub x a' -> len a <= len a'.
Proof.
  induction x as [|c t IH]; intros k r Hk H Hr.
  - cbn [Py.find_from] in H.
    destruct (Py.startswith [] sub) eqn:Es; [|congruence].
    apply startswith_spec in Es. destruct Es as (b & E).
    exists []. split; [now exists b|]. split; [cbn; lia|].
    intros a' _. apply len_nonneg.
  - cbn [Py.find_from] in H.
    destruct (Py.startswith (c :: t) sub) eqn:Es.
    + apply startswith_spec in Es. destruct Es as (b & E).
      exists []. split; [now exists b|]. split; [cbn; lia|].
      intros a' _. apply len_nonneg.
    + destruct (IH (k + 1) r ltac:(lia) H Hr) as (a & (b & E) & -> & Hmin).
      exists (c :: a). split; [exists b; now rewrite E|].
      split; [rewrite len_cons; lia|].
      intros a' (b' & E'). destruct a' as [|c' a'].
      * assert (Ht : Py.startswith (c :: t) sub = true)
          by (apply startswith_spec; now exists b').
        congruence.
      * injection E' as <- E'. rewrite !len_cons.
        assert (len a <= len a') by (apply Hmin; now exists b'). lia.
Qed.

Lemma find_nonneg_iff (x sub : str) :
  (0 <=? Py.find x sub) = true <-> exists a, occurs_at sub x a.
Proof.
  unfold Py.find. split.
  - intros H. apply Z.leb_le in H.
    destruct (find_from_found sub x 0 _ ltac:(lia) eq_refl ltac:(lia))
      as (a & Ha & _).
    now exists a.
  - intros (a & Ha). apply Z.leb_le.
    destruct (Z.eq_dec (Py.find_from sub x 0) (-1)) as [E|E].
    + exfalso. now apply (find_from_none sub x 0 ltac:(lia) E a).
    + destruct (find_from_found sub x 0 _ ltac:(lia) eq_refl E) as (a0 & _ & -> & _).
      pose proof (len_nonneg a0). lia.
Qed.

Lemma find_first_occurrence (x sub a b : str) :
  x = a ++ sub ++ b ->
  (forall a', occurs_at sub x a' -> len a <= len a') ->
  Py.find x sub = len a.
Proof.
  intros E Hmin. unfold Py.find.
  destruct (Z.eq_dec (Py.find_from sub x 0) (-1)) as [En|En].
  - exfalso. apply (find_from_none sub x 0 ltac:(lia) En a). now exists b.
  - destruct (find_from_found sub x 0 _ ltac:(lia) eq_refl En)
      as (a0 & Ha0 & -> & Hmin0).
    assert (len a0 <= len a) by (apply Hmin0; now exists b).
    assert (len a <= len a0) by now apply Hmin.
    lia.
Qed.

(** X6.  What a callable reads off the text after its parameter list.  It
    is marked as throwing exactly when that text holds the letters
    [throws] somewhere, so also for [rethrows]; it has a return type
    exactly when the text holds an arrow, and the return type is the
    trimmed text after the first arrow. *)
Theorem X6_callable_tail :
  forall (temp : temp_data) (objtype sig : str) (h : SwiftClassmember.handled),
    SwiftClassmember.handle_signature temp objtype sig = Ok h ->
    (SwiftClassmember.h_throws h = true
     <-> exists a, occurs_at (s "throws") (SwiftClassmember.h_rest h) a)
    /\ (SwiftClassmember.h_return_type h = None
        <-> forall a, ~ occurs_at (s "->") (SwiftClassmember.h_rest h) a)
    /\ (forall a b,
           SwiftClassmember.h_rest h = a ++ s "->" ++ b ->
           (forall a', occurs_at (s "->") (SwiftClassmember.h_rest h) a' ->
                       len a <= len a') ->
           SwiftClassmember.h_return_type h = Some (Py.strip b)).
Proof.
  intros temp objtype sig h H.
  unfold SwiftClassmember.handle_signature in H.
  destruct (SwiftClassmember.cut_parameter_list _) as [pl rest].
  destruct (match pl with
            | Some pl0 => if 0 <? len pl0
                          then SwiftClassmember._parse_parameter_list pl0 else Ok []
            | None => Ok []
            end) as [ps|]; [|discriminate H].
  cbn [bind] in H. cbv beta zeta in H. injection H as <-.
  cbn [SwiftClassmember.h_throws SwiftClassmember.h_rest
       SwiftClassmember.h_return_type].
  change ["-"%char; ">"%char] with (s "->").
  split; [apply find_nonneg_iff|]. split.
  - pose proof (find_nonneg_iff rest (s "->")) as Hi.
    destruct (0 <=? Py.find rest (s "->")); cbv iota.
    + split; [discriminate|]. intros Hn. exfalso.
      destruct (proj1 Hi eq_refl) as (a & Ha). now apply (Hn a).
    + split; [|reflexivity]. intros _ a Ha.
      assert (false = true) by (apply Hi; now exists a). discriminate.
  - intros a b E Hmin. rewrite (find_first_occurrence _ _ _ _ E Hmin).
    pose proof (len_nonneg a).
    destruct (Z.leb_spec 0 (len a)); [|lia].
    f_equal. f_equal. rewrite E.
    replace (a ++ s "->" ++ b) with ((a ++ s "->") ++ b) by now rewrite <- app_assoc.
    replace (len a + 2) with (len (a ++ s "->")) by (rewrite len_app; reflexivity).
    apply slice_from_app.
Qed.

Lemma X6_callable_tail_witness :
  match SwiftClassmember.handle_signature no_container (s "method")
          (s "map(f: (T) -> U) rethrows -> [U]") with
  | Ok h =>
      SwiftClassmember.h_throws h = true
      <-> exists a, occurs_at (s "throws") (SwiftClassmember.h_rest h) a
  | Raise _ => False
  end.
Proof.
  destruct (SwiftClassmember.handle_signature no_container (s "method")
              (s "map(f: (T) -> U) rethrows -> [U]")) as [h|e] eqn:E.
  - exact (proj1 (X6_callable_tail _ _ _ h E)).
  - vm_compute in E. discriminate E.
Defined.

(** ** Parameters: what a declared name can hold *)

Lemma lstrip_incl (c : ascii) (x : str) : In c (Py.lstrip x) -> In c x.
Proof.
  induction x as [|a x IH]; cbn [Py.lstrip]; [tauto|].
  destruct (Py.isspace a); [|tauto]. intros H. right. now apply IH.
Qed.

Lemma strip_incl (c : ascii) (x : str) : In c (Py.strip x) -> In c x.
Proof.
  unfold Py.strip, Py.rstrip. intros H.
  apply in_rev in H. apply lstrip_incl in H. apply in_rev in H.
  now apply lstrip_incl.
Qed.

Lemma mapM_Forall2 {A B : Type} (f : A -> result B) (l : list A) :
  forall ys, mapM f l = Ok ys -> Forall2 (fun x y => f x = Ok y) l ys.
Proof.
  induction l as [|x l IH]; intros ys H; cbn [mapM] in H.
  - injection H as <-. constructor.
  - destruct (f x) as [y|] eqn:E; [|discriminate H]. cbn [bind] in H.
    destruct (mapM f l) as [ys'|]; [|discriminate H]. cbn [bind] in H.
    injection H as <-. constructor; [assumption|now apply IH].
Qed.

Lemma chunks_from_length (text : str) (positions : list nat) :
  forall from, List.length (chunks_from text from positions) = S (List.length positions).
Proof.
  induction positions as [|i r IH]; intros from; cbn [chunks_from List.length].
  - reflexivity.
  - now rewrite IH.
Qed.

Lemma parsed_names (chunk : str) (p : SwiftClassmember.Param) :
  SwiftClassmember.parse_parameter chunk = Ok p ->
  ~ In ":"%char (SwiftClassmember.name p)
  /\ ~ In " "%char (SwiftClassmember.name p)
  /\ ~ In ":"%char (SwiftClassmember.variable_name p).
Proof.
  intros H.
  destruct (in_dec ascii_dec ":"%char chunk) as [Hin|Hout];
    [|rewrite parse_parameter_raises in H by assumption; discriminate H].
  destruct (first_occurrence _ _ Hin) as (n & r & -> & Hn).
  destruct (parse_parameter_ok n r Hn) as (p' & Hp & [Hone Htwo] & _).
  rewrite Hp in H. injection H as ->.
  assert (Hc : ~ In ":"%char (Py.strip n)).
  { intros Hs. apply Hn. now apply strip_incl. }
  destruct (in_dec ascii_dec " "%char (Py.strip n)) as [Hsp|Hsp].
  - destruct (first_occurrence _ _ Hsp) as (a & b & E & Ha).
    destruct (Htwo a b E Ha) as [-> ->].
    rewrite E in Hc.
    split; [|split]; [|assumption|]; intros Hx; apply Hc; apply in_or_app;
      [now left|right; now right].
  - destruct (Hone Hsp) as [-> ->]. now repeat split.
Qed.

Lemma count_app (c : ascii) (x y : str) :
  Py.count c (x ++ y) = Py.count c x + Py.count c y.
Proof. unfold Py.count. rewrite filter_app. apply len_app. Qed.

Lemma count_absent (c : ascii) (x : str) : ~ In c x -> Py.count c x = 0.
Proof.
  induction x as [|a x IH]; intros H; [reflexivity|].
  rewrite count_cons. destruct (Ascii.eqb_spec c a) as [->|_].
  - exfalso. apply H. now left.
  - rewrite IH; [reflexivity|]. intros Hx. apply H. now right.
Qed.

Lemma parameter_key_colons (p : SwiftClassmember.Param) :
  ~ In ":"%char (SwiftClassmember.name p) ->
  ~ In ":"%char (SwiftClassmember.variable_name p) ->
  Py.count ":" (SwiftClassmember.parameter_key p) = 1.
Proof.
  intros Hn Hv. unfold SwiftClassmember.parameter_key.
  destruct (Py.str_eqb _ _); rewrite !count_app, !(count_absent _ _ Hn);
    rewrite ?(count_absent _ _ Hv); reflexivity.
Qed.

(** X7.  The parameters of a list that is parsed.  There is one parameter
    for every top-level chunk; a declared name has no space and no colon,
    a local name no colon; so that the canonical key of the list has one
    colon for each parameter, whatever the types and the default values
    are. *)
Theorem X7_parameter_names :
  forall (text : str) (ps : list SwiftClassmember.Param),
    SwiftClassmember._parse_parameter_list text = Ok ps ->
    len ps = len (top_level_commas text) + 1
    /\ Forall (fun p => ~ In ":"%char (SwiftClassmember.name p)
                        /\ ~ In " "%char (SwiftClassmember.name p)
                        /\ ~ In ":"%char (SwiftClassmember.variable_name p)) ps
    /\ Py.count ":" (flat_map SwiftClassmember.parameter_key ps) = len ps.
Proof.
  intros text ps H. unfold SwiftClassmember._parse_parameter_list in H.
  apply mapM_Forall2 in H.
  assert (Hn : Forall (fun p => ~ In ":"%char (SwiftClassmember.name p)
                                /\ ~ In " "%char (SwiftClassmember.name p)
                                /\ ~ In ":"%char (SwiftClassmember.variable_name p)) ps).
  { clear - H. induction H as [|x y l l' Hxy _ IH]; constructor; [|exact IH].
    now apply (parsed_names x). }
  split; [|split; [exact Hn|]].
  - apply Forall2_length in H. rewrite split_parameters_refines in H.
    unfold top_level_chunks in H. rewrite chunks_from_length in H.
    unfold len. lia.
  - clear H. induction Hn as [|p ps (Hc & _ & Hv) _ IH]; [reflexivity|].
    cbn [flat_map]. rewrite count_app, IH, parameter_key_colons, len_cons by assumption.
    lia.
Qed.

Lemma X7_parameter_names_witness :
  len [ {| SwiftClassmember.name := s "x"; SwiftClassmember.variable_name := s "x";
           SwiftClassmember.type := s "Int"; SwiftClassmember.default := None |};
        {| SwiftClassmember.name := s "y"; SwiftClassmember.variable_name := s "label";
           SwiftClassmember.type := s "[String: Int]";
           SwiftClassmember.default := Some (s "[:]") |} ]
  = len (top_level_commas (s "x: Int, y label: [String: Int] = [:]")) + 1.
Proof.
  exact (proj1 (X7_parameter_names (s "x: Int, y label: [String: Int] = [:]") _ eq_refl)).
Defined.

(** ** Trimming *)

Lemma lstrip_idem (x : str) : Py.lstrip (Py.lstrip x) = Py.lstrip x.
Proof.
  induction x as [|c x IH]; [reflexivity|]. cbn [Py.lstrip].
  destruct (Py.isspace c) eqn:E; [exact IH|].
  cbn [Py.lstrip]. now rewrite E.
Qed.

Lemma lstrip_head (x : str) (c : ascii) (t : str) :
  Py.lstrip x = c :: t -> Py.isspace c = false.
Proof.
  induction x as [|a x IH]; cbn [Py.lstrip]; [discriminate|].
  destruct (Py.isspace a) eqn:E; [exact IH|].
  intros H. injection H as <- _. exact E.
Qed.

Lemma lstrip_fixed (c : ascii) (t : str) :
  Py.isspace c = false -> Py.lstrip (c :: t) = c :: t.
Proof. intros E. cbn [Py.lstrip]. now rewrite E. Qed.

Lemma lstrip_suffix (x : str) : exists sp, x = sp ++ Py.lstrip x.
Proof.
  induction x as [|a x (sp & IH)]; [now exists []|]. cbn [Py.lstrip].
  destruct (Py.isspace a).
  - exists (a :: sp). cbn. now f_equal.
  - now exists [].
Qed.

Lemma rstrip_prefix (x : str) : exists sp, x = Py.rstrip x ++ sp.
Proof.
  unfold Py.rstrip. destruct (lstrip_suffix (rev x)) as (sp & E).
  exists (rev sp). rewrite <- rev_app_distr, <- E. now rewrite rev_involutive.
Qed.

Lemma rstrip_idem (x : str) : Py.rstrip (Py.rstrip x) = Py.rstrip x.
Proof. unfold Py.rstrip. now rewrite rev_involutive, lstrip_idem. Qed.

Lemma strip_idem (x : str) : Py.strip (Py.strip x) = Py.strip x.
Proof.
  unfold Py.strip.
  assert (E : Py.lstrip (Py.rstrip (Py.lstrip x)) = Py.rstrip (Py.lstrip x)).
  { destruct (rstrip_prefix (Py.lstrip x)) as (sp & Ep).
    destruct (Py.rstrip (Py.lstrip x)) as [|c t] eqn:Er; [reflexivity|].
    apply lstrip_fixed. cbn in Ep. now apply (lstrip_head x c (t ++ sp)). }
  rewrite E. apply rstrip_idem.
Qed.

(** ** Enum cases: name, associated values and raw value *)

Lemma rsplit1_absent (sep : ascii) (x : str) :
  ~ In sep x -> Py.rsplit1 x sep = [x].
Proof.
  intros H. unfold Py.rsplit1. rewrite split1_absent.
  - cbn. now rewrite rev_involutive.
  - intros Hr. apply H. now apply in_rev.
Qed.

Lemma rsplit1_at (sep : ascii) (a r : str) :
  ~ In sep r -> Py.rsplit1 (a ++ sep :: r) sep = [a; r].
Proof.
  intros H. unfold Py.rsplit1.
  rewrite rev_app_distr. cbn [rev]. rewrite <- app_assoc. cbn [app].
  rewrite split1_at.
  - cbn. now rewrite !rev_involutive.
  - intros Hr. apply H. now apply in_rev.
Qed.

Lemma payload_of_eq (v : str) :
  (if Py.str_eqb v [] then None else Some (s "(" ++ v)) = payload_of v.
Proof. now destruct v. Qed.

(** X8.  How an enum case is read.  The parse always returns, and the key
    is the name of the case behind the name of the container.  Without an
    opening round bracket the signature is cut at its first equals sign
    into the name and the raw value.  With one, the name is the text in
    front of the first opening round bracket, and what follows it,
    trimmed, is cut at its last equals sign into the associated values and
    the raw value; the associated values keep their closing bracket.  Every
    piece is trimmed. *)
Theorem X8_enum_case :
  forall (temp : temp_data) (sig : str),
  exists h,
    SwiftEnumCase.handle_signature temp sig = Ok h
    /\ SwiftEnumCase.returned h
       = (container_prefix temp ++ SwiftEnumCase.enum_case h,
          container_prefix temp ++ SwiftEnumCase.enum_case h, true)
    /\ (~ In "("%char sig ->
        SwiftEnumCase.assoc_value h = None
        /\ (~ In "="%char sig ->
            SwiftEnumCase.enum_case h = Py.strip sig
            /\ SwiftEnumCase.raw_value h = None)
        /\ (forall nm raw,
               sig = nm ++ "="%char :: raw -> ~ In "="%char nm ->
               SwiftEnumCase.enum_case h = Py.strip nm
               /\ SwiftEnumCase.raw_value h = Some (Py.strip raw)))
    /\ (forall nm payload,
           sig = nm ++ "("%char :: payload -> ~ In "("%char nm ->
           SwiftEnumCase.enum_case h = Py.strip nm
           /\ (~ In "="%char (Py.strip payload) ->
               SwiftEnumCase.assoc_value h = payload_of (Py.strip payload)
               /\ SwiftEnumCase.raw_value h = None)
           /\ (forall a r,
                  Py.strip payload = a ++ "="%char :: r -> ~ In "="%char r ->
                  SwiftEnumCase.assoc_value h = payload_of (Py.strip a)
                  /\ SwiftEnumCase.raw_value h = Some (Py.strip r))).
Proof.
  intros temp sig. unfold SwiftEnumCase.handle_signature.
  assert (Hkey : forall e : str,
             match swift_class temp with
             | Some c => if truthy c then c ++ s "." ++ e else e
             | None => e
             end = container_prefix temp ++ e).
  { intros e. unfold container_prefix.
    destruct (swift_class temp) as [c|]; [|reflexivity].
    destruct (truthy c); [now rewrite <- app_assoc|reflexivity]. }
  destruct (in_dec ascii_dec "("%char sig) as [Hin|Hout].
  - destruct (first_occurrence _ _ Hin) as (nm & payload & E & Hnm).
    assert (Hs : Py.split1 sig "(" = [nm; payload])
      by (rewrite E; now apply split1_at).
    rewrite Hs. cbn [map].
    rewrite index_0. cbn [bind]. unfold len at 1.
    cbn [List.length Z.of_nat Z.ltb Z.compare Pos.compare Pos.compare_cont
         Pos.of_succ_nat Pos.succ].
    rewrite index_1. cbn [bind]. rewrite strip_idem.
    destruct (in_dec ascii_dec "="%char (Py.strip payload)) as [Heq|Hne].
    + destruct (last_occurrence _ _ Heq) as (a & r & Ep & Hr).
      assert (Hs2 : Py.rsplit1 (Py.strip payload) "=" = [a; r])
        by (rewrite Ep; now apply rsplit1_at).
      rewrite Hs2.
      rewrite index_0. cbn [bind]. unfold len at 1.
      cbn [List.length Z.of_nat Z.ltb Z.compare Pos.compare Pos.compare_cont
           Pos.of_succ_nat Pos.succ].
      rewrite index_1. cbn [bind fst snd]. rewrite payload_of_eq.
      eexists. split; [reflexivity|].
      cbn [SwiftEnumCase.returned SwiftEnumCase.enum_case
           SwiftEnumCase.assoc_value SwiftEnumCase.raw_value].
      split; [now rewrite Hkey|]. split; [intros Hno; contradiction|].
      intros nm' payload' E' Hnm'. rewrite E in E'.
      destruct (first_occurrence_unique _ _ _ _ _ E' Hnm Hnm') as [<- <-].
      split; [reflexivity|]. split; [intros Hno; contradiction|].
      intros a' r' Ep' Hr'. rewrite Ep in Ep'.
      destruct (last_occurrence_unique _ _ _ _ _ Ep' Hr Hr') as [<- <-].
      now split.
    + rewrite rsplit1_absent by assumption.
      rewrite index_0. cbn [bind]. unfold len at 1.
      cbn [List.length Z.of_nat Z.ltb Z.compare Pos.compare Pos.compare_cont
           Pos.of_succ_nat Pos.succ bind fst snd].
      rewrite strip_idem, payload_of_eq.
      eexists. split; [reflexivity|].
      cbn [SwiftEnumCase.returned SwiftEnumCase.enum_case
           SwiftEnumCase.assoc_value SwiftEnumCase.raw_value].
      split; [now rewrite Hkey|]. split; [intros Hno; contradiction|].
      intros nm' payload' E' Hnm'. rewrite E in E'.
      destruct (first_occurrence_unique _ _ _ _ _ E' Hnm Hnm') as [<- <-].
      split; [reflexivity|]. split; [now split|].
      intros a r Ep _. exfalso. apply Hne. rewrite Ep.
      apply in_or_app. right. now left.
  - rewrite split1_absent by assumption. cbn [map].
    rewrite index_0. cbn [bind]. unfold len at 1.
    cbn [List.length Z.of_nat Z.ltb Z.compare Pos.compare Pos.compare_cont
         Pos.of_succ_nat Pos.succ].
    destruct (in_dec ascii_dec "="%char sig) as [Heq|Hne].
    + destruct (first_occurrence _ _ Heq) as (nm & raw & E & Hnm).
      assert (Hs : Py.split1 sig "=" = [nm; raw])
        by (rewrite E; now apply split1_at).
      rewrite Hs. cbn [map].
      rewrite index_0. cbn [bind]. unfold len at 1.
      cbn [List.length Z.of_nat Z.ltb Z.compare Pos.compare Pos.compare_cont
           Pos.of_succ_nat Pos.succ].
      rewrite index_1. cbn [bind fst snd]. rewrite !strip_idem.
      eexists. split; [reflexivity|].
      cbn [SwiftEnumCase.returned SwiftEnumCase.enum_case
           SwiftEnumCase.assoc_value SwiftEnumCase.raw_value].
      split; [now rewrite Hkey|]. split.
      * intros _. split; [reflexivity|]. split; [intros Hno; contradiction|].
        intros nm' raw' E' Hnm'. rewrite E in E'.
        destruct (first_occurrence_unique _ _ _ _ _ E' Hnm Hnm') as [<- <-].
        now split.
      * intros nm' payload' E' _. exfalso. apply Hout. rewrite E'.
        apply in_or_app. right. now left.
    + rewrite split1_absent by assumption. cbn [map].
      rewrite index_0. cbn [bind]. unfold len at 1.
      cbn [List.length Z.of_nat Z.ltb Z.compare Pos.compare Pos.compare_cont
           Pos.of_succ_nat Pos.succ bind fst snd].
      rewrite !strip_idem.
      eexists. split; [reflexivity|].
      cbn [SwiftEnumCase.returned SwiftEnumCase.enum_case
           SwiftEnumCase.assoc_value SwiftEnumCase.raw_value].
      split; [now rewrite Hkey|]. split.
      * intros _. split; [reflexivity|]. split; [now split|].
        intros nm raw E _. exfalso. apply Hne. rewrite E.
        apply in_or_app. right. now left.
      * intros nm' payload' E' _. exfalso. apply Hout. rewrite E'.
        apply in_or_app. right. now left.
Qed.

Lemma X8_enum_case_witness :
  exists h,
    SwiftEnumCase.handle_signature no_container (s "circle(radius: Double) = 2") = Ok h
    /\ SwiftEnumCase.enum_case h = s "circle"
    /\ SwiftEnumCase.assoc_value h = Some (s "(radius: Double)")
    /\ SwiftEnumCase.raw_value h = Some (s "2").
Proof.
  destruct (X8_enum_case no_container (s "circle(radius: Double) = 2"))
    as (h & Hh & _ & _ & Hp).
  exists h. split; [exact Hh|].
  destruct (Hp (s "circle") (s "radius: Double) = 2") eq_refl) as (Hn & _ & Hr).
  - cbn. intuition discriminate.
  - split; [exact Hn|].
    apply (Hr (s "radius: Double) ") (s " 2") eq_refl).
    cbn. intuition discriminate.
Defined.

(** ** The matcher reads what the pattern spans *)

Lemma prev_after_nil (prev : option ascii) : prev_after prev [] = prev.
Proof. reflexivity. Qed.

Lemma prev_after_cons (prev : option ascii) (a : ascii) (v : str) :
  prev_after prev (a :: v) = prev_after (Some a) v.
Proof.
  unfold prev_after. cbn [rev]. now destruct (rev v).
Qed.

Lemma prev_after_app (prev : option ascii) (v1 v2 : str) :
  prev_after prev (v1 ++ v2) = prev_after (prev_after prev v1) v2.
Proof.
  unfold prev_after. rewrite rev_app_distr.
  destruct (rev v2); [|reflexivity]. cbn [app]. now destruct (rev v1).
Qed.

Lemma star_sound (p : ascii -> bool) (x : str) :
  forall (prev : option ascii) (c : Re.captures) (k : Re.cont) (res : Re.captures),
    Re.star p prev x c k = Some res ->
    exists v x', x = v ++ x' /\ forallb p v = true
                 /\ k (prev_after prev v) x' c = Some res.
Proof.
  induction x as [|a x IH]; intros prev c k res H; cbn [Re.star] in H.
  - exists [], []. now repeat split.
  - destruct (p a) eqn:Ea; [|exists [], (a :: x); now repeat split].
    destruct (Re.star p (Some a) x c k) as [r|] eqn:E.
    + injection H as <-.
      destruct (IH _ _ _ _ E) as (v & x' & -> & Hv & Hk).
      exists (a :: v), x'. split; [reflexivity|]. split.
      * cbn [forallb]. now rewrite Ea.
      * now rewrite prev_after_cons.
    + exists [], (a :: x). now repeat split.
Qed.

Lemma firstn_read (v x' : str) :
  firstn (List.length (v ++ x') - List.length x') (v ++ x') = v.
Proof.
  rewrite length_app, Nat.add_sub, firstn_app, Nat.sub_diag, firstn_all.
  cbn. apply app_nil_r.
Qed.

Lemma run_sound (r : Re.regex) :
  forall (prev : option ascii) (x : str) (c : Re.captures) (k : Re.cont)
         (res : Re.captures),
    Re.run r prev x c k = Some res ->
    exists v x' caps,
      x = v ++ x' /\ spans r prev v x' caps
      /\ k (prev_after prev v) x' (caps ++ c) = Some res.
Proof.
  induction r as [| |p|p| |r1 IH1 r2 IH2|r1 IH1|name r1 IH1];
    intros prev x c k res H; cbn [Re.run] in H.
  - exists [], x, []. now repeat split.
  - destruct prev; [discriminate|]. exists [], x, []. now repeat split.
  - destruct x as [|a t]; [discriminate|]. destruct (p a) eqn:Ea; [|discriminate].
    exists [a], t, []. split; [reflexivity|]. split; [|exact H].
    split; [|reflexivity]. now exists a.
  - destruct (star_sound _ _ _ _ _ _ H) as (v & x' & -> & Hv & Hk).
    exists v, x', []. now repeat split.
  - destruct (xorb _ _) eqn:Ex; [|discriminate].
    exists [], x, []. now repeat split.
  - destruct (IH1 _ _ _ _ _ H) as (v1 & x1 & c1 & -> & S1 & H1).
    destruct (IH2 _ _ _ _ _ H1) as (v2 & x2 & c2 & -> & S2 & H2).
    exists (v1 ++ v2), x2, (c2 ++ c1). split; [now rewrite app_assoc|]. split.
    + cbn [spans]. exists v1, v2, c1, c2. now repeat split.
    + now rewrite prev_after_app, <- app_assoc.
  - destruct (Re.run r1 prev x c k) as [r|] eqn:E.
    + injection H as <-.
      destruct (IH1 _ _ _ _ _ E) as (v & x' & caps & -> & S1 & H1).
      exists v, x', caps. split; [reflexivity|]. split; [now right|exact H1].
    + exists [], x, []. split; [reflexivity|]. split; [now left|exact H].
  - destruct (IH1 _ _ _ _ _ H) as (v & x' & c1 & -> & S1 & H1).
    rewrite firstn_read in H1.
    exists v, x', ((name, v) :: c1). split; [reflexivity|]. split; [|exact H1].
    cbn [spans]. now exists c1.
Qed.

(** ** The matcher finds a way to read when there is one *)

Lemma star_complete (p : ascii -> bool) (v : str) :
  forall (x' : str) (prev : option ascii) (c : Re.captures) (k : Re.cont)
         (res : Re.captures),
    forallb p v = true ->
    k (prev_after prev v) x' c = Some res ->
    exists res', Re.star p prev (v ++ x') c k = Some res'.
Proof.
  induction v as [|a v IH]; intros x' prev c k res Hv Hk.
  - cbn [app]. rewrite prev_after_nil in Hk.
    destruct x' as [|b t]; cbn [Re.star]; [eauto|].
    destruct (p b); [|eauto].
    destruct (Re.star p (Some b) t c k); eauto.
  - cbn [forallb] in Hv. apply andb_true_iff in Hv. destruct Hv as [Ea Hv].
    cbn [app Re.star]. rewrite Ea.
    rewrite prev_after_cons in Hk.
    destruct (IH x' (Some a) c k res Hv Hk) as (res' & ->). eauto.
Qed.

Lemma opt_total (r : Re.regex) (k : Re.cont) :
  (forall prev x c, exists res, k prev x c = Some res) ->
  forall prev x c, exists res, Re.run (Re.Opt r) prev x c k = Some res.
Proof.
  intros Hk prev x c. cbn [Re.run].
  destruct (Re.run r prev x c k); [eauto|apply Hk].
Qed.

(** ** The character classes of [var_sig] *)

Lemma name_start_char (c : ascii) :
  SwiftClassIvar.name_start c = true -> SwiftClassIvar.name_char c = true.
Proof.
  destruct c as [[] [] [] [] [] [] [] []]; vm_compute; intros H;
    first [reflexivity|discriminate H].
Qed.

Lemma name_char_word (c : ascii) :
  SwiftClassIvar.name_char c = true -> Py.isword c = true.
Proof.
  destruct c as [[] [] [] [] [] [] [] []]; vm_compute; intros H;
    first [reflexivity|discriminate H].
Qed.

Lemma name_char_not_space (c : ascii) :
  SwiftClassIvar.name_char c = true -> Py.isspace c = false.
Proof.
  destruct c as [[] [] [] [] [] [] [] []]; vm_compute; intros H;
    first [reflexivity|discriminate H].
Qed.

Lemma value_char_brace (v : str) :
  forallb SwiftClassIvar.value_char v = true -> ~ In "{"%char v.
Proof.
  intros H Hin. rewrite forallb_forall in H. specialize (H _ Hin).
  discriminate H.
Qed.

Lemma identifier_chars (nm : str) :
  identifier nm -> forallb SwiftClassIvar.name_char nm = true.
Proof.
  intros (a & rest & -> & Ha & Hr). cbn [forallb].
  now rewrite (name_start_char _ Ha).
Qed.

Lemma prev_after_word (prev : option ascii) (nm : str) :
  identifier nm -> Re.word_at (prev_after prev nm) = true.
Proof.
  intros Hi. pose proof (identifier_chars _ Hi) as Hc.
  destruct Hi as (a & rest & -> & _ & _).
  unfold prev_after. destruct (rev (a :: rest)) as [|b t] eqn:E.
  - apply (f_equal (@List.length ascii)) in E. rewrite length_rev in E.
    discriminate E.
  - cbn [Re.word_at]. apply name_char_word.
    rewrite forallb_forall in Hc. apply Hc. apply in_rev. rewrite E. now left.
Qed.

Lemma strip_identifier (nm : str) : identifier nm -> Py.strip nm = nm.
Proof.
  intros Hi. pose proof (identifier_chars _ Hi) as Hc.
  rewrite forallb_forall in Hc.
  destruct Hi as (a & rest & -> & _ & _).
  unfold Py.strip. rewrite lstrip_fixed
    by (apply name_char_not_space, Hc; now left).
  unfold Py.rstrip. destruct (rev (a :: rest)) as [|b t] eqn:E.
  - apply (f_equal (@List.length ascii)) in E. rewrite length_rev in E.
    discriminate E.
  - rewrite lstrip_fixed.
    + rewrite <- E. apply rev_involutive.
    + apply name_char_not_space, Hc. apply in_rev. rewrite E. now left.
Qed.

(** A run of characters of a class that ends where the class ends is the
    only such run at its place. *)
Lemma run_unique (p : ascii -> bool) (u u' t t' : str) :
  u ++ t = u' ++ t' ->
  forallb p u = true -> forallb p u' = true ->
  match t with [] => True | c :: _ => p c = false end ->
  match t' with [] => True | c :: _ => p c = false end ->
  u = u' /\ t = t'.
Proof.
  revert u'. induction u as [|a u IH]; intros u' E Hu Hu' Ht Ht'.
  - destruct u' as [|a' u']; [now split|].
    cbn in E. subst t. cbn in Hu'. apply andb_true_iff in Hu'.
    destruct Hu' as [Ha' _]. congruence.
  - destruct u' as [|a' u'].
    + cbn in E. subst t'. cbn in Hu. apply andb_true_iff in Hu.
      destruct Hu as [Ha _]. congruence.
    + cbn in E. injection E as <- E.
      cbn in Hu, Hu'. apply andb_true_iff in Hu, Hu'.
      destruct (IH u' E) as [-> ->]; tauto.
Qed.

Lemma declares_unique (sig nm nm' : str) :
  declares sig nm -> declares sig nm' -> nm = nm'.
Proof.
  intros (ws & after & E & Hws & Hi & Hb) (ws' & after' & E' & Hws' & Hi' & Hb').
  pose proof (identifier_chars _ Hi) as Hc.
  pose proof (identifier_chars _ Hi') as Hc'.
  assert (Hh : forall n t, identifier n ->
               match n ++ t with [] => True | c :: _ => Py.isspace c = false end).
  { intros n t (a & rest & -> & Ha & _). cbn.
    now apply name_char_not_space, name_start_char. }
  rewrite E in E'.
  destruct (run_unique Py.isspace ws ws' (nm ++ after) (nm' ++ after') E' Hws Hws')
    as [_ E2]; [now apply Hh|now apply Hh|].
  assert (Ha : forall t, Re.word_at (hd_error t) = false ->
               match t with [] => True | c :: _ => SwiftClassIvar.name_char c = false end).
  { intros [|c t] H; [exact I|]. cbn in H.
    destruct (SwiftClassIvar.name_char c) eqn:Ec; [|reflexivity].
    apply name_char_word in Ec. congruence. }
  destruct (run_unique SwiftClassIvar.name_char nm nm' after after' E2 Hc Hc')
    as [-> _]; [now apply Ha|now apply Ha|reflexivity].
Qed.

(** ** What [var_sig] matches *)

Lemma group_app (c1 c2 : Re.captures) (name : string) :
  Re.group (c1 ++ c2) name
  = match Re.group c1 name with
    | Some v => Some v
    | None => Re.group c2 name
    end.
Proof.
  induction c1 as [|[n v] c1 IH]; [reflexivity|]. cbn [app Re.group].
  now destruct (String.eqb n name).
Qed.

Lemma var_sig_spans (sig : str) (m : Re.captures) :
  Re.match_ SwiftClassIvar.var_sig sig = Some m ->
  exists nm tcaps vcaps,
    declares sig nm
    /\ m = vcaps ++ tcaps ++ [("name"%string, nm)]
    /\ (tcaps = []
        \/ exists b u, tcaps = [("type"%string, b :: u)]
                       /\ SwiftClassIvar.type_start b = true
                       /\ forallb SwiftClassIvar.type_char u = true)
    /\ (vcaps = []
        \/ exists v, vcaps = [("value"%string, v)]
                     /\ forallb SwiftClassIvar.value_char v = true).
Proof.
  unfold Re.match_. intros H.
  destruct (run_sound _ _ _ _ _ _ H) as (v & x' & caps & E & S & Hk).
  injection Hk as <-. rewrite app_nil_r.
  unfold SwiftClassIvar.var_sig, Re.seq in S. cbn [fold_right spans] in S.
  destruct S as (v0 & v1 & c0 & c1 & -> & -> & (_ & -> & ->) & S).
  destruct S as (ws & v2 & cws & c2 & -> & -> & (Hws & ->) & S).
  destruct S as (nm & v3 & cnm & c3 & -> & -> & Sname & S).
  destruct S as (vt & v4 & ct & c4 & -> & -> & Stype & S).
  destruct S as (vv & v5 & cv & c5 & -> & -> & Svalue & (-> & ->)).
  destruct Sname as (cn & Sname & ->).
  destruct Sname as (va & v6 & ca & c6 & -> & -> & ((a & -> & Ha) & ->) & Sname).
  destruct Sname as (rest & v7 & cr & c7 & -> & -> & (Hrest & ->) & Sname).
  destruct Sname as (vb & v8 & cb & c8 & -> & -> & (-> & -> & Hb) & (-> & ->)).
  cbn [app] in *. rewrite !app_nil_r in *.
  assert (Hi : identifier (a :: rest)) by (exists a, rest; now repeat split).
  exists (a :: rest), ct, cv. split; [|split; [|split]].
  - exists ws, (vt ++ vv ++ x'). split; [|split; [assumption|split; [assumption|]]].
    + rewrite E. rewrite <- !app_assoc. cbn [app]. now rewrite <- !app_assoc.
    + rewrite <- (prev_after_app _ [a] rest) in Hb. cbn [app] in Hb.
      rewrite (prev_after_word _ _ Hi), <- app_assoc in Hb.
      destruct (Re.word_at (hd_error (vt ++ vv ++ x'))); [discriminate Hb|reflexivity].
  - now rewrite <- app_assoc.
  - destruct Stype as [[-> ->]|S]; [now left|right].
    destruct S as (w1 & w2 & d1 & d2 & _ & -> & (_ & ->) & S).
    destruct S as (w3 & w4 & d3 & d4 & _ & -> & (_ & ->) & S).
    destruct S as (w5 & w6 & d5 & d6 & _ & -> & (_ & ->) & S).
    destruct S as (w7 & w8 & d7 & d8 & -> & -> & S & (-> & ->)).
    destruct S as (d9 & S & ->).
    destruct S as (wb & w9 & db & d10 & -> & -> & ((b & -> & Hbs) & ->) & S).
    destruct S as (wu & w10 & du & d11 & -> & -> & (Hu & ->) & (-> & ->)).
    exists b, wu. cbn [app]. rewrite ?app_nil_r. now repeat split.
  - destruct Svalue as [[-> ->]|S]; [now left|right].
    destruct S as (w1 & w2 & d1 & d2 & _ & -> & (_ & ->) & S).
    destruct S as (w3 & w4 & d3 & d4 & _ & -> & (_ & ->) & S).
    destruct S as (w5 & w6 & d5 & d6 & _ & -> & (_ & ->) & S).
    destruct S as (w7 & w8 & d7 & d8 & -> & -> & S & (-> & ->)).
    destruct S as (d9 & (Hv & ->) & ->).
    exists w7. cbn [app]. rewrite ?app_nil_r. now split.
Qed.

Lemma star_reads (p : ascii -> bool) (v x' : str) (prev : option ascii)
      (c : Re.captures) (k : Re.cont) :
  forallb p v = true ->
  (exists res, k (prev_after prev v) x' c = Some res) ->
  exists res, Re.star p prev (v ++ x') c k = Some res.
Proof. intros Hv (res & Hk). now apply (star_complete p v x' prev c k res). Qed.

Lemma declaration_matches (tail : Re.regex) (kf : Re.cont) :
  (forall prev x c, exists res, Re.run tail prev x c kf = Some res) ->
  forall (ws : str) (a : ascii) (rest after : str),
    forallb Py.isspace ws = true ->
    SwiftClassIvar.name_start a = true ->
    forallb SwiftClassIvar.name_char rest = true ->
    Re.word_at (hd_error after) = false ->
    exists res,
      Re.run
        (Re.Seq Re.Start
           (Re.Seq (Re.Star Py.isspace)
              (Re.Seq
                 (Re.Group "name"
                    (Re.seq [Re.Class SwiftClassIvar.name_start;
                             Re.Star SwiftClassIvar.name_char;
                             Re.WordBoundary]))
                 tail)))
        None (ws ++ a :: rest ++ after) [] kf = Some res.
Proof.
  intros Htail ws a rest after Hws Ha Hr Hb.
  assert (Hw : Re.word_at (prev_after (Some a) rest) = true).
  { rewrite <- (prev_after_cons None). apply prev_after_word.
    exists a, rest. now repeat split. }
  cbn [Re.run Re.seq fold_right].
  apply star_reads; [assumption|]. cbn beta. rewrite Ha.
  apply star_reads; [assumption|]. cbn beta. rewrite Hw, Hb. cbn [xorb].
  apply Htail.
Qed.

Lemma var_sig_complete (sig nm : str) :
  declares sig nm -> exists m, Re.match_ SwiftClassIvar.var_sig sig = Some m.
Proof.
  intros (ws & after & -> & Hws & (a & rest & -> & Ha & Hr) & Hb).
  unfold Re.match_, SwiftClassIvar.var_sig. cbn [Re.seq fold_right app].
  apply declaration_matches; try assumption.
  intros prev x c. rewrite run_seq.
  apply opt_total. intros prev1 x1 c1. rewrite run_seq.
  apply opt_total. intros prev2 x2 c2. cbn [Re.run]. eauto.
Qed.

Lemma var_sig_declares (sig : str) (m : Re.captures) :
  Re.match_ SwiftClassIvar.var_sig sig = Some m ->
  exists nm, declares sig nm /\ Re.group m "name" = Some nm.
Proof.
  intros H.
  destruct (var_sig_spans _ _ H) as (nm & tcaps & vcaps & Hd & -> & Ht & Hv).
  exists nm. split; [assumption|]. rewrite !group_app.
  destruct Hv as [->|(v & -> & _)]; destruct Ht as [->|(b & u & -> & _)];
    reflexivity.
Qed.

(** X9.  What the pattern of variable declarations captures.  When it
    matches, the text starts, after white space, with an identifier that no
    word character follows, and that identifier is the group [name]; the
    group [type], when it took part, starts with a letter, an underscore
    or an opening bracket and goes on with characters of the type class;
    the group [value], when it took part, has no opening brace. *)
Theorem X9_var_sig_captures :
  forall (sig : str) (m : Re.captures),
    Re.match_ SwiftClassIvar.var_sig sig = Some m ->
    (exists nm, declares sig nm /\ Re.group m "name" = Some nm)
    /\ (forall t, Re.group m "type" = Some t ->
                  exists b u, t = b :: u
                              /\ SwiftClassIvar.type_start b = true
                              /\ forallb SwiftClassIvar.type_char u = true)
    /\ (forall v, Re.group m "value" = Some v -> ~ In "{"%char v).
Proof.
  intros sig m H.
  destruct (var_sig_spans _ _ H) as (nm & tcaps & vcaps & Hd & -> & Ht & Hv).
  split; [|split].
  - exists nm. split; [assumption|]. rewrite !group_app.
    destruct Hv as [->|(v & -> & _)]; destruct Ht as [->|(b & u & -> & _)];
      reflexivity.
  - intros t. rewrite !group_app.
    destruct Hv as [->|(v & -> & _)]; destruct Ht as [->|(b & u & -> & Hb & Hu)];
      cbn; intros E; try discriminate E; injection E as <-; now exists b, u.
  - intros v. rewrite !group_app.
    destruct Hv as [->|(v0 & -> & Hv0)]; destruct Ht as [->|(b & u & -> & _)];
      cbn; intros E; try discriminate E; injection E as <-;
      now apply value_char_brace.
Qed.

Lemma X9_var_sig_captures_witness :
  exists nm, declares (s "  count : Int = 0") nm
             /\ Re.group [("value"%string, s "0"); ("type"%string, s "Int ");
                          ("name"%string, s "count")] "name" = Some nm.
Proof.
  exact (proj1 (X9_var_sig_captures (s "  count : Int = 0") _ eq_refl)).
Defined.

(** X10.  Which variable declarations are taken.  A declaration that
    starts, after white space, with an identifier that no word character
    follows is taken, and its key is that identifier behind the name of
    the container: neither the type nor the default value is part of the
    key.  Every other declaration is answered with the warning, and
    nothing is returned for it. *)
Theorem X10_variable_key :
  forall (temp : temp_data) (objtype sig : str),
    (forall nm, declares sig nm ->
                exists nodes,
                  SwiftClassIvar.handle_signature temp objtype sig
                  = Ok (SwiftClassIvar.Handled nodes
                          (container_prefix temp ++ nm,
                           container_prefix temp ++ nm, true)))
    /\ ((forall nm, ~ declares sig nm) ->
        SwiftClassIvar.handle_signature temp objtype sig
        = Ok (SwiftClassIvar.Warned
                (s "invalid variable/constant documentation string "
                 ++ [dquote] ++ sig ++ [dquote] ++ s ", ")))
    /\ (forall nodes r,
           SwiftClassIvar.handle_signature temp objtype sig
           = Ok (SwiftClassIvar.Handled nodes r) ->
           exists nm, declares sig nm).
Proof.
  intros temp objtype sig.
  assert (Hkey : forall (nodes : list node) (e : str),
             match swift_class temp with
             | Some c =>
                 if truthy c
                 then Ok (SwiftClassIvar.Handled nodes (c ++ s "." ++ e, c ++ s "." ++ e, true))
                 else Ok (SwiftClassIvar.Handled nodes (e, e, true))
             | None => Ok (SwiftClassIvar.Handled nodes (e, e, true))
             end
             = Ok (SwiftClassIvar.Handled nodes
                     (container_prefix temp ++ e, container_prefix temp ++ e, true))).
  { intros nodes e. unfold container_prefix.
    destruct (swift_class temp) as [c|]; [|reflexivity].
    destruct (truthy c); [now rewrite <- app_assoc|reflexivity]. }
  unfold SwiftClassIvar.handle_signature.
  destruct (Re.match_ SwiftClassIvar.var_sig sig) as [m|] eqn:E.
  - destruct (var_sig_declares sig m E) as (nm0 & Hd0 & Hg).
    rewrite Hg. cbn [bind]. rewrite (strip_identifier nm0)
      by (destruct Hd0 as (_ & _ & _ & _ & Hi & _); exact Hi).
    rewrite Hkey. split; [|split].
    + intros nm Hd. rewrite (declares_unique _ _ _ Hd Hd0). eauto.
    + intros Hno. exfalso. now apply (Hno nm0).
    + intros nodes r _. now exists nm0.
  - split; [|split].
    + intros nm Hd. destruct (var_sig_complete _ _ Hd) as (m & Hm). congruence.
    + reflexivity.
    + intros nodes r Hd. discriminate Hd.
Qed.

Lemma X10_variable_key_witness :
  exists nodes,
    SwiftClassIvar.handle_signature no_container (s "var") (s "count: Int = 0")
    = Ok (SwiftClassIvar.Handled nodes (s "count", s "count", true)).
Proof.
  apply (proj1 (X10_variable_key no_container (s "var") (s "count: Int = 0")) (s "count")).
  exists [], (s ": Int = 0"). split; [reflexivity|]. split; [reflexivity|].
  split; [|reflexivity].
  exists "c"%char, (s "ount"). now repeat split.
Defined.


(** ** Dictionaries *)

Lemma dict_get_set_other {V : Type} (d : Dict.t V) (k k' : str) (v : V) :
  k' <> k -> Dict.get (Dict.set d k v) k' = Dict.get d k'.
Proof.
  intros Hk. induction d as [|[k0 v0] d IH]; cbn [Dict.set Dict.get].
  - destruct (Py.str_eqb k k') eqn:E; [|reflexivity].
    apply str_eqb_eq in E. congruence.
  - destruct (Py.str_eqb k0 k) eqn:E; cbn [Dict.get].
    + apply str_eqb_eq in E. subst k0.
      destruct (Py.str_eqb k k') eqn:E'; [|reflexivity].
      apply str_eqb_eq in E'. congruence.
    + destruct (Py.str_eqb k0 k'); [reflexivity|exact IH].
Qed.

Lemma dict_set_in {V : Type} (d : Dict.t V) (k : str) (v : V) (x : str * V) :
  In x (Dict.set d k v) -> x = (k, v) \/ In x d.
Proof.
  induction d as [|[k0 v0] d IH]; cbn [Dict.set].
  - intros [<-|[]]. now left.
  - destruct (Py.str_eqb k0 k) eqn:E.
    + apply str_eqb_eq in E. subst k0. intros [<-|H]; [now left|right; now right].
    + intros [<-|H]; [right; now left|].
      destruct (IH H) as [->|Hin]; [now left|right; now right].
Qed.

Lemma dict_set_keys {V : Type} (d : Dict.t V) (k : str) (v : V) :
  Dict.keys (Dict.set d k v)
  = if Dict.mem d k then Dict.keys d else Dict.keys d ++ [k].
Proof.
  unfold Dict.mem, Dict.keys.
  induction d as [|[k0 v0] d IH]; cbn [Dict.set Dict.get map fst]; [reflexivity|].
  destruct (Py.str_eqb k0 k) eqn:E; cbn [map fst]; [reflexivity|].
  rewrite IH. now destruct (Dict.get d k).
Qed.

Lemma dict_mem_keys {V : Type} (d : Dict.t V) (k : str) :
  Dict.mem d k = false -> ~ In k (Dict.keys d).
Proof.
  unfold Dict.mem, Dict.keys.
  induction d as [|[k0 v0] d IH]; cbn [Dict.get map fst]; [tauto|].
  destruct (Py.str_eqb k0 k) eqn:E; [discriminate|].
  intros H [Hk|Hin]; [|now apply IH].
  apply str_eqb_neq in E. now apply E.
Qed.

Lemma mem_str_app (x : str) (l l' : list str) :
  SwiftObjectDescription.mem_str x l = true ->
  SwiftObjectDescription.mem_str x (l ++ l') = true.
Proof.
  unfold SwiftObjectDescription.mem_str. rewrite existsb_app. intros ->. reflexivity.
Qed.

Lemma mem_str_last (x : str) (l : list str) :
  SwiftObjectDescription.mem_str x (l ++ [x]) = true.
Proof.
  unfold SwiftObjectDescription.mem_str. rewrite existsb_app. cbn.
  rewrite str_eqb_refl. now rewrite orb_true_r.
Qed.

(** ** Removing a document *)

Lemma clear_doc_in (objects : objects_table) (docname : str) (o : str * object_data) :
  In o (SwiftDomain.clear_doc objects docname)
  <-> In o objects /\ docname_of o <> docname.
Proof.
  unfold SwiftDomain.clear_doc, docname_of. rewrite filter_In.
  rewrite negb_true_iff, str_eqb_neq. reflexivity.
Qed.

Lemma clear_doc_idem (objects : objects_table) (docname : str) :
  SwiftDomain.clear_doc (SwiftDomain.clear_doc objects docname) docname
  = SwiftDomain.clear_doc objects docname.
Proof.
  unfold SwiftDomain.clear_doc.
  induction objects as [|o objects IH]; [reflexivity|]. cbn [filter].
  destruct (negb _) eqn:E; [|exact IH]. cbn [filter]. rewrite E. now f_equal.
Qed.

Lemma entries_of_in (objects : objects_table) (e : SwiftModuleIndex.entry) :
  In e (SwiftModuleIndex.entries_of objects) ->
  exists o, In o objects /\ SwiftModuleIndex.entry_docname e = docname_of o
            /\ SwiftModuleIndex.entry_name e = fst o
            /\ SwiftModuleIndex.entry_anchor e = anchor_of o.
Proof.
  unfold SwiftModuleIndex.entries_of. intros H. apply in_map_iff in H.
  destruct H as ([refname [[docname typ] signature]] & <- & Hin).
  eexists. split; [exact Hin|]. now repeat split.
Qed.

(** X11.  Removing a document.  [clear_doc] takes out the entries of the
    document and nothing else, keeping the order of the others, and doing
    it twice changes nothing more.  Afterwards no reference resolves to
    the removed document and the module index has no entry of it. *)
Theorem X11_clear_doc :
  forall (objects : objects_table) (docname : str),
    (forall o, In o (SwiftDomain.clear_doc objects docname)
               <-> In o objects /\ docname_of o <> docname)
    /\ (forall before after,
           objects = before ++ after ->
           SwiftDomain.clear_doc objects docname
           = SwiftDomain.clear_doc before docname
             ++ SwiftDomain.clear_doc after docname)
    /\ SwiftDomain.clear_doc (SwiftDomain.clear_doc objects docname) docname
       = SwiftDomain.clear_doc objects docname
    /\ (forall fromdocname target f d sg title,
           SwiftDomain.resolve_xref (SwiftDomain.clear_doc objects docname)
                                    fromdocname target
           = Some (SwiftDomain.make_refnode f d sg title) ->
           d <> docname)
    /\ (forall groups collapse b e,
           SwiftModuleIndex.generate (SwiftDomain.clear_doc objects docname)
           = Ok (groups, collapse) ->
           In b groups -> In e (snd b) ->
           SwiftModuleIndex.entry_docname e <> docname).
Proof.
  intros objects docname. split; [|split; [|split; [|split]]].
  - intros o. apply clear_doc_in.
  - intros before after ->. unfold SwiftDomain.clear_doc. apply filter_app.
  - apply clear_doc_idem.
  - intros fromdocname target f d sg title H.
    apply resolve_refnode in H.
    destruct H as (before & refname & typ & after & E & _).
    assert (Hin : In (refname, (d, typ, sg)) (SwiftDomain.clear_doc objects docname)).
    { rewrite E. apply in_or_app. right. now left. }
    apply clear_doc_in in Hin. exact (proj2 Hin).
  - intros groups collapse b e H Hb He.
    destruct (generate_spec _ _ _ H) as (Hp & _).
    assert (Hin : In e (flat_map snd groups)).
    { apply in_flat_map. now exists b. }
    apply (Permutation_in _ Hp) in Hin.
    destruct (entries_of_in _ _ Hin) as (o & Ho & -> & _).
    apply clear_doc_in in Ho. exact (proj2 Ho).
Qed.

(** ** Entering objects *)

Lemma add_cases (doc2path : str -> str) (d : SwiftObjectDescription.directive)
      (key : str) (add : bool) (st st' : SwiftObjectDescription.build) :
  SwiftObjectDescription.add_target_and_index doc2path d (Some (key, key, add)) st
  = Ok st' ->
  (SwiftObjectDescription.document_ids st' = SwiftObjectDescription.document_ids st
   /\ SwiftObjectDescription.objects st' = SwiftObjectDescription.objects st)
  \/ (SwiftObjectDescription.document_ids st'
      = SwiftObjectDescription.note_explicit_target st d key
      /\ SwiftObjectDescription.objects st'
         = Dict.set (SwiftObjectDescription.objects st) key
                    (SwiftObjectDescription.docname d,
                     SwiftObjectDescription.objtype_of d, key)).
Proof.
  unfold SwiftObjectDescription.add_target_and_index.
  destruct (_ || _); [intros H; injection H as <-; now left|].
  destruct (negb (SwiftObjectDescription.mem_str _ _));
    [intros H; injection H as <-; now right|].
  destruct (negb _); [discriminate|].
  destruct (Dict.get _ _) as [[[other t0] s0]|]; [|discriminate].
  intros H; injection H as <-; now left.
Qed.

Lemma note_explicit_target_ids (st : SwiftObjectDescription.build)
      (d : SwiftObjectDescription.directive) (id doc : str) (l : list str) (x : str) :
  Dict.get (SwiftObjectDescription.document_ids st) doc = Some l ->
  SwiftObjectDescription.mem_str x l = true ->
  exists l',
    Dict.get (SwiftObjectDescription.note_explicit_target st d id) doc = Some l'
    /\ SwiftObjectDescription.mem_str x l' = true.
Proof.
  intros Hg Hm. unfold SwiftObjectDescription.note_explicit_target.
  destruct (list_eq_dec ascii_dec doc (SwiftObjectDescription.docname d)) as [->|Hne].
  - rewrite dict_get_set. eexists. split; [reflexivity|].
    unfold SwiftObjectDescription.ids. rewrite Hg.
    destruct (SwiftObjectDescription.mem_str id l); [assumption|now apply mem_str_app].
  - rewrite dict_get_set_other by assumption. now exists l.
Qed.

Lemma note_explicit_target_new (st : SwiftObjectDescription.build)
      (d : SwiftObjectDescription.directive) (id : str) :
  exists l',
    Dict.get (SwiftObjectDescription.note_explicit_target st d id)
             (SwiftObjectDescription.docname d) = Some l'
    /\ SwiftObjectDescription.mem_str id l' = true.
Proof.
  unfold SwiftObjectDescription.note_explicit_target. rewrite dict_get_set.
  eexists. split; [reflexivity|].
  set (l := SwiftObjectDescription.ids st d).
  destruct (SwiftObjectDescription.mem_str id l) eqn:E; [exact E|apply mem_str_last].
Qed.

Lemma reachable_invariants (doc2path : str -> str) (st : SwiftObjectDescription.build) :
  reachable doc2path st ->
  NoDup (Dict.keys (SwiftObjectDescription.objects st))
  /\ well_keyed (SwiftObjectDescription.objects st)
  /\ anchored st.
Proof.
  induction 1 as [|d key add st st' _ (Hn & Hk & Ha) Hadd|docname st _ (Hn & Hk & Ha)].
  - split; [constructor|]. split; constructor.
  - unfold anchored, well_keyed in *.
    destruct (add_cases _ _ _ _ _ _ Hadd) as [[Ei Eo]|[Ei Eo]]; rewrite Ei, Eo.
    + now repeat split.
    + split; [|split].
      * rewrite dict_set_keys.
        destruct (Dict.mem _ key) eqn:Em; [assumption|].
        apply NoDup_app; [assumption|repeat constructor; intros []|].
        intros x Hx Hin. destruct Hin as [<-|[]].
        now apply (dict_mem_keys _ _ Em).
      * rewrite Forall_forall in *. intros o Ho.
        destruct (dict_set_in _ _ _ _ Ho) as [->|Hin]; [reflexivity|now apply Hk].
      * rewrite Forall_forall in *. intros o Ho.
        destruct (dict_set_in _ _ _ _ Ho) as [->|Hin].
        -- apply note_explicit_target_new.
        -- destruct (Ha _ Hin) as (l & Hg & Hm).
           now apply (note_explicit_target_ids _ _ _ _ l).
  - unfold anchored, well_keyed in *.
    cbn [SwiftObjectDescription.objects SwiftObjectDescription.document_ids].
    unfold SwiftDomain.clear_doc. split; [|split].
    + unfold Dict.keys in *. clear - Hn.
      induction (SwiftObjectDescription.objects st) as [|o l IH]; [constructor|].
      cbn [map] in Hn. inversion Hn as [|? ? Hx Hl]; subst. cbn [filter].
      destruct (negb _); [|now apply IH]. cbn [map]. constructor; [|now apply IH].
      intros Hin. apply Hx. apply in_map_iff in Hin.
      destruct Hin as (o' & Eo & Hin'). apply filter_In in Hin'.
      apply in_map_iff. exists o'. tauto.
    + rewrite Forall_forall in *. intros o Ho. apply filter_In in Ho. now apply Hk.
    + rewrite Forall_forall in *. intros o Ho. apply filter_In in Ho. now apply Ha.
Qed.

(** X12.  What every build keeps.  In a build reached from the empty one
    by entering parse results and removing documents, no key is held
    twice, every entry is filed under its anchor, and the anchor of every
    entry is among the ids of the document of that entry. *)
Theorem X12_build_invariants :
  forall (doc2path : str -> str) (st : SwiftObjectDescription.build),
    reachable doc2path st ->
    NoDup (Dict.keys (SwiftObjectDescription.objects st))
    /\ well_keyed (SwiftObjectDescription.objects st)
    /\ anchored st.
Proof. exact reachable_invariants. Qed.

Lemma X12_build_invariants_witness :
  anchored
    {| SwiftObjectDescription.document_ids := [(s "a", [s "class Foo"])];
       SwiftObjectDescription.objects :=
         [(s "class Foo", (s "a", s "class", s "class Foo"))];
       SwiftObjectDescription.warnings := [] |}.
Proof.
  refine (proj2 (proj2 (X12_build_invariants (fun x => x) _ _))).
  exact (reach_add (fun x => x) (class_directive (s "a")) (s "class Foo") true
                   empty_build _ (reach_empty _) eq_refl).
Defined.

(** X13.  Links point at ids that exist.  In a reachable build, a
    reference that resolves to an object of the domain points into the
    document of an entry and at an id of that document, and every tuple of
    [get_objects] names a document and an anchor that is an id of it. *)
Theorem X13_links_exist :
  forall (doc2path : str -> str) (st : SwiftObjectDescription.build),
    reachable doc2path st ->
    (forall fromdocname target f d sg title,
        SwiftDomain.resolve_xref (SwiftObjectDescription.objects st) fromdocname target
        = Some (SwiftDomain.make_refnode f d sg title) ->
        exists l, Dict.get (SwiftObjectDescription.document_ids st) d = Some l
                  /\ SwiftObjectDescription.mem_str sg l = true)
    /\ (forall name dispname type docname anchor priority,
           In (name, dispname, type, docname, anchor, priority)
              (SwiftDomain.get_objects (SwiftObjectDescription.objects st)) ->
           exists l, Dict.get (SwiftObjectDescription.document_ids st) docname = Some l
                     /\ SwiftObjectDescription.mem_str anchor l = true).
Proof.
  intros doc2path st Hr.
  destruct (reachable_invariants _ _ Hr) as (_ & Hk & Ha).
  unfold anchored, well_keyed in *. rewrite Forall_forall in *. split.
  - intros fromdocname target f d sg title H.
    apply resolve_refnode in H.
    destruct H as (before & refname & typ & after & E & _).
    apply (Ha (refname, (d, typ, sg))). rewrite E. apply in_or_app. right. now left.
  - intros name dispname type docname anchor priority H.
    unfold SwiftDomain.get_objects in H. apply in_map_iff in H.
    destruct H as ([refname [[docname0 typ] signature]] & E & Hin).
    injection E as <- <- <- <- <- <-.
    pose proof (Hk _ Hin) as Hkey. cbn in Hkey. subst refname.
    exact (Ha _ Hin).
Qed.

Lemma X13_links_exist_witness :
  exists l,
    Dict.get [(s "a", [s "class Foo"])] (s "a") = Some l
    /\ SwiftObjectDescription.mem_str (s "class Foo") l = true.
Proof.
  refine (proj1 (X13_links_exist (fun x => x)
            {| SwiftObjectDescription.document_ids := [(s "a", [s "class Foo"])];
               SwiftObjectDescription.objects :=
                 [(s "class Foo", (s "a", s "class", s "class Foo"))];
               SwiftObjectDescription.warnings := [] |} _)
            (s "index") (s "Foo?") (s "index") (s "a") (s "class Foo") (s "Foo") eq_refl).
  exact (reach_add (fun x => x) (class_directive (s "a")) (s "class Foo") true
                   empty_build _ (reach_empty _) eq_refl).
Defined.

(** ** Splitting and joining *)

Lemma split_absent (sep : ascii) (x : str) :
  ~ In sep x -> Py.split x sep = [x].
Proof.
  induction x as [|c x IH]; intros H; [reflexivity|]. cbn [Py.split].
  destruct (Ascii.eqb_spec c sep) as [->|Hc]; [exfalso; apply H; now left|].
  rewrite IH; [reflexivity|]. intros Hx. apply H. now right.
Qed.

Lemma split_at (sep : ascii) (a b : str) :
  ~ In sep a -> Py.split (a ++ sep :: b) sep = a :: Py.split b sep.
Proof.
  induction a as [|c a IH]; intros H; cbn [app Py.split].
  - now rewrite Ascii.eqb_refl.
  - destruct (Ascii.eqb_spec c sep) as [->|Hc]; [exfalso; apply H; now left|].
    rewrite IH; [reflexivity|]. intros Hx. apply H. now right.
Qed.

Lemma join_split (sep : ascii) (x : str) : Py.join [sep] (Py.split x sep) = x.
Proof.
  induction x as [|c x IH]; [reflexivity|]. cbn [Py.split].
  destruct (split_cons_shape sep x) as (h & r & E). rewrite E in *.
  destruct (Ascii.eqb_spec c sep) as [->|Hc].
  - change (Py.join [sep] ([] :: h :: r))
      with ([] ++ [sep] ++ Py.join [sep] (h :: r)).
    now rewrite IH.
  - destruct r as [|p r].
    + cbn [Py.join] in *. now rewrite IH.
    + change (Py.join [sep] ((c :: h) :: p :: r))
        with (c :: (h ++ [sep] ++ Py.join [sep] (p :: r))).
      change (Py.join [sep] (h :: p :: r))
        with (h ++ [sep] ++ Py.join [sep] (p :: r)) in IH.
      now rewrite IH.
Qed.

Lemma split_piece (sep : ascii) (x p : str) :
  In p (Py.split x sep) -> ~ In sep p /\ forall c, In c p -> In c x.
Proof.
  revert p. induction x as [|c x IH]; intros p H; cbn [Py.split] in H.
  - destruct H as [<-|[]]. split; [tauto|tauto].
  - destruct (split_cons_shape sep x) as (h & r & E). rewrite E in *.
    destruct (Ascii.eqb_spec c sep) as [->|Hc].
    + destruct H as [<-|H]; [split; [tauto|intros c []]|].
      destruct (IH p H) as [Hs Hi]. split; [assumption|].
      intros c Hin. right. now apply Hi.
    + destruct H as [<-|H].
      * destruct (IH h (or_introl eq_refl)) as [Hs Hi]. split.
        -- intros [Hx|Hx]; [congruence|now apply Hs].
        -- intros c0 [<-|Hin]; [now left|right; now apply Hi].
      * destruct (IH p (or_intror H)) as [Hs Hi]. split; [assumption|].
        intros c0 Hin. right. now apply Hi.
Qed.

Lemma join_in (sep : str) (l : list str) (c : ascii) :
  In c (Py.join sep l) -> In c sep \/ exists p, In p l /\ In c p.
Proof.
  induction l as [|p l IH]; cbn [Py.join]; [intros []|].
  destruct l as [|q l].
  - intros H. right. exists p. split; [now left|assumption].
  - intros H. apply in_app_or in H. destruct H as [H|H].
    + right. exists p. split; [now left|assumption].
    + apply in_app_or in H. destruct H as [H|H]; [now left|].
      destruct (IH H) as [Hs|(p' & Hp & Hc)]; [now left|].
      right. exists p'. split; [now right|assumption].
Qed.

Lemma index_in {A : Type} (l : list A) (i : Z) (a : A) :
  Py.index l i = Ok a -> In a l.
Proof.
  unfold Py.index. destruct (_ <? 0); [discriminate|].
  destruct (nth_error l _) eqn:E; [|discriminate].
  intros H. injection H as <-. now apply nth_error_In in E.
Qed.

Lemma slice_to_in {A : Type} (l : list A) (i : Z) (a : A) :
  In a (Py.slice_to l i) -> In a l.
Proof.
  unfold Py.slice_to. generalize (Z.to_nat (Py.clamp (len l) i)). intros n.
  revert l. induction n as [|n IH]; intros l H.
  - destruct l; destruct H.
  - destruct l as [|b l]; [destruct H|]. cbn [firstn] in H.
    destruct H as [<-|H]; [now left|right; now apply IH].
Qed.

Lemma slice_from_tail {A : Type} (a : A) (l : list A) :
  Py.slice_from (a :: l) 1 = l.
Proof.
  unfold Py.slice_from. rewrite clamp_in_range.
  - reflexivity.
  - rewrite len_cons. pose proof (len_nonneg l). lia.
Qed.

(** ** Class-like declarations: the name that is kept *)

Lemma split1_head (sep : ascii) (x a : str) (r : list str) :
  Py.split1 x sep = a :: r -> ~ In sep a /\ forall c, In c a -> In c x.
Proof.
  intros E.
  destruct (in_dec ascii_dec sep x) as [Hin|Hout].
  - destruct (first_occurrence _ _ Hin) as (a0 & b0 & -> & Ha).
    rewrite split1_at in E by assumption. injection E as <- _.
    split; [assumption|]. intros c Hc. apply in_or_app. now left.
  - rewrite split1_absent in E by assumption. injection E as <- _.
    now split.
Qed.

Lemma split_generic_name (parts0 class_name : str) (g : option str) :
  SwiftClass.split_generic parts0 = Ok (class_name, g) ->
  ~ In "<"%char class_name /\ forall c, In c class_name -> In c parts0.
Proof.
  unfold SwiftClass.split_generic.
  destruct (Py.contains "<" parts0) eqn:E.
  - destruct (Py.split parts0 "<") as [|a [|b [|c l]]] eqn:Es; try discriminate.
    intros H. injection H as <- _.
    apply (split_piece "<" parts0). rewrite Es. now left.
  - intros H. injection H as <- _. split; [|tauto].
    intros Hin. apply contains_In in Hin. congruence.
Qed.

Lemma name_where_name (class_name : str) (parts : list str)
      (tc : option str) (name' : str) (parts' : list str) :
  SwiftClass.name_where class_name parts = Ok (tc, name', parts') ->
  forall c, In c name' -> In c class_name \/ c = " "%char.
Proof.
  unfold SwiftClass.name_where.
  set (cp := if Py.contains " " class_name
             then Some (Py.split class_name " ")
             else if Py.contains (ascii_of_nat 9) class_name
                  then Some (Py.split class_name (ascii_of_nat 9))
                  else None).
  assert (Hcp : forall l p, cp = Some l -> In p l ->
                            forall c, In c p -> In c class_name).
  { intros l p E Hp. unfold cp in E.
    destruct (Py.contains " " class_name).
    - injection E as <-. now apply (split_piece " " class_name p).
    - destruct (Py.contains (ascii_of_nat 9) class_name); [|discriminate E].
      injection E as <-. now apply (split_piece (ascii_of_nat 9) class_name p). }
  destruct cp as [[|p0 ps]|]; try (intros H; injection H as _ <- _; now left).
  destruct (SwiftClass.where_index _) as [index|];
    [|intros H; injection H as _ <- _; now left].
  destruct (SwiftClass.pop parts) as [[last rest]|]; [|discriminate].
  cbn [bind fst snd]. intros H. injection H as _ <- _.
  intros c Hc. apply join_in in Hc.
  destruct Hc as [[<-|[]]|(p & Hp & Hc)]; [now right|left].
  apply slice_to_in in Hp. now apply (Hcp _ p eq_refl Hp).
Qed.

Lemma last_segment_name (class_name name' : str) :
  SwiftClass.last_segment class_name = Ok name' ->
  ~ In "."%char name' /\ forall c, In c name' -> In c class_name.
Proof.
  unfold SwiftClass.last_segment.
  destruct (Z.eqb_spec (Py.count "." class_name) 0) as [E|E]; cbn [negb].
  - intros H. injection H as <-. split; [|tauto].
    intros Hin. apply contains_In in Hin. rewrite contains_count, E in Hin.
    discriminate Hin.
  - intros H. apply index_in in H. now apply (split_piece "." class_name).
Qed.

Lemma class_returned (temp : temp_data) (objtype sig : str) (h : SwiftClass.handled) :
  SwiftClass.handle_signature temp objtype sig = Ok h ->
  SwiftClass.returned h
  = (objtype ++ s " " ++ container_prefix temp ++ SwiftClass.class_name h,
     objtype ++ s " " ++ container_prefix temp ++ SwiftClass.class_name h,
     SwiftClass.add_to_index h).
Proof.
  unfold SwiftClass.handle_signature. intros H. repeat bind_ok H.
  injection H as <-.
  cbn [SwiftClass.returned SwiftClass.class_name SwiftClass.add_to_index].
  unfold container_prefix. destruct (swift_class temp) as [c|]; [|reflexivity].
  destruct (truthy c); [now rewrite <- !app_assoc|reflexivity].
Qed.

(** X16.  The name a class-like declaration keeps has no dot, no colon
    and no opening angle bracket: of a dotted name only the last segment
    is kept, so that the dots of a key come from the container alone; and
    the key is the directive name, a space, the name of the container with
    a dot when there is one, and that name. *)
Theorem X16_class_name :
  forall (temp : temp_data) (objtype sig : str) (h : SwiftClass.handled),
    SwiftClass.handle_signature temp objtype sig = Ok h ->
    ~ In "."%char (SwiftClass.class_name h)
    /\ ~ In ":"%char (SwiftClass.class_name h)
    /\ ~ In "<"%char (SwiftClass.class_name h)
    /\ fst (fst (SwiftClass.returned h))
       = objtype ++ s " " ++ container_prefix temp ++ SwiftClass.class_name h.
Proof.
  intros temp objtype sig h H.
  pose proof (class_returned _ _ _ _ H) as Hret.
  unfold SwiftClass.handle_signature in H.
  destruct (split1_shape ":" sig) as [(a & E)|(a & b & E)];
    destruct (split1_head _ _ _ _ E) as [Hcolon _]; rewrite E in H;
    cbn [map] in H; rewrite index_0 in H; cbn [bind] in H.
  all: destruct (SwiftClass.split_generic (Py.strip a)) as [[cn g]|] eqn:Eg;
    [|discriminate H]; cbn [bind fst snd] in H.
  all: destruct (SwiftClass.name_where cn _) as [[[tc cn1] parts']|] eqn:Ew;
    [|discriminate H]; cbn [bind fst snd] in H.
  all: destruct (SwiftClass.last_segment cn1) as [cn2|] eqn:El;
    [|discriminate H]; cbn [bind] in H.
  all: destruct (SwiftClass.split_supers parts' tc) as [supers|];
    [|discriminate H]; cbn [bind] in H.
  all: injection H as <-; cbn [SwiftClass.class_name SwiftClass.returned fst] in *.
  all: destruct (split_generic_name _ _ _ Eg) as [Hangle Hin0].
  all: pose proof (name_where_name _ _ _ _ _ Ew) as Hin1.
  all: destruct (last_segment_name _ _ El) as [Hdot Hin2].
  all: split; [assumption|]; split; [|split].
  all: try (intros Hc; apply Hin2 in Hc; destruct (Hin1 _ Hc) as [Hc1|Hc1];
            [|discriminate Hc1]).
  all: try (apply Hin0, strip_incl in Hc1; now apply Hcolon).
  all: try (now apply Hangle).
  all: exact (f_equal (fun r => fst (fst r)) Hret).
Qed.

Lemma X16_class_name_witness :
  match SwiftClass.handle_signature no_container (s "class")
          (s "Shapes.Geometry.Circle<T>: Shape") with
  | Ok h => fst (fst (SwiftClass.returned h)) = s "class Circle"
  | Raise _ => False
  end.
Proof.
  destruct (SwiftClass.handle_signature no_container (s "class")
              (s "Shapes.Geometry.Circle<T>: Shape")) as [h|e] eqn:E.
  - destruct (X16_class_name _ _ _ h E) as (_ & _ & _ & ->).
    vm_compute in E. injection E as <-. reflexivity.
  - vm_compute in E. discriminate E.
Defined.

(** ** The container of the content of a declaration *)

(** X15.  The container that a class-like declaration sets for its
    content.  For the value its parse returned, and a directive name
    without a space, [before_content] makes the container the name of the
    outer container, a dot, and the name of the declaration, with the
    directive name as its type, never the [NameError] of its other branch;
    [after_content] then leaves no container at all, also when the
    declaration was itself inside one.  A directive without a parsed
    signature sets nothing, and its [after_content] raises, [clsname_set]
    not being set. *)
Theorem X15_container :
  forall (temp : temp_data) (objtype sig : str) (h : SwiftClass.handled)
         (clsname_set : option bool),
    SwiftClass.handle_signature temp objtype sig = Ok h ->
    ~ In " "%char objtype ->
    SwiftClass.before_content objtype [SwiftClass.returned h] clsname_set temp
    = inr ({| swift_class := Some (container_prefix temp ++ SwiftClass.class_name h);
              swift_class_type := Some objtype |}, Some true)
    /\ (forall temp', SwiftClass.after_content (Some true) temp' = inr no_container)
    /\ SwiftClass.before_content objtype [] None temp = inr (temp, None)
    /\ SwiftClass.after_content None temp = inl SwiftClass.AttributeError_clsname_set.
Proof.
  intros temp objtype sig h cs H Hsp. rewrite (class_returned _ _ _ _ H).
  split; [|now repeat split].
  unfold SwiftClass.before_content.
  change (objtype ++ s " " ++ container_prefix temp ++ SwiftClass.class_name h)
    with (objtype ++ " "%char :: container_prefix temp ++ SwiftClass.class_name h).
  rewrite split_at by assumption.
  destruct (split_cons_shape " " (container_prefix temp ++ SwiftClass.class_name h))
    as (p & r & E).
  rewrite slice_from_tail.
  replace (1 <? len (objtype :: Py.split (container_prefix temp ++ SwiftClass.class_name h) " "))
    with true.
  - change (s " ") with [" "%char]. now rewrite join_split.
  - symmetry. apply Z.ltb_lt. rewrite E, !len_cons.
    pose proof (len_nonneg r). lia.
Qed.

Lemma X15_container_witness :
  match SwiftClass.handle_signature
          {| swift_class := Some (s "Outer"); swift_class_type := Some (s "class") |}
          (s "struct") (s "Inner: Codable") with
  | Ok h =>
      SwiftClass.before_content (s "struct") [SwiftClass.returned h] None
        {| swift_class := Some (s "Outer"); swift_class_type := Some (s "class") |}
      = inr ({| swift_class := Some (s "Outer.Inner");
                swift_class_type := Some (s "struct") |}, Some true)
  | Raise _ => False
  end.
Proof.
  destruct (SwiftClass.handle_signature
              {| swift_class := Some (s "Outer"); swift_class_type := Some (s "class") |}
              (s "struct") (s "Inner: Codable")) as [h|e] eqn:E.
  - destruct (X15_container _ _ _ h None E) as (-> & _).
    + cbn. intuition discriminate.
    + vm_compute in E. injection E as <-. reflexivity.
  - vm_compute in E. discriminate E.
Defined.

(** ** References that resolve to no object of the domain *)

Lemma reserved_in (tt : str) :
  existsb (Py.str_eqb tt) SwiftDomain.swift_reserved = true
  <-> In tt SwiftDomain.swift_reserved.
Proof.
  rewrite existsb_exists. split.
  - intros (x & Hx & E). apply str_eqb_eq in E. now subst.
  - intros H. exists tt. split; [assumption|apply str_eqb_refl].
Qed.

Lemma resolve_reference (objects : objects_table) (fromdocname target : str)
      (rawsource text refuri reftitle : str) :
  SwiftDomain.resolve_xref objects fromdocname target
  = Some (SwiftDomain.reference rawsource text refuri reftitle)
  <-> (forall o, In o objects ->
                 ~ kind_key (fst o) (SwiftDomain.test_target target))
      /\ In (SwiftDomain.test_target target) SwiftDomain.swift_reserved
      /\ rawsource = SwiftDomain.test_target target
      /\ text = SwiftDomain.test_target target
      /\ reftitle = SwiftDomain.test_target target
      /\ refuri = SwiftDomain.reserved_uri (SwiftDomain.test_target target).
Proof.
  unfold SwiftDomain.resolve_xref.
  set (tt := SwiftDomain.test_target target).
  pose proof (lookup_none objects fromdocname tt) as Hn.
  pose proof (reserved_in tt) as Hr.
  destruct (SwiftDomain.lookup objects fromdocname tt) as [n|] eqn:El.
  - split.
    + intros E. injection E as ->. apply lookup_some in El.
      destruct El as (? & ? & ? & ? & ? & ? & _ & _ & _ & El). discriminate El.
    + intros [Hall _]. apply Hn in Hall. discriminate Hall.
  - assert (Hall : forall o, In o objects -> ~ kind_key (fst o) tt)
      by now apply Hn.
    destruct (existsb (Py.str_eqb tt) SwiftDomain.swift_reserved) eqn:Ee.
    + split.
      * intros E. injection E as <- <- <- <-.
        split; [assumption|]. split; [now apply Hr|now repeat split].
      * intros (_ & _ & -> & -> & -> & ->). reflexivity.
    + split; [discriminate|]. intros (_ & Hin & _).
      apply Hr in Hin. discriminate Hin.
Qed.

(** X14.  References that match no key.  A reference whose target matches
    no key of the table resolves to a link into the documentation of Apple
    exactly when the target, without its mark and qualification, is one of
    the reserved names, with that name as text and title and the address
    of [reserved_uri]; it resolves to nothing otherwise.  A key that
    matches comes first: a reserved name that is documented in the project
    is linked to the project. *)
Theorem X14_reserved_names :
  forall (objects : objects_table) (fromdocname target : str),
    let tt := SwiftDomain.test_target target in
    (SwiftDomain.resolve_xref objects fromdocname target = None
     <-> (forall o, In o objects -> ~ kind_key (fst o) tt)
         /\ ~ In tt SwiftDomain.swift_reserved)
    /\ (forall rawsource text refuri reftitle,
           SwiftDomain.resolve_xref objects fromdocname target
           = Some (SwiftDomain.reference rawsource text refuri reftitle)
           <-> (forall o, In o objects -> ~ kind_key (fst o) tt)
               /\ In tt SwiftDomain.swift_reserved
               /\ rawsource = tt /\ text = tt /\ reftitle = tt
               /\ refuri = SwiftDomain.reserved_uri tt)
    /\ (forall o, In o objects -> kind_key (fst o) tt ->
                  exists f d sg title,
                    SwiftDomain.resolve_xref objects fromdocname target
                    = Some (SwiftDomain.make_refnode f d sg title)).
Proof.
  intros objects fromdocname target tt. unfold SwiftDomain.resolve_xref.
  fold tt. pose proof (lookup_none objects fromdocname tt) as Hn.
  pose proof (reserved_in tt) as Hr.
  destruct (SwiftDomain.lookup objects fromdocname tt) as [n|] eqn:El.
  - assert (Hsome : ~ (forall o, In o objects -> ~ kind_key (fst o) tt)).
    { intros Hall. apply Hn in Hall. discriminate Hall. }
    split; [|split].
    + split; [discriminate|]. intros [Hall _]. contradiction.
    + intros rawsource text refuri reftitle. split.
      * intros E. injection E as ->. apply lookup_some in El.
        destruct El as (? & ? & ? & ? & ? & ? & _ & _ & _ & El). discriminate El.
      * intros [Hall _]. contradiction.
    + intros _ _ _. apply lookup_some in El.
      destruct El as (? & ? & d & ? & sg & ? & _ & _ & _ & ->). eauto.
  - assert (Hall : forall o, In o objects -> ~ kind_key (fst o) tt)
      by now apply Hn.
    destruct (existsb (Py.str_eqb tt) SwiftDomain.swift_reserved) eqn:Ee.
    + assert (Hin : In tt SwiftDomain.swift_reserved) by now apply Hr.
      split; [|split].
      * split; [discriminate|]. intros [_ Hno]. contradiction.
      * intros rawsource text refuri reftitle. split.
        -- intros E. injection E as <- <- <- <-. now repeat split.
        -- intros (_ & _ & -> & -> & -> & ->). reflexivity.
      * intros o Ho Hk. exfalso. now apply (Hall o).
    + assert (Hout : ~ In tt SwiftDomain.swift_reserved).
      { intros Hin. apply Hr in Hin. discriminate Hin. }
      split; [|split].
      * split; [now split|reflexivity].
      * intros rawsource text refuri reftitle. split; [discriminate|].
        intros (_ & Hin & _). contradiction.
      * intros o Ho Hk. exfalso. now apply (Hall o).
Qed.

(** ** References made by a role *)

Lemma endswith_app (a b : str) (c d : ascii) :
  Py.endswith (a ++ b ++ [d]) [c] = Py.endswith (b ++ [d]) [c].
Proof.
  unfold Py.endswith. rewrite !rev_app_distr. cbn [rev app].
  now rewrite !startswith_char.
Qed.

Lemma find_dot_absent (x : str) : ~ In "."%char x -> Py.find x (s ".") = -1.
Proof. apply find_absent. Qed.

Lemma role_name_shape (tipe : str) :
  In tipe role_names ->
  ~ In "."%char tipe
  /\ exists c rest, tipe = c :: rest /\ Ascii.eqb "[" c = false.
Proof.
  unfold role_names. cbn [map In].
  intros H.
  repeat (destruct H as [<-|H];
          [split; [cbn; intuition discriminate|eexists; eexists; split; reflexivity]|]).
  destruct H.
Qed.

Lemma reserved_no_space (r : str) :
  In r SwiftDomain.swift_reserved -> ~ In " "%char r.
Proof.
  unfold SwiftDomain.swift_reserved. cbn [map In].
  intros H. repeat (destruct H as [<-|H]; [cbn; intuition discriminate|]).
  destruct H.
Qed.

Lemma last_char_cases (x : str) : x = [] \/ exists t d, x = t ++ [d].
Proof.
  destruct x as [|a x]; [now left|right].
  destruct (@exists_last _ (a :: x)) as (t & d & E); [discriminate|].
  now exists t, d.
Qed.

Lemma role_target (tipe target : str) :
  In tipe role_names -> ~ In "."%char target ->
  (Py.endswith target (s "?") = false -> Py.endswith target (s "!") = false ->
   SwiftDomain.test_target (tipe ++ s " " ++ target) = tipe ++ s " " ++ target)
  /\ (forall t c, target = t ++ [c] -> c = "?"%char \/ c = "!"%char ->
                  SwiftDomain.test_target (tipe ++ s " " ++ target)
                  = tipe ++ s " " ++ t).
Proof.
  intros Hrole Hdot.
  destruct (role_name_shape _ Hrole) as (Hd & c0 & rest & -> & Hc0).
  assert (Hfind : forall t, (forall c, In c t -> In c target) ->
            Py.find ((c0 :: rest) ++ s " " ++ t) (s ".") = -1).
  { intros t Ht. apply find_absent. intros Hin.
    apply in_app_or in Hin. destruct Hin as [Hin|[Hin|Hin]];
      [now apply Hd|discriminate Hin|now apply Hdot, Ht]. }
  assert (Hend : forall t d c,
            Py.endswith ((c0 :: rest) ++ s " " ++ t ++ [d]) [c]
            = Py.endswith (t ++ [d]) [c]).
  { intros t d c.
    replace ((c0 :: rest) ++ s " " ++ t ++ [d])
      with (((c0 :: rest) ++ s " ") ++ t ++ [d]) by now rewrite <- app_assoc.
    apply endswith_app. }
  assert (Hstart : forall t, Py.startswith ((c0 :: rest) ++ t) (s "[") = false).
  { intros t. cbn [app]. change (s "[") with ["["%char].
    now rewrite startswith_char. }
  split.
  - intros Hq He. unfold SwiftDomain.test_target, SwiftDomain.strip_sigil.
    destruct (last_char_cases target) as [->|(t & d & ->)].
    + replace (Py.endswith ((c0 :: rest) ++ s " " ++ []) (s "?")) with false
        by (symmetry; apply (endswith_snoc_other (c0 :: rest)); reflexivity).
      replace (Py.endswith ((c0 :: rest) ++ s " " ++ []) (s "!")) with false
        by (symmetry; apply (endswith_snoc_other (c0 :: rest)); reflexivity).
      cbn [orb]. rewrite Hstart. cbn [andb].
      rewrite Hfind by (intros c []). reflexivity.
    + change (s "?") with ["?"%char] in *. change (s "!") with ["!"%char] in *.
      rewrite !Hend, Hq, He. cbn [orb]. rewrite Hstart. cbn [andb].
      rewrite Hfind by tauto. reflexivity.
  - intros t c -> Hc. unfold SwiftDomain.test_target, SwiftDomain.strip_sigil.
    change (s "?") with ["?"%char]. change (s "!") with ["!"%char].
    rewrite !Hend.
    replace (Py.endswith (t ++ [c]) ["?"%char] || Py.endswith (t ++ [c]) ["!"%char])
      with true
      by (destruct Hc as [->| ->]; rewrite endswith_snoc;
          [reflexivity|now rewrite orb_true_r]).
    replace ((c0 :: rest) ++ s " " ++ t ++ [c])
      with (((c0 :: rest) ++ s " " ++ t) ++ [c])
      by now rewrite <- !app_assoc.
    rewrite slice_to_drop_last.
    rewrite Hfind; [reflexivity|].
    intros x Hx. apply in_or_app. now left.
Qed.

(** X17.  A reference made by a role, carried to [resolve_xref].  For a
    target without a dot, [process_link] puts the name of the role and a
    space in front of it; [resolve_xref] takes an optional-type mark off
    the end, and then looks for a key made of a kind of [type_order], a
    space, the name of the role, a space and the target.  Such a reference
    never becomes a link for a reserved name, and it resolves only to an
    entry with such a key. *)
Theorem X17_role_reference :
  forall (objects : objects_table) (fromdocname tipe title target : str),
    In tipe role_names -> ~ In "."%char target ->
    let link := SwiftXRefRole.process_link tipe title target in
    link = (title, tipe ++ s " " ++ target)
    /\ (forall rawsource text refuri reftitle,
           SwiftDomain.resolve_xref objects fromdocname (snd link)
           <> Some (SwiftDomain.reference rawsource text refuri reftitle))
    /\ (forall f d sg ttl,
           Py.endswith target (s "?") = false ->
           Py.endswith target (s "!") = false ->
           SwiftDomain.resolve_xref objects fromdocname (snd link)
           = Some (SwiftDomain.make_refnode f d sg ttl) ->
           exists to typ,
             In to type_order
             /\ In (to ++ s " " ++ tipe ++ s " " ++ target, (d, typ, sg)) objects)
    /\ (forall t c f d sg ttl,
           target = t ++ [c] -> c = "?"%char \/ c = "!"%char ->
           SwiftDomain.resolve_xref objects fromdocname (snd link)
           = Some (SwiftDomain.make_refnode f d sg ttl) ->
           exists to typ,
             In to type_order
             /\ In (to ++ s " " ++ tipe ++ s " " ++ t, (d, typ, sg)) objects).
Proof.
  intros objects fromdocname tipe title target Hrole Hdot link.
  assert (El : link = (title, tipe ++ s " " ++ target)).
  { unfold link, SwiftXRefRole.process_link.
    destruct (Py.contains "." target) eqn:E; [|reflexivity].
    apply contains_In in E. contradiction. }
  destruct (role_target tipe target Hrole Hdot) as [Hplain Hmark].
  assert (Hfound : forall f d sg ttl,
            SwiftDomain.resolve_xref objects fromdocname (snd link)
            = Some (SwiftDomain.make_refnode f d sg ttl) ->
            exists to typ,
              In to type_order
              /\ In (to ++ s " " ++ SwiftDomain.test_target (tipe ++ s " " ++ target),
                     (d, typ, sg)) objects).
  { intros f d sg ttl H. rewrite El in H. cbn [snd] in H.
    apply resolve_refnode in H.
    destruct H as (before & refname & typ & after & E & _ & (to & Hto & ->) & _).
    exists to, typ. split; [assumption|]. rewrite E. apply in_or_app. right. now left. }
  split; [exact El|]. split; [|split].
  - intros rawsource text refuri reftitle H. rewrite El in H. cbn [snd] in H.
    apply (proj1 (resolve_reference objects fromdocname _ _ _ _ _)) in H.
    destruct H as (_ & Hin & _).
    apply reserved_no_space in Hin. apply Hin.
    destruct (last_char_cases target) as [->|(t & c & ->)].
    + rewrite (proj1 (role_target tipe [] Hrole Hdot)) by reflexivity.
      apply in_or_app. right. now left.
    + destruct (Ascii.eqb_spec c "?"%char) as [->|Hq].
      * rewrite (Hmark t "?"%char eq_refl (or_introl eq_refl)).
        apply in_or_app. right. now left.
      * destruct (Ascii.eqb_spec c "!"%char) as [->|He].
        -- rewrite (Hmark t "!"%char eq_refl (or_intror eq_refl)).
           apply in_or_app. right. now left.
        -- rewrite Hplain.
           ++ apply in_or_app. right. now left.
           ++ apply endswith_snoc_other. now apply Ascii.eqb_neq, not_eq_sym.
           ++ apply endswith_snoc_other. now apply Ascii.eqb_neq, not_eq_sym.
  - intros f d sg ttl Hq He H. rewrite <- (Hplain Hq He). now apply (Hfound f d sg ttl).
  - intros t c f d sg ttl E Hc H. rewrite <- (Hmark t c E Hc).
    now apply (Hfound f d sg ttl).
Qed.

Lemma X17_role_reference_witness :
  SwiftXRefRole.process_link (s "class") (s "Foo") (s "Foo")
  = (s "Foo", s "class Foo").
Proof.
  refine (proj1 (X17_role_reference [] (s "index") (s "class") (s "Foo") (s "Foo") _ _)).
  - cbn. tauto.
  - cbn. intuition discriminate.
Defined.

(** ** A declaration made twice in one document *)

(** X18.  A key entered twice in one document.  The first directive
    enters it.  The second one, in the same document, changes neither the
    table nor the ids: with a [warn] method it reports the duplicate,
    naming the path of the document that holds the key, and without one,
    as for every directive of the source but those for variables, it
    raises [AttributeError]. *)
Theorem X18_duplicate_in_document :
  forall (doc2path : str -> str) (d : SwiftObjectDescription.directive)
         (key : str) (st : SwiftObjectDescription.build),
    SwiftObjectDescription.noindex d = false ->
    SwiftObjectDescription.mem_str key (SwiftObjectDescription.ids st d) = false ->
    exists st1,
      SwiftObjectDescription.add_target_and_index doc2path d (Some (key, key, true)) st
      = Ok st1
      /\ (SwiftObjectDescription.has_warn d = true ->
          SwiftObjectDescription.add_target_and_index doc2path d
            (Some (key, key, true)) st1
          = Ok {| SwiftObjectDescription.document_ids :=
                    SwiftObjectDescription.document_ids st1;
                  SwiftObjectDescription.objects := SwiftObjectDescription.objects st1;
                  SwiftObjectDescription.warnings :=
                    SwiftObjectDescription.warnings st
                    ++ [s "duplicate object description of " ++ key
                        ++ s ", " ++ s "other instance in "
                        ++ doc2path (SwiftObjectDescription.docname d)] |})
      /\ (SwiftObjectDescription.has_warn d = false ->
          SwiftObjectDescription.add_target_and_index doc2path d
            (Some (key, key, true)) st1
          = Raise AttributeError).
Proof.
  intros doc2path d key st Hn Hm.
  unfold SwiftObjectDescription.add_target_and_index at 1.
  rewrite Hn, Hm. cbn [negb orb]. eexists. split; [reflexivity|].
  unfold SwiftObjectDescription.add_target_and_index.
  rewrite Hn. cbn [negb orb].
  assert (Hids : SwiftObjectDescription.mem_str key
                   (SwiftObjectDescription.ids
                      {| SwiftObjectDescription.document_ids :=
                           SwiftObjectDescription.note_explicit_target st d key;
                         SwiftObjectDescription.objects :=
                           Dict.set (SwiftObjectDescription.objects st) key
                                    (SwiftObjectDescription.docname d,
                                     SwiftObjectDescription.objtype_of d, key);
                         SwiftObjectDescription.warnings :=
                           SwiftObjectDescription.warnings st |} d) = true).
  { unfold SwiftObjectDescription.ids at 1.
    cbn [SwiftObjectDescription.document_ids].
    destruct (note_explicit_target_new st d key) as (l' & -> & Hl). exact Hl. }
  rewrite Hids. cbn [negb SwiftObjectDescription.objects
                     SwiftObjectDescription.document_ids
                     SwiftObjectDescription.warnings].
  rewrite dict_get_set. split; intros ->; reflexivity.
Qed.

Lemma X18_duplicate_in_document_witness :
  exists st1,
    SwiftObjectDescription.add_target_and_index (fun x => x) (class_directive (s "a"))
      (Some (s "class Foo", s "class Foo", true)) empty_build = Ok st1
    /\ SwiftObjectDescription.add_target_and_index (fun x => x) (class_directive (s "a"))
         (Some (s "class Foo", s "class Foo", true)) st1
       = Raise AttributeError.
Proof.
  destruct (X18_duplicate_in_document (fun x => x) (class_directive (s "a"))
              (s "class Foo") empty_build eq_refl eq_refl) as (st1 & H1 & _ & H3).
  exists st1. split; [exact H1|]. now apply H3.
Defined.

(** ** The generic clause of a class-like declaration *)

Lemma lstrip_app_char (u v : str) (c : ascii) :
  Py.isspace c = false -> Py.lstrip (u ++ c :: v) = Py.lstrip u ++ c :: v.
Proof.
  intros Hc. induction u as [|a u IH]; cbn [app Py.lstrip].
  - now rewrite Hc.
  - destruct (Py.isspace a); [exact IH|reflexivity].
Qed.

Lemma rstrip_app_char (a g : str) (c : ascii) :
  Py.isspace c = false -> Py.rstrip (a ++ c :: g) = a ++ c :: Py.rstrip g.
Proof.
  intros Hc. unfold Py.rstrip.
  replace (rev (a ++ c :: g)) with (rev g ++ c :: rev a)
    by (rewrite rev_app_distr; cbn [rev]; now rewrite <- app_assoc).
  rewrite lstrip_app_char by assumption.
  rewrite rev_app_distr. cbn [rev]. rewrite rev_involutive, <- app_assoc.
  reflexivity.
Qed.

Lemma rstrip_incl (c : ascii) (x : str) : In c (Py.rstrip x) -> In c x.
Proof.
  unfold Py.rstrip. intros H. apply in_rev in H. apply lstrip_incl in H.
  now apply in_rev.
Qed.

Lemma no_space_in (x : str) (c : ascii) :
  no_space x = true -> Py.isspace c = true -> ~ In c x.
Proof.
  unfold no_space. intros H Hc Hin. rewrite forallb_forall in H.
  specialize (H _ Hin). rewrite Hc in H. discriminate H.
Qed.

Lemma lstrip_no_space (x y : str) (c : ascii) :
  no_space x = true -> Py.isspace c = false ->
  Py.lstrip (x ++ c :: y) = x ++ c :: y.
Proof.
  intros Hx Hc. destruct x as [|a x]; cbn [app Py.lstrip].
  - now rewrite Hc.
  - cbn in Hx. apply andb_true_iff in Hx. destruct Hx as [Ha _].
    apply negb_true_iff in Ha. now rewrite Ha.
Qed.

Lemma strip_no_space (x : str) : no_space x = true -> Py.strip x = x.
Proof.
  intros Hx. unfold Py.strip.
  assert (Hl : forall y, no_space y = true -> Py.lstrip y = y).
  { intros [|a y] Hy; [reflexivity|]. cbn in Hy. apply andb_true_iff in Hy.
    destruct Hy as [Ha _]. apply negb_true_iff in Ha. cbn [Py.lstrip]. now rewrite Ha. }
  rewrite (Hl x Hx). unfold Py.rstrip. rewrite Hl.
  - apply rev_involutive.
  - unfold no_space in *. rewrite forallb_forall in *. intros c Hc.
    apply Hx. now apply in_rev.
Qed.

Lemma split_supers_head (p0 p0' : str) (tl : list str) (tc : option str) :
  SwiftClass.split_supers (p0 :: tl) tc = SwiftClass.split_supers (p0' :: tl) tc.
Proof.
  unfold SwiftClass.split_supers. rewrite !len_cons.
  destruct (1 <? len tl + 1); [|reflexivity].
  destruct tl as [|p1 tl]; [reflexivity|]. now rewrite !index_1.
Qed.

Lemma name_where_plain (name : str) (parts : list str) :
  no_space name = true ->
  SwiftClass.name_where name parts = Ok (None, name, parts).
Proof.
  intros Hn. unfold SwiftClass.name_where.
  assert (H1 : Py.contains " " name = false).
  { destruct (Py.contains " " name) eqn:E; [|reflexivity].
    apply contains_In in E. now apply (no_space_in _ _ Hn) in E. }
  assert (H2 : Py.contains (ascii_of_nat 9) name = false).
  { destruct (Py.contains (ascii_of_nat 9) name) eqn:E; [|reflexivity].
    apply contains_In in E. now apply (no_space_in _ _ Hn) in E. }
  now rewrite H1, H2.
Qed.

(** X19.  The generic clause of a class-like declaration is read and then
    left out.  For a name without white space, angle bracket or colon, the
    declaration with a generic clause behind the name gives the same
    nodes, the same key, the same super types and the same constraint as
    the declaration without the clause; only [generic_type] tells them
    apart, and it is the clause without its last character. *)
Theorem X19_class_generic_clause :
  forall (temp : temp_data) (objtype name g rest : str),
    no_space name = true ->
    ~ In "<"%char name -> ~ In ":"%char name ->
    ~ In "<"%char g -> ~ In ":"%char g ->
    rest = [] \/ (exists supers, rest = ":"%char :: supers) ->
    exists h1 h2,
      SwiftClass.handle_signature temp objtype (name ++ "<"%char :: g ++ rest) = Ok h1
      /\ SwiftClass.handle_signature temp objtype (name ++ rest) = Ok h2
      /\ SwiftClass.generic_type h1 = Some (Py.slice_to (Py.rstrip g) (-1))
      /\ SwiftClass.generic_type h2 = None
      /\ SwiftClass.class_name h1 = SwiftClass.class_name h2
      /\ SwiftClass.super_classes h1 = SwiftClass.super_classes h2
      /\ SwiftClass.type_constraint h1 = SwiftClass.type_constraint h2
      /\ SwiftClass.signode h1 = SwiftClass.signode h2
      /\ SwiftClass.returned h1 = SwiftClass.returned h2.
Proof.
  intros temp objtype name g rest Hs Ha Hc Hga Hgc Hrest.
  assert (Hangle : Py.isspace "<" = false) by reflexivity.
  assert (Hparts : exists t,
             map Py.strip (Py.split1 (name ++ "<"%char :: g ++ rest) ":")
             = (name ++ "<"%char :: Py.rstrip g) :: t
             /\ map Py.strip (Py.split1 (name ++ rest) ":") = name :: t).
  { assert (Hs1 : Py.strip (name ++ "<"%char :: g) = name ++ "<"%char :: Py.rstrip g).
    { unfold Py.strip. rewrite lstrip_no_space by assumption.
      now apply rstrip_app_char. }
    assert (Hng : ~ In ":"%char (name ++ "<"%char :: g)).
    { intros H. apply in_app_or in H. destruct H as [H|[H|H]];
        [now apply Hc|discriminate H|now apply Hgc]. }
    destruct Hrest as [->|(supers & ->)].
    - exists []. rewrite !app_nil_r. rewrite !split1_absent by assumption.
      cbn [map]. now rewrite Hs1, (strip_no_space name Hs).
    - exists [Py.strip supers].
      replace (name ++ "<"%char :: g ++ ":"%char :: supers)
        with ((name ++ "<"%char :: g) ++ ":"%char :: supers)
        by now rewrite <- app_assoc.
      rewrite !split1_at by assumption. cbn [map].
      now rewrite Hs1, (strip_no_space name Hs). }
  destruct Hparts as (t & E1 & E2).
  unfold SwiftClass.handle_signature. rewrite E1, E2, !index_0. cbn [bind].
  assert (G1 : SwiftClass.split_generic (name ++ "<"%char :: Py.rstrip g)
               = Ok (name, Some (Py.slice_to (Py.rstrip g) (-1)))).
  { unfold SwiftClass.split_generic.
    replace (Py.contains "<" (name ++ "<"%char :: Py.rstrip g)) with true
      by (symmetry; apply contains_In, in_or_app; right; now left).
    rewrite split_at by assumption. rewrite split_absent; [reflexivity|].
    intros H. now apply Hga, rstrip_incl. }
  assert (G2 : SwiftClass.split_generic name = Ok (name, None)).
  { unfold SwiftClass.split_generic.
    destruct (Py.contains "<" name) eqn:E; [|reflexivity].
    apply contains_In in E. contradiction. }
  rewrite G1, G2. cbn [bind fst snd].
  rewrite !name_where_plain by assumption. cbn [bind fst snd].
  destruct (SwiftClass.last_segment name) as [cn|] eqn:El.
  - cbn [bind].
    pose proof (split_supers_returns (name :: t) None) as Hr.
    destruct (SwiftClass.split_supers (name :: t) None) as [supers|] eqn:Ess;
      [|discriminate Hr].
    repeat match goal with
           | |- context [SwiftClass.split_supers ?p ?tc] =>
               let Hsh := fresh "Hsh" in
               assert (Hsh : SwiftClass.split_supers p tc = Ok supers)
                 by (rewrite <- Ess; apply split_supers_head);
               destruct (SwiftClass.split_supers p tc);
               [injection Hsh as ->|discriminate Hsh]
           end.
    cbn [bind]. eexists. eexists.
    split; [reflexivity|]. split; [reflexivity|]. now repeat split.
  - pose proof (last_segment_returns name) as Hr. rewrite El in Hr. discriminate Hr.
Qed.

Lemma X19_class_generic_clause_witness :
  exists h1 h2,
    SwiftClass.handle_signature no_container (s "struct") (s "Stack<Element>: Sequence")
    = Ok h1
    /\ SwiftClass.handle_signature no_container (s "struct") (s "Stack: Sequence") = Ok h2
    /\ SwiftClass.generic_type h1 = Some (s "Element")
    /\ SwiftClass.signode h1 = SwiftClass.signode h2
    /\ SwiftClass.returned h1 = SwiftClass.returned h2.
Proof.
  destruct (X19_class_generic_clause no_container (s "struct") (s "Stack")
              (s "Element>") (s ": Sequence"))
    as (h1 & h2 & H1 & H2 & G1 & _ & _ & _ & _ & Hn & Hr).
  - reflexivity.
  - cbn. intuition discriminate.
  - cbn. intuition discriminate.
  - cbn. intuition discriminate.
  - cbn. intuition discriminate.
  - right. now exists (s " Sequence").
  - exists h1, h2. split; [exact H1|]. split; [exact H2|].
    split; [exact G1|]. now split.
Defined.

(** ** Class-like declarations: the super types as they are shown *)

Lemma astext_elem (tag : string) (rawsource text : str)
      (attributes : list (string * str)) (children : list node) :
  astext (Elem tag rawsource text attributes children)
  = text ++ flat_map astext children.
Proof.
  reflexivity.
Qed.

Lemma super_node_text (first c : str) :
  astext (SwiftClass.super_node first c) = shown_super first c.
Proof.
  unfold SwiftClass.super_node, pending_xref, add_child, shown_super.
  rewrite astext_elem. cbn [app flat_map astext].
  rewrite app_nil_r. now destruct (Py.str_eqb c first).
Qed.

Lemma supers_text (first : str) (l : list str) :
  flat_map astext (map (SwiftClass.super_node first) l)
  = flat_map (shown_super first) l.
Proof.
  induction l as [|c l IH]; [reflexivity|]. cbn [map flat_map].
  now rewrite super_node_text, IH.
Qed.

Lemma join_flat (sep first : str) (others : list str) :
  Py.join sep (first :: others) = first ++ flat_map (fun c => sep ++ c) others.
Proof.
  revert first. induction others as [|c others IH]; intros first.
  - cbn. now rewrite app_nil_r.
  - change (Py.join sep (first :: c :: others))
      with (first ++ sep ++ Py.join sep (c :: others)).
    rewrite IH. cbn [flat_map]. now rewrite <- !app_assoc.
Qed.

Lemma shown_len (first : str) (others : list str) :
  len (flat_map (shown_super first) others)
  <= len (flat_map (fun c => s ", " ++ c) others)
  /\ (In first others ->
      len (flat_map (shown_super first) others)
      < len (flat_map (fun c => s ", " ++ c) others)).
Proof.
  induction others as [|c others [IH1 IH2]]; [split; [cbn; lia|intros []]|].
  cbn [flat_map]. rewrite !len_app. unfold shown_super at 1 3.
  destruct (Py.str_eqb c first) eqn:E; rewrite !len_app.
  - change (len (s ", ")) with 2. change (len (@nil ascii)) with 0.
    split; [lia|]. intros _. lia.
  - split; [lia|]. intros [->|Hin]; [now rewrite str_eqb_refl in E|].
    specialize (IH2 Hin). lia.
Qed.

Lemma shown_plain (first : str) (others : list str) :
  ~ In first others ->
  flat_map (shown_super first) others = flat_map (fun c => s ", " ++ c) others.
Proof.
  induction others as [|c others IH]; intros H; [reflexivity|]. cbn [flat_map].
  rewrite IH by (intros Hin; apply H; now right). f_equal.
  unfold shown_super. destruct (Py.str_eqb c first) eqn:E; [|reflexivity].
  apply str_eqb_eq in E. exfalso. apply H. now left.
Qed.

(** X20.  The super types as they are shown.  The node of the super types
    shows a colon, the first super type, and every further one with a
    comma in front unless it is equal to the first one: the comma is
    decided by comparing the names, not the positions.  So the text is the
    list joined by commas exactly when the first super type is not listed
    again. *)
Theorem X20_super_types_shown :
  forall (temp : temp_data) (objtype sig : str) (h : SwiftClass.handled)
         (first : str) (others : list str),
    SwiftClass.handle_signature temp objtype sig = Ok h ->
    SwiftClass.super_classes h = Some (first :: others) ->
    let shown := desc_type [] (s " : ")
                   (map (SwiftClass.super_node first) (first :: others)) in
    In shown (SwiftClass.signode h)
    /\ astext shown = s " : " ++ first ++ flat_map (shown_super first) others
    /\ (astext shown = s " : " ++ Py.join (s ", ") (first :: others)
        <-> ~ In first others).
Proof.
  intros temp objtype sig h first others H Hs shown.
  assert (Htext : astext shown
                  = s " : " ++ first ++ flat_map (shown_super first) others).
  { unfold shown, desc_type. rewrite astext_elem, supers_text. cbn [flat_map].
    f_equal. f_equal. unfold shown_super. rewrite str_eqb_refl. reflexivity. }
  split; [|split; [exact Htext|]].
  - unfold SwiftClass.handle_signature in H. repeat bind_ok H.
    injection H as <-. cbn [SwiftClass.super_classes SwiftClass.signode] in *.
    rewrite Hs. right. right. left. reflexivity.
  - rewrite Htext, join_flat. split.
    + intros E Hin. apply app_inv_head in E. apply app_inv_head in E.
      destruct (shown_len first others) as [_ Hlt]. specialize (Hlt Hin).
      rewrite E in Hlt. lia.
    + intros Hout. now rewrite shown_plain.
Qed.

Lemma X20_super_types_shown_witness :
  match SwiftClass.handle_signature no_container (s "class") (s "Foo: A, B, A") with
  | Ok h =>
      astext (desc_type [] (s " : ")
                (map (SwiftClass.super_node (s "A")) [s "A"; s "B"; s "A"]))
      = s " : A, BA"
  | Raise _ => False
  end.
Proof.
  destruct (SwiftClass.handle_signature no_container (s "class") (s "Foo: A, B, A"))
    as [h|e] eqn:E.
  - destruct (X20_super_types_shown _ _ _ h (s "A") [s "B"; s "A"] E) as (_ & -> & _).
    + vm_compute in E. injection E as <-. reflexivity.
    + reflexivity.
  - vm_compute in E. discriminate E.
Defined.

(** ** Class-like declarations: a constraint behind the name *)

(** X21.  A [where] behind the name.  For a declaration
    [name where lhs: rhs], with a name and a left side that are single
    words, the name is kept, the constraint is [where lhs: rhs] with the
    right side trimmed, and there are no super types; so that an extension
    written this way is not indexed. *)
Theorem X21_where_behind_name :
  forall (temp : temp_data) (objtype name lhs rhs : str),
    no_space name = true -> name <> [] -> name <> s "where" ->
    ~ In "<"%char name -> ~ In ":"%char name -> ~ In "."%char name ->
    no_space lhs = true -> lhs <> [] ->
    ~ In "<"%char lhs -> ~ In ":"%char lhs ->
    exists h,
      SwiftClass.handle_signature temp objtype
        (name ++ s " where " ++ lhs ++ ":"%char :: rhs) = Ok h
      /\ SwiftClass.class_name h = name
      /\ SwiftClass.super_classes h = None
      /\ SwiftClass.type_constraint h
         = Some (s "where " ++ lhs ++ s ": " ++ Py.strip rhs)
      /\ SwiftClass.add_to_index h = negb (Py.str_eqb objtype (s "extension")).
Proof.
  intros temp objtype name lhs rhs Hn Hne Hw Ha Hc Hd Hl Hle Hla Hlc.
  set (head := name ++ s " where " ++ lhs).
  assert (Hhead : Py.strip head = head).
  { unfold Py.strip, head.
    destruct name as [|a name]; [contradiction|].
    assert (Hsa : Py.isspace a = false).
    { cbn in Hn. apply andb_true_iff in Hn. now apply negb_true_iff, Hn. }
    cbn [app]. rewrite lstrip_fixed by assumption.
    destruct (last_char_cases lhs) as [->|(t & d & ->)]; [contradiction|].
    assert (Hsd : Py.isspace d = false).
    { unfold no_space in Hl. rewrite forallb_forall in Hl.
      apply negb_true_iff, Hl, in_or_app. right. now left. }
    change (a :: name ++ s " where " ++ t ++ [d])
      with ((a :: name) ++ s " where " ++ t ++ [d]).
    replace ((a :: name) ++ s " where " ++ t ++ [d])
      with (((a :: name) ++ s " where " ++ t) ++ d :: [])
      by (now rewrite <- !app_assoc).
    now rewrite rstrip_app_char. }
  assert (Hcolon : ~ In ":"%char head).
  { unfold head. intros H. apply in_app_or in H. destruct H as [H|H]; [now apply Hc|].
    apply in_app_or in H. destruct H as [H|H]; [|now apply Hlc].
    cbn in H. intuition discriminate. }
  assert (Hangle : Py.contains "<" head = false).
  { destruct (Py.contains "<" head) eqn:E; [|reflexivity].
    apply contains_In in E. unfold head in E.
    apply in_app_or in E. destruct E as [E|E]; [contradiction|].
    apply in_app_or in E. destruct E as [E|E]; [|contradiction].
    cbn in E. intuition discriminate. }
  assert (Hsp : forall x, no_space x = true -> ~ In " "%char x).
  { intros x Hx. now apply (no_space_in x " "%char Hx). }
  assert (Hsplit : Py.split head " " = [name; s "where"; lhs]).
  { unfold head.
    change (name ++ s " where " ++ lhs)
      with (name ++ " "%char :: s "where" ++ " "%char :: lhs).
    rewrite split_at by now apply Hsp.
    rewrite split_at by (cbn; intuition discriminate).
    rewrite split_absent by now apply Hsp. reflexivity. }
  unfold SwiftClass.handle_signature.
  replace (name ++ s " where " ++ lhs ++ ":"%char :: rhs)
    with (head ++ ":"%char :: rhs) by (unfold head; now rewrite <- !app_assoc).
  rewrite split1_at by assumption. cbn [map]. rewrite Hhead, index_0. cbn [bind].
  unfold SwiftClass.split_generic. rewrite Hangle. cbn [bind fst snd].
  unfold SwiftClass.name_where.
  replace (Py.contains " " head) with true
    by (symmetry; apply contains_In; unfold head; apply in_or_app; right; now left).
  rewrite Hsplit.
  assert (Hnw : Py.str_eqb name (s "where") = false) by now apply str_eqb_neq.
  cbn [Py.enumerate Py.enumerate_from SwiftClass.where_index].
  rewrite Hnw. change (Py.str_eqb (s "where") (s "where")) with true. cbv iota.
  change (SwiftClass.pop [head; Py.strip rhs]) with (Ok (Py.strip rhs, [head])).
  cbn [bind fst snd].
  change (Py.slice_to [name; s "where"; lhs] (0 + 1)) with [name].
  change (Py.slice_from [name; s "where"; lhs] (0 + 1)) with [s "where"; lhs].
  cbn [Py.join].
  unfold SwiftClass.last_segment.
  rewrite count_absent by assumption. cbn [Z.eqb negb bind].
  unfold SwiftClass.split_supers.
  change (1 <? len [head]) with false. cbn [bind fst snd].
  eexists. split; [reflexivity|].
  cbn [SwiftClass.class_name SwiftClass.super_classes SwiftClass.type_constraint
       SwiftClass.add_to_index].
  split; [reflexivity|]. split; [reflexivity|]. split.
  - now rewrite <- !app_assoc.
  - now destruct (Py.str_eqb objtype (s "extension")).
Qed.

Lemma X21_where_behind_name_witness :
  exists h,
    SwiftClass.handle_signature no_container (s "extension")
      (s "Array where Element: Equatable") = Ok h
    /\ SwiftClass.class_name h = s "Array"
    /\ SwiftClass.type_constraint h = Some (s "where Element: Equatable")
    /\ SwiftClass.add_to_index h = false.
Proof.
  destruct (X21_where_behind_name no_container (s "extension") (s "Array")
              (s "Element") (s " Equatable"))
    as (h & H & H1 & _ & H3 & H4);
    try reflexivity; try discriminate; try (cbn; intuition discriminate).
  exists h. now repeat split.
Defined.

(** ** Callables: the generic clause that is shown *)

Lemma generics_first_angle (pre g post : str) :
  ~ In "<"%char pre -> ~ In ">"%char g ->
  SwiftClassmember.generics (pre ++ "<"%char :: g ++ ">"%char :: post)
  = Some ("<"%char :: g ++ [">"%char]).
Proof.
  intros Hpre Hg. unfold SwiftClassmember.generics.
  change (s "<") with ["<"%char]. rewrite find_first by assumption.
  pose proof (len_nonneg pre).
  destruct (0 <=? len pre) eqn:E; [|apply Z.leb_gt in E; lia].
  rewrite !slice_from_app.
  change (s ">") with [">"%char].
  replace ("<"%char :: g ++ ">"%char :: post)
    with (("<"%char :: g) ++ ">"%char :: post) by reflexivity.
  rewrite find_first.
  - replace (len ("<"%char :: g) + 1) with (len (("<"%char :: g) ++ [">"%char]))
      by (rewrite len_app; reflexivity).
    replace (("<"%char :: g) ++ ">"%char :: post)
      with ((("<"%char :: g) ++ [">"%char]) ++ post)
      by (rewrite <- app_assoc; reflexivity).
    now rewrite slice_to_app.
  - intros [Hin|Hin]; [discriminate|now apply Hg].
Qed.

(** X22.  The generic clause shown for a callable is the text from the
    first opening angle bracket of the whole signature to the first
    closing one behind it, wherever that bracket stands: a signature
    without a generic clause whose parameter list or return type holds a
    generic type shows the arguments of that type as the generic clause
    of the callable. *)
Theorem X22_callable_generics_shown :
  forall (temp : temp_data) (objtype pre g post : str)
         (h : SwiftClassmember.handled),
    ~ In "<"%char pre -> ~ In ">"%char g ->
    SwiftClassmember.handle_signature temp objtype
      (pre ++ "<"%char :: g ++ ">"%char :: post) = Ok h ->
    SwiftClassmember.h_generics h = Some ("<"%char :: g ++ [">"%char])
    /\ In (desc_addname ("<"%char :: g ++ [">"%char]) ("<"%char :: g ++ [">"%char]))
          (SwiftClassmember.h_signode h).
Proof.
  intros temp objtype pre g post h Hpre Hg H.
  unfold SwiftClassmember.handle_signature in H.
  rewrite generics_first_angle in H by assumption.
  destruct (SwiftClassmember.cut_parameter_list _) as [pl rest].
  destruct (match pl with
            | Some pl0 => if 0 <? len pl0
                          then SwiftClassmember._parse_parameter_list pl0 else Ok []
            | None => Ok []
            end) as [ps|]; [|discriminate H].
  cbn [bind] in H. injection H as <-.
  cbn [SwiftClassmember.h_generics SwiftClassmember.h_signode truthy].
  split; [reflexivity|].
  apply in_or_app. right. apply in_or_app. right. now left.
Qed.

Lemma X22_callable_generics_shown_witness :
  match SwiftClassmember.handle_signature no_container (s "function")
          (s "count(items: Array<Int>) -> Int") with
  | Ok h =>
      SwiftClassmember.h_generics h = Some (s "<Int>")
      /\ In (desc_addname (s "<Int>") (s "<Int>")) (SwiftClassmember.h_signode h)
  | Raise _ => False
  end.
Proof.
  destruct (SwiftClassmember.handle_signature no_container (s "function")
              (s "count(items: Array<Int>) -> Int")) as [h|e] eqn:E.
  - apply (X22_callable_generics_shown no_container (s "function")
             (s "count(items: Array") (s "Int") (s ") -> Int") h).
    + cbn. intuition discriminate.
    + cbn. intuition discriminate.
    + exact E.
  - vm_compute in E. discriminate E.
Defined.
